(** * Change-aware polling caches of the Goodreads and Spotify workers

    A shallow embedding of the three Cloudflare workers of the repository:

    - [Goodreads]        : goodreads-worker.js (reading list,
                           [hasBookChanged]);
    - [GoodreadsInline]  : the second reading-list worker of the repository,
                           which writes the comparison inline in its handlers;
    - [Spotify]          : spotify-worker.js (playback, [tracksEqual],
                           [lastRun]);
    - [Http]             : the responses of the upstream services;
    - [Rss]              : [parseGoodreadsRSS] of both reading-list workers
                           and [fetchGoodreadsRSS];
    - [SpotifyApi]       : [getAccessToken], [getNowPlaying] and
                           [getRecentlyPlayed].

    Each handler ([fetch], [scheduled]) is a computation in a small monad
    that threads the KV store, may throw, and emits the list of the store
    and upstream operations it performed.  What the platform and the
    upstream services do during an invocation (clock readings, thrown
    errors, fetched records) is an argument of the handler.  Logging is
    left out: it neither throws nor touches the store. *)

From Stdlib Require Import ZArith NArith Ascii String DecimalString List Bool Lia.
Import ListNotations.
Open Scope string_scope.
Open Scope list_scope.
Open Scope Z_scope.

Set Implicit Arguments.

(** ** JavaScript values *)

Module JS.

(** Truthiness of a number that is a timestamp: [0] (like a missing
    field) is falsy.  Every read of [timestamp] and [lastRun] in the
    workers is guarded by this test before any arithmetic. *)
Definition truthy_num (n : Z) : bool := negb (n =? 0).

(** Truthiness of a string-or-null ([item.id]). *)
Definition truthy_str (s : option string) : bool :=
  match s with
  | Some x => negb (x =? "")%string
  | None => false
  end.

(** [a !== b] on string-or-undefined operands. *)
Definition strict_neq (a b : option string) : bool :=
  match a, b with
  | Some x, Some y => negb (x =? y)%string
  | None, None => false
  | _, _ => true
  end.

(** [x?.f] *)
Definition chain {A B : Type} (x : option A) (f : A -> B) : option B :=
  match x with
  | Some a => Some (f a)
  | None => None
  end.

(** [x?.f] where the field itself holds an object or null. *)
Definition chain_opt {A B : Type} (x : option A) (f : A -> option B)
  : option B :=
  match x with
  | Some a => f a
  | None => None
  end.

Definition is_some {A : Type} (x : option A) : bool :=
  match x with Some _ => true | None => false end.

End JS.

(** ** Effects: KV store, exceptions, emitted operations *)

(** Result of an awaited call: a value or a thrown error (its message). *)
Inductive outcome (A : Type) : Type :=
| Ok (a : A)
| Throw (message : string).
Arguments Throw {A} message.

(** The upstream HTTP calls of the workers. *)
Inductive Upstream : Type :=
| GoodreadsRSS
| SpotifyToken
| SpotifyNowPlaying
| SpotifyRecentlyPlayed.

(** What the platform does during one invocation.  A Worker's clock
    stands still between two awaited calls, so the handler sees at most
    two readings: one after the cache read and one after the upstream
    calls, when it builds the entry to put (the two [Date.now()] of one
    object literal read the same value). *)
Record Platform : Type := mkPlatform {
  clock_read : Z;               (* Date.now() after the KV read *)
  clock_write : Z;              (* Date.now() when the entry is built *)
  get_error : option string;    (* KV get throws *)
  put_error : option string     (* KV put throws *)
}.

Section KV.

Variable Entry : Type.

(** A stored value with its absolute expiry (ms), if [put] gave a TTL. *)
Record Stored : Type := mkStored {
  value : Entry;
  expires : option Z
}.

(** The single key of the worker's namespace. *)
Definition Store : Type := option Stored.

Inductive Event : Type :=
| EvGet
| EvFetch (call : Upstream)
| EvPut (e : Entry) (ttl : option Z) (ok : bool).

Definition M (A : Type) : Type :=
  Store -> outcome A * Store * list Event.

Definition ret {A : Type} (a : A) : M A :=
  fun s => (Ok a, s, []).

Definition throw {A : Type} (message : string) : M A :=
  fun s => (Throw message, s, []).

Definition bind {A B : Type} (m : M A) (f : A -> M B) : M B :=
  fun s =>
    match m s with
    | (Ok a, s1, t1) =>
        match f a s1 with
        | (r, s2, t2) => (r, s2, t1 ++ t2)
        end
    | (Throw e, s1, t1) => (Throw e, s1, t1)
    end.

(** [try { m } catch (e) { h e }] *)
Definition try_catch {A : Type} (m : M A) (h : string -> M A) : M A :=
  fun s =>
    match m s with
    | (Ok a, s1, t1) => (Ok a, s1, t1)
    | (Throw e, s1, t1) =>
        match h e s1 with
        | (r, s2, t2) => (r, s2, t1 ++ t2)
        end
    end.

(** An entry is visible until its expiry. *)
Definition live (now : Z) (s : Store) : option Entry :=
  match s with
  | Some st =>
      match expires st with
      | Some t => if t <=? now then None else Some (value st)
      | None => Some (value st)
      end
  | None => None
  end.

(** [await env.NS.get(key, 'json')] *)
Definition kv_get (p : Platform) : M (option Entry) :=
  fun s =>
    match get_error p with
    | Some e => (Throw e, s, [EvGet])
    | None => (Ok (live (clock_read p) s), s, [EvGet])
    end.

(** Absolute expiry of a value put now with [expirationTtl: sec]. *)
Definition expiry (p : Platform) (ttl : option Z) : option Z :=
  match ttl with
  | Some sec => Some (clock_write p + sec * 1000)
  | None => None
  end.

(** [await env.NS.put(key, JSON.stringify(e), { expirationTtl })];
    [ttl] is in seconds. *)
Definition kv_put (p : Platform) (e : Entry) (ttl : option Z) : M unit :=
  fun s =>
    match put_error p with
    | Some msg => (Throw msg, s, [EvPut e ttl false])
    | None =>
        (Ok tt, Some (mkStored e (expiry p ttl)), [EvPut e ttl true])
    end.

(** An awaited upstream call whose result is [r]. *)
Definition upstream {A : Type} (call : Upstream) (r : outcome A) : M A :=
  fun s => (r, s, [EvFetch call]).

Definition is_fetch (ev : Event) : bool :=
  match ev with EvFetch _ => true | _ => false end.

Definition is_put (ev : Event) : bool :=
  match ev with EvPut _ _ _ => true | _ => false end.

Definition is_write (ev : Event) : bool :=
  match ev with EvPut _ _ ok => ok | _ => false end.

(** Upstream calls, attempted puts and completed writes of a trace. *)
Definition fetches (t : list Event) : nat := length (filter is_fetch t).
Definition puts (t : list Event) : nat := length (filter is_put t).
Definition writes (t : list Event) : nat := length (filter is_write t).

(** Effect of a put that ends a handler: [done] is the handler's result
    when the put succeeds, [caught] what its outer [catch] makes of the
    error. *)
Definition afterPut {A : Type} (p : Platform) (s : Store)
           (before : list Event) (e : Entry) (ttl : option Z)
           (done : A) (caught : string -> A)
  : outcome A * Store * list Event :=
  match put_error p with
  | None =>
      (Ok done, Some (mkStored e (expiry p ttl)),
       before ++ [EvPut e ttl true])
  | Some m => (Ok (caught m), s, before ++ [EvPut e ttl false])
  end.

(** The effect of one invocation on the store, with its operations. *)
Definition Step : Type := Store -> Store * list Event.

Definition effect {A : Type} (m : M A) : Step :=
  fun s =>
    match m s with
    | (_, s1, t1) => (s1, t1)
    end.

(** Invocations one after the other, each on the store the previous one
    left. *)
Fixpoint run (steps : list Step) (s : Store) : Store * list Event :=
  match steps with
  | [] => (s, [])
  | step :: rest =>
      match step s with
      | (s1, t1) =>
          match run rest s1 with
          | (s2, t2) => (s2, t1 ++ t2)
          end
      end
  end.

End KV.

Arguments EvGet {Entry}.
Arguments EvFetch {Entry} call.
Arguments ret {Entry A} a.
Arguments throw {Entry A} message.
Arguments upstream {Entry A} call r.
Arguments kv_get {Entry} p.
Arguments kv_put {Entry} p e ttl.
Arguments live {Entry} now s.
Arguments afterPut {Entry A} p s before e ttl done caught.
Arguments effect {Entry A} m s.
Arguments run {Entry} steps s.

Declare Scope kv_scope.
Delimit Scope kv_scope with kv.
Notation "x <- m ;; k" := (bind m (fun x => k))
  (at level 61, m at next level, right associativity) : kv_scope.
Notation "m ;;; k" := (bind m (fun _ => k))
  (at level 61, right associativity) : kv_scope.
Open Scope kv_scope.

(** Cache reads of a trace. *)
Definition is_get {Entry : Type} (ev : Event Entry) : bool :=
  match ev with EvGet => true | _ => false end.

Definition reads {Entry : Type} (t : list (Event Entry)) : nat :=
  length (filter is_get t).

(** Outcome of a block that may [return] from the enclosing handler. *)
Inductive control (R A : Type) : Type :=
| Return (r : R)
| Next (a : A).
Arguments Return {R A} r.
Arguments Next {R A} a.

(** HTTP side of the on-demand handlers. *)
Record Request : Type := mkRequest { method : string }.

(** ** goodreads-worker.js *)

Module Goodreads.

Record Book : Type := mkBook {
  title : string;
  author : string;
  cover : string;
  link : string
}.

(** The object returned by [parseGoodreadsRSS]. *)
Record Books : Type := mkBooks {
  current : option Book;
  previous : option Book
}.

(** The JSON value stored under the key ['books']. *)
Record Entry : Type := mkEntry {
  data : option Books;
  timestamp : Z
}.

Inductive Body : Type :=
| BodyNone
| BodyJson (d : option Books)
| BodyError (error message : string).

Record Response : Type := mkResponse {
  status : Z;
  body : Body
}.

(** What the clock, the store and Goodreads do during one invocation;
    [rss] is the result of [fetchGoodreadsRSS] followed by
    [parseGoodreadsRSS] (the parser is total and never throws). *)
Record Env : Type := mkEnv {
  platform : Platform;
  rss : outcome Books
}.

Definition CACHE_TTL_MS : Z := 3600000.

Definition hasBookChanged (newBooks existingBooks : option Books) : bool :=
  match JS.chain_opt existingBooks current with
  | None => true
  | Some ec =>
      match JS.chain_opt newBooks current with
      | None => false
      | Some nc =>
          negb (title nc =? title ec)%string
          || negb (author nc =? author ec)%string
      end
  end.

(** [cached?.timestamp && (Date.now() - cached.timestamp < CACHE_TTL_MS)] *)
Definition cacheValid (now : Z) (cached : option Entry) : bool :=
  match cached with
  | Some c =>
      JS.truthy_num (timestamp c) && (now - timestamp c <? CACHE_TTL_MS)
  | None => false
  end.

(** The body of the handler's outer [catch]. *)
Definition failed (message : string) : Response :=
  mkResponse 500 (BodyError "Failed to fetch Goodreads data" message).

Definition json (d : option Books) : Response := mkResponse 200 (BodyJson d).

(** The [fetch] handler: preflight, cache read, freshness test, upstream
    fetch with stale-serving on failure, then one of three puts. *)
Definition fetch (request : Request) (env : Env) : M Entry Response :=
  if (method request =? "OPTIONS")%string then ret (mkResponse 200 BodyNone)
  else
    try_catch
      (cached <- kv_get (platform env) ;;
       if cacheValid (clock_read (platform env)) cached
       then ret (json (JS.chain_opt cached data))
       else
         r <- try_catch
                (books <- upstream GoodreadsRSS (rss env) ;;
                 ret (Next books))
                (fun fetchError =>
                   match JS.chain_opt cached data with
                   | Some d => ret (Return (json (Some d)))
                   | None => throw fetchError
                   end) ;;
         match r with
         | Return stale => ret stale
         | Next books =>
             let existingBooks := JS.chain_opt cached data in
             let bookChanged := hasBookChanged (Some books) existingBooks in
             (if bookChanged
              then kv_put (platform env)
                     (mkEntry (Some books) (clock_write (platform env)))
                     None
              else if negb (JS.is_some cached)
              then kv_put (platform env)
                     (mkEntry (Some books) (clock_write (platform env)))
                     None
              else kv_put (platform env)
                     (mkEntry existingBooks (clock_write (platform env)))
                     None) ;;;
             ret (json (Some books))
         end)
      (fun error => ret (failed error)).

(** The [scheduled] handler: cache read, upstream fetch (a failure ends
    the tick), put unless the book is unchanged. *)
Definition scheduled (env : Env) : M Entry unit :=
  try_catch
    (existingCache <- kv_get (platform env) ;;
     let existingBooks := JS.chain_opt existingCache data in
     r <- try_catch
            (books <- upstream GoodreadsRSS (rss env) ;;
             ret (Next books))
            (fun fetchError => ret (Return tt)) ;;
     match r with
     | Return _ => ret tt
     | Next books =>
         let bookChanged := hasBookChanged (Some books) existingBooks in
         if negb bookChanged && JS.is_some existingBooks
         then ret tt
         else
           kv_put (platform env)
             (mkEntry (Some books) (clock_write (platform env)))
             None
     end)
    (fun error => ret tt).

(** The entry the on-demand path puts after a successful fetch. *)
Definition entryOnDemand (env : Env) (cached : option Entry)
           (books : Books) : Entry :=
  if hasBookChanged (Some books) (JS.chain_opt cached data)
  then mkEntry (Some books) (clock_write (platform env))
  else if negb (JS.is_some cached)
       then mkEntry (Some books) (clock_write (platform env))
       else mkEntry (JS.chain_opt cached data) (clock_write (platform env)).

(** A poll is an on-demand request or a scheduled tick. *)
Inductive Poll : Type :=
| OnDemand (request : Request) (env : Env)
| Tick (env : Env).

Definition envOf (p : Poll) : Env :=
  match p with
  | OnDemand _ env => env
  | Tick env => env
  end.

Definition poll (p : Poll) : Step Entry :=
  match p with
  | OnDemand request env => effect (fetch request env)
  | Tick env => effect (scheduled env)
  end.

(** The store once a poll has written [books]: a later poll that fetches
    [books] again finds nothing to write. *)
Definition settled (books : Books) (s : Store Entry) : Prop :=
  exists ts : Z, s = Some (mkStored (mkEntry (Some books) ts) None).

End Goodreads.

(** ** The reading-list worker with the inline comparison *)

Module GoodreadsInline.

(** Same item shape as in goodreads-worker.js. *)
Definition Book : Type := Goodreads.Book.

(** This worker's [parseGoodreadsRSS] keeps the first book only. *)
Record Books : Type := mkBooks {
  current : option Book
}.

Record Entry : Type := mkEntry {
  data : option Books;
  timestamp : Z
}.

Inductive Body : Type :=
| BodyNone
| BodyJson (d : option Books)
| BodyError (error message : string).

Record Response : Type := mkResponse {
  status : Z;
  body : Body
}.

(** [rss] is the result of [fetch(rssUrl)], [response.text()] and
    [parseGoodreadsRSS] in sequence. *)
Record Env : Type := mkEnv {
  platform : Platform;
  rss : outcome Books
}.

(** [!existingBooks?.current ||
     books.current?.title !== existingBooks?.current?.title ||
     books.current?.author !== existingBooks?.current?.author] *)
Definition bookChanged (books : Books) (existingBooks : option Books)
  : bool :=
  negb (JS.is_some (JS.chain_opt existingBooks current))
  || JS.strict_neq (JS.chain (current books) Goodreads.title)
       (JS.chain (JS.chain_opt existingBooks current) Goodreads.title)
  || JS.strict_neq (JS.chain (current books) Goodreads.author)
       (JS.chain (JS.chain_opt existingBooks current) Goodreads.author).

(** [cached && cached.timestamp && Date.now() - cached.timestamp < 3600000] *)
Definition cacheValid (now : Z) (cached : option Entry) : bool :=
  match cached with
  | Some c => JS.truthy_num (timestamp c) && (now - timestamp c <? 3600000)
  | None => false
  end.

(** The body of the handler's outer [catch]. *)
Definition failed (message : string) : Response :=
  mkResponse 500 (BodyError "Failed to fetch Goodreads data" message).

Definition json (d : option Books) : Response := mkResponse 200 (BodyJson d).

(** The [fetch] handler: preflight, cache read, freshness test, upstream
    fetch, put if the book changed or nothing was cached. *)
Definition fetch (request : Request) (env : Env) : M Entry Response :=
  if (method request =? "OPTIONS")%string then ret (mkResponse 200 BodyNone)
  else
    try_catch
      (cached <- kv_get (platform env) ;;
       if cacheValid (clock_read (platform env)) cached
       then ret (json (JS.chain_opt cached data))
       else
         books <- upstream GoodreadsRSS (rss env) ;;
         let existingBooks := JS.chain_opt cached data in
         (if bookChanged books existingBooks
             || negb (JS.is_some existingBooks)
          then kv_put (platform env)
                 (mkEntry (Some books) (clock_write (platform env)))
                 None
          else ret tt) ;;;
         ret (json (Some books)))
      (fun error => ret (failed error)).

(** The [scheduled] handler: cache read, upstream fetch, put unless the
    book is unchanged. *)
Definition scheduled (env : Env) : M Entry unit :=
  try_catch
    (existingCache <- kv_get (platform env) ;;
     let existingBooks := JS.chain_opt existingCache data in
     books <- upstream GoodreadsRSS (rss env) ;;
     if negb (bookChanged books existingBooks) && JS.is_some existingBooks
     then ret tt
     else
       kv_put (platform env)
         (mkEntry (Some books) (clock_write (platform env)))
         None)
    (fun error => ret tt).

(** A poll is an on-demand request or a scheduled tick. *)
Inductive Poll : Type :=
| OnDemand (request : Request) (env : Env)
| Tick (env : Env).

Definition envOf (p : Poll) : Env :=
  match p with
  | OnDemand _ env => env
  | Tick env => env
  end.

Definition poll (p : Poll) : Step Entry :=
  match p with
  | OnDemand request env => effect (fetch request env)
  | Tick env => effect (scheduled env)
  end.

(** The store once a poll has written [books]: a later poll that fetches
    [books] again finds nothing to write. *)
Definition settled (books : Books) (s : Store Entry) : Prop :=
  exists ts : Z, s = Some (mkStored (mkEntry (Some books) ts) None).

End GoodreadsInline.

(** ** spotify-worker.js *)

Module Spotify.

(** The object built by [getNowPlaying] and [getRecentlyPlayed];
    [trackId] is [item.id], which Spotify leaves null for local files. *)
Record Track : Type := mkTrack {
  isPlaying : bool;
  title : string;
  artist : string;
  album : string;
  albumArt : string;
  songUrl : string;
  trackId : option string;
  type : string
}.

(** The JSON value stored under [KV_KEY]. *)
Record Entry : Type := mkEntry {
  data : option Track;
  timestamp : Z;
  lastRun : Z
}.

Inductive Body : Type :=
| BodyNone
| BodyJson (d : option Track)
| BodyError (error message : string).

Record Response : Type := mkResponse {
  status : Z;
  body : Body
}.

(** What the clock, the store and Spotify do during one invocation:
    the results of the calls [getAccessToken(env)],
    [getNowPlaying(access_token)] and [getRecentlyPlayed(access_token)],
    each consulted only if the handler makes the call. *)
Record Env : Type := mkEnv {
  platform : Platform;
  getAccessToken : outcome unit;
  getNowPlaying : outcome (option Track);
  getRecentlyPlayed : outcome (option Track)
}.

Definition KV_TTL : Z := 300.
Definition SCHEDULE_INTERVAL : Z := 120000.
Definition FETCH_CACHE_TTL : Z := 30000.

Definition opt_string_eqb (a b : option string) : bool :=
  negb (JS.strict_neq a b).

(** [JSON.stringify(track1) === JSON.stringify(track2)]: both objects
    list the same keys in the same order, so the strings agree exactly
    when every field does. *)
Definition json_eqb (t1 t2 : Track) : bool :=
  Bool.eqb (isPlaying t1) (isPlaying t2)
  && (title t1 =? title t2)%string
  && (artist t1 =? artist t2)%string
  && (album t1 =? album t2)%string
  && (albumArt t1 =? albumArt t2)%string
  && (songUrl t1 =? songUrl t2)%string
  && opt_string_eqb (trackId t1) (trackId t2)
  && (type t1 =? type t2)%string.

Definition tracksEqual (track1 track2 : option Track) : bool :=
  match track1, track2 with
  | None, None => true
  | None, Some _ => false
  | Some _, None => false
  | Some t1, Some t2 =>
      if JS.truthy_str (trackId t1) && JS.truthy_str (trackId t2)
      then opt_string_eqb (trackId t1) (trackId t2)
           && Bool.eqb (isPlaying t1) (isPlaying t2)
      else json_eqb t1 t2
  end.

(** [cached && cached.timestamp &&
     Date.now() - cached.timestamp < FETCH_CACHE_TTL] *)
Definition cacheValid (now : Z) (cached : option Entry) : bool :=
  match cached with
  | Some c =>
      JS.truthy_num (timestamp c) && (now - timestamp c <? FETCH_CACHE_TTL)
  | None => false
  end.

(** The interval test of the scheduled handler on [existingData?.lastRun]. *)
Definition tooSoon (now : Z) (existingData : option Entry) : bool :=
  match JS.chain existingData lastRun with
  | Some l => JS.truthy_num l && (now - l <? SCHEDULE_INTERVAL)
  | None => false
  end.

(** The body of the handler's outer [catch]. *)
Definition failed (message : string) : Response :=
  mkResponse 500 (BodyError "Failed to fetch Spotify data" message).

Definition json (d : option Track) : Response := mkResponse 200 (BodyJson d).

(** The [fetch] handler: preflight, cache read, freshness test, token,
    current track or else most recent track, put if the track changed. *)
Definition fetch (request : Request) (env : Env) : M Entry Response :=
  if (method request =? "OPTIONS")%string then ret (mkResponse 200 BodyNone)
  else
    try_catch
      (cached <- kv_get (platform env) ;;
       if cacheValid (clock_read (platform env)) cached
       then ret (json (JS.chain_opt cached data))
       else
         upstream SpotifyToken (getAccessToken env) ;;;
         nowp <- upstream SpotifyNowPlaying (getNowPlaying env) ;;
         track <- match nowp with
                  | Some t => ret (Some t)
                  | None =>
                      upstream SpotifyRecentlyPlayed (getRecentlyPlayed env)
                  end ;;
         let existingTrack := JS.chain_opt cached data in
         (if negb (tracksEqual track existingTrack)
          then kv_put (platform env)
                 (mkEntry track (clock_write (platform env))
                    (clock_write (platform env)))
                 (Some KV_TTL)
          else ret tt) ;;;
         ret (json track))
      (fun error => ret (failed error)).

(** The [scheduled] handler: cache read, interval test on [lastRun],
    token, current track or else most recent track or else nothing to do,
    put unless the track is unchanged. *)
Definition scheduled (env : Env) : M Entry unit :=
  try_catch
    (existingData <- kv_get (platform env) ;;
     let now := clock_read (platform env) in
     if tooSoon now existingData then ret tt
     else
       let existingTrack := JS.chain_opt existingData data in
       upstream SpotifyToken (getAccessToken env) ;;;
       r <- try_catch
              (nowp <- upstream SpotifyNowPlaying (getNowPlaying env) ;;
               match nowp with
               | Some t => ret (Next t)
               | None =>
                   recent <- upstream SpotifyRecentlyPlayed
                               (getRecentlyPlayed env) ;;
                   match recent with
                   | Some t => ret (Next t)
                   | None =>
                       if JS.is_some existingTrack
                       then ret (Return tt)
                       else ret (Return tt)
                   end
               end)
              (fun apiError => ret (Return tt)) ;;
       match r with
       | Return _ => ret tt
       | Next newTrack =>
           if tracksEqual (Some newTrack) existingTrack then ret tt
           else
             kv_put (platform env)
               (mkEntry (Some newTrack) now now)
               (Some KV_TTL)
       end)
    (fun error => ret tt).

(** The upstream calls both handlers make, in order, once they decide
    to poll: the token, the current track and, if nothing is playing,
    the most recent track. *)
Definition calls (env : Env) : list (Event Entry) :=
  EvFetch SpotifyToken ::
  match getAccessToken env with
  | Throw _ => []
  | Ok _ =>
      EvFetch SpotifyNowPlaying ::
      match getNowPlaying env with
      | Ok None => [EvFetch SpotifyRecentlyPlayed]
      | _ => []
      end
  end.

(** Their combined result: the fetched record, null, or the error. *)
Definition fetchLatest (env : Env) : outcome (option Track) :=
  match getAccessToken env with
  | Throw m => Throw m
  | Ok _ =>
      match getNowPlaying env with
      | Throw m => Throw m
      | Ok (Some t) => Ok (Some t)
      | Ok None => getRecentlyPlayed env
      end
  end.

(** A poll is an on-demand request or a scheduled tick. *)
Inductive Poll : Type :=
| OnDemand (request : Request) (env : Env)
| Tick (env : Env).

Definition envOf (p : Poll) : Env :=
  match p with
  | OnDemand _ env => env
  | Tick env => env
  end.

Definition poll (p : Poll) : Step Entry :=
  match p with
  | OnDemand request env => effect (fetch request env)
  | Tick env => effect (scheduled env)
  end.

(** A poll for which Spotify reports [track], and which falls in the span
    of one KV expiry after [start]: it writes no earlier than [start] and
    reads the clock before [start] + 300 s. *)
Definition sameTrack (track : Track) (start : Z) (p : Poll) : Prop :=
  fetchLatest (envOf p) = Ok (Some track)
  /\ start <= clock_write (platform (envOf p))
  /\ clock_read (platform (envOf p)) < start + 300000.

(** The store once a poll of such a run has written [track]: the entry
    outlives the span. *)
Definition settled (track : Track) (start : Z) (s : Store Entry) : Prop :=
  exists (ts lr x : Z),
    s = Some (mkStored (mkEntry (Some track) ts lr) (Some x))
    /\ start + 300000 <= x.

End Spotify.

(** ** Responses of the upstream services *)

Module Http.

(** What an awaited [fetch(url)] resolves to: the status line and the
    outcome of reading the body ([response.text()] or [response.json()],
    which throw when the body cannot be read or parsed). *)
Record Response (B : Type) : Type := mkResponse {
  status : Z;
  body : outcome B
}.

(** [response.ok] *)
Definition ok {B : Type} (response : Response B) : bool :=
  (200 <=? status response) && (status response <=? 299).

(** The status as a template literal prints it. *)
Definition showStatus (n : Z) : string := NilZero.string_of_int (Z.to_int n).

End Http.

(** ** The feed parser of the reading-list workers

    Strings are sequences of code units below 256.  The three regular
    expressions of [parseGoodreadsRSS] are written out as the scans a
    backtracking matcher performs: the leftmost position at which the
    pattern matches, lazy or greedy as the pattern says. *)

Module Rss.

(** [s.slice(n)] *)
Fixpoint drop (n : nat) (s : string) : string :=
  match n, s with
  | O, _ => s
  | S k, String _ rest => drop k rest
  | S _, EmptyString => EmptyString
  end.

(** The code units that [String.prototype.trim] strips: tab, line feed,
    vertical tab, form feed, carriage return, space and no-break space. *)
Definition isSpace (c : ascii) : bool :=
  let n := N_of_ascii c in
  ((9 <=? n) && (n <=? 13) || (n =? 32) || (n =? 160))%N.

Fixpoint trimStart (s : string) : string :=
  match s with
  | EmptyString => EmptyString
  | String c rest => if isSpace c then trimStart rest else s
  end.

Fixpoint trimEnd (s : string) : string :=
  match s with
  | EmptyString => EmptyString
  | String c rest =>
      match trimEnd rest with
      | EmptyString => if isSpace c then EmptyString else String c EmptyString
      | kept => String c kept
      end
  end.

(** [s.trim()] *)
Definition trim (s : string) : string := trimEnd (trimStart s).

(** [xml.match(/<item>[\s\S]*?<\/item>/g)]: the successive matches, each
    search resuming where the previous match ended; [skip] counts the
    characters of the current match still to pass. *)
Fixpoint matchItems (skip : nat) (xml : string) : list string :=
  match xml with
  | EmptyString => []
  | String _ rest =>
      match skip with
      | S k => matchItems k rest
      | O =>
          if String.prefix "<item>" xml
          then
            match String.index 0 "</item>" (drop 6 xml) with
            | Some n =>
                String.substring 0 (6 + n + 7) xml
                :: matchItems (6 + n + 6) rest
            | None => matchItems 0 rest
            end
          else matchItems 0 rest
      end
  end.

(** First match of [open([\s\S]*?)close] in [s]: its capture. *)
Fixpoint matchLazy (open close s : string) : option string :=
  match s with
  | EmptyString => None
  | String _ rest =>
      if String.prefix open s
      then
        match String.index 0 close (drop (String.length open) s) with
        | Some n =>
            Some (String.substring 0 n (drop (String.length open) s))
        | None => matchLazy open close rest
        end
      else matchLazy open close rest
  end.

(** The longest prefix without ['<']: what the greedy class of the
    second pattern takes. *)
Fixpoint untilTag (s : string) : string :=
  match s with
  | EmptyString => EmptyString
  | String c rest =>
      if Ascii.eqb c "<" then EmptyString else String c (untilTag rest)
  end.

(** First match of [open], a run of characters other than ['<'], then
    [close] (which starts with ['<']): the run. *)
Fixpoint matchPlain (open close s : string) : option string :=
  match s with
  | EmptyString => None
  | String _ rest =>
      if String.prefix open s
      then
        let body := drop (String.length open) s in
        if String.prefix close (drop (String.length (untilTag body)) body)
        then Some (untilTag body)
        else matchPlain open close rest
      else matchPlain open close rest
  end.

(** The helper [getField] of the [items.map] callback. *)
Definition getField (item field : string) : string :=
  match matchLazy ("<" ++ field ++ "><![CDATA[") ("]]></" ++ field ++ ">")
          item with
  | Some v => trim v
  | None =>
      match matchPlain ("<" ++ field ++ ">") ("</" ++ field ++ ">") item with
      | Some v => trim v
      | None => ""
      end
  end.

(** The object built from one item. *)
Definition toBook (item : string) : Goodreads.Book :=
  Goodreads.mkBook (getField item "title") (getField item "author_name")
    (getField item "book_large_image_url") (getField item "link").

(** [parseGoodreadsRSS] of goodreads-worker.js. *)
Definition parseGoodreadsRSS (xml : string) : Goodreads.Books :=
  let items := matchItems 0 xml in
  if (List.length items =? 0)%nat
  then Goodreads.mkBooks None None
  else
    let books := map toBook items in
    Goodreads.mkBooks (nth_error books 0) (nth_error books 1).

(** [parseGoodreadsRSS] of the inline worker: the first book only. *)
Definition parseFirst (xml : string) : GoodreadsInline.Books :=
  let items := matchItems 0 xml in
  if (List.length items =? 0)%nat
  then GoodreadsInline.mkBooks None
  else
    let books := map toBook items in
    GoodreadsInline.mkBooks (nth_error books 0).

(** The field names the callback passes to [getField].  None of them
    holds a character that is special in a regular expression, so the
    patterns built from them match the tags literally. *)
Definition fields : list string :=
  ["title"; "author_name"; "book_large_image_url"; "link"].

(** [fetchGoodreadsRSS] of goodreads-worker.js; [response] is the
    outcome of the awaited [fetch], its body the outcome of
    [response.text()]. *)
Definition fetchGoodreadsRSS (response : outcome (Http.Response string))
  : outcome string :=
  match response with
  | Throw m => Throw m
  | Ok r =>
      if negb (Http.ok r)
      then Throw ("Goodreads RSS returned "
                  ++ Http.showStatus (Http.status r))%string
      else Http.body r
  end.

(** goodreads-worker.js: [fetchGoodreadsRSS] then [parseGoodreadsRSS]. *)
Definition feed (response : outcome (Http.Response string))
  : outcome Goodreads.Books :=
  match fetchGoodreadsRSS response with
  | Ok xml => Ok (parseGoodreadsRSS xml)
  | Throw m => Throw m
  end.

(** The inline worker: [fetch(rssUrl)], [response.text()] and
    [parseGoodreadsRSS], with no test of the status. *)
Definition feedInline (response : outcome (Http.Response string))
  : outcome GoodreadsInline.Books :=
  match response with
  | Throw m => Throw m
  | Ok r =>
      match Http.body r with
      | Ok xml => Ok (parseFirst xml)
      | Throw m => Throw m
      end
  end.

(** The two workers facing the same platform and the same response. *)
Definition worker (p : Platform) (response : outcome (Http.Response string))
  : Goodreads.Env :=
  Goodreads.mkEnv p (feed response).

Definition inlineWorker (p : Platform)
           (response : outcome (Http.Response string))
  : GoodreadsInline.Env :=
  GoodreadsInline.mkEnv p (feedInline response).

End Rss.

(** ** The Spotify calls of the playback worker

    The JSON documents of the Web API are records holding the fields the
    worker reads; a field the code reads through [?.] or guards with
    [||] is optional.  An array, even an empty one, is truthy. *)

Module SpotifyApi.

(** [a || b] on string-or-undefined operands. *)
Definition orElse (a b : option string) : option string :=
  if JS.truthy_str a then a else b.

(** [a || 'literal'] *)
Definition orString (a : option string) (b : string) : string :=
  match a with
  | Some x => if (x =? "")%string then b else x
  | None => b
  end.

Record Image : Type := mkImage { url : option string }.

Record Show : Type := mkShow {
  show_name : option string;
  show_images : option (list Image)
}.

Record Album : Type := mkAlbum {
  album_name : option string;
  album_images : option (list Image)
}.

Record Artist : Type := mkArtist { artist_name : string }.

Record ExternalUrls : Type := mkExternalUrls { spotify : option string }.

(** A track or an episode; the API always names it. *)
Record Item : Type := mkItem {
  name : string;
  id : option string;
  type : option string;
  show : option Show;
  images : option (list Image);
  artists : option (list Artist);
  album : option Album;
  external_urls : option ExternalUrls
}.

(** The document of the currently-playing endpoint. *)
Record Playing : Type := mkPlaying {
  is_playing : bool;
  currently_playing_type : option string;
  item : option Item
}.

(** One entry of the recently-played endpoint, and its document. *)
Record History : Type := mkHistory {
  track : option Item;
  episode : option Item
}.

Record Recently : Type := mkRecently { items : list History }.

(** A body read as text, as [getNowPlaying] sorts it: empty or blank,
    rejected by [JSON.parse], or a document. *)
Inductive Text (A : Type) : Type :=
| Blank
| Malformed
| Json (data : A).
Arguments Blank {A}.
Arguments Malformed {A}.

(** [images?.[0]?.url] *)
Definition firstUrl (imgs : option (list Image)) : option string :=
  JS.chain_opt (JS.chain_opt imgs (fun l => nth_error l 0)) url.

(** [images && images.length > 0 ? images[images.length - 1]?.url : ''] *)
Definition lastUrl (imgs : option (list Image)) : option string :=
  match imgs with
  | Some (i :: l) => url (last l i)
  | _ => Some ""%string
  end.

(** [artists.map(a => a.name).join(', ')] *)
Definition joinNames (l : list Artist) : string :=
  String.concat ", " (map artist_name l).

(** [getAccessToken]; the body is the outcome of [response.json()] and
    of taking [access_token] out of it. *)
Definition getAccessToken (response : outcome (Http.Response unit))
  : outcome unit :=
  match response with
  | Throw m => Throw m
  | Ok r =>
      if negb (Http.ok r)
      then Throw ("Failed to get access token: "
                  ++ Http.showStatus (Http.status r))%string
      else Http.body r
  end.

(** [getNowPlaying] *)
Definition getNowPlaying (response : outcome (Http.Response (Text Playing)))
  : outcome (option Spotify.Track) :=
  match response with
  | Throw m => Throw m
  | Ok r =>
      if Http.status r =? 204 then Ok None
      else if negb (Http.status r =? 200)
      then Throw ("Spotify API error: "
                  ++ Http.showStatus (Http.status r))%string
      else
        match Http.body r with
        | Throw m => Throw m
        | Ok Blank => Ok None
        | Ok Malformed => Throw "Invalid JSON response from Spotify API"
        | Ok (Json data) =>
            match item data with
            | None => Ok None
            | Some item =>
                let currentlyPlayingType :=
                  orElse (currently_playing_type data) (type item) in
                let isEpisode :=
                  Spotify.opt_string_eqb currentlyPlayingType
                    (Some "episode") in
                let artist :=
                  if isEpisode
                  then orString (JS.chain_opt (show item) show_name)
                         "Unknown Podcast"
                  else
                    match artists item with
                    | Some (a :: l) => joinNames (a :: l)
                    | _ => "Unknown Artist"
                    end in
                let albumArt :=
                  if isEpisode
                  then
                    orString
                      (orElse
                         (orElse (firstUrl (images item))
                            (firstUrl (JS.chain_opt (show item) show_images)))
                         (lastUrl (JS.chain_opt (show item) show_images)))
                      ""
                  else
                    orString
                      (firstUrl (JS.chain_opt (album item) album_images)) "" in
                let album :=
                  if isEpisode
                  then orString (JS.chain_opt (show item) show_name)
                         "Unknown Show"
                  else orString (JS.chain_opt (album item) album_name)
                         "Unknown Album" in
                Ok (Some
                      (Spotify.mkTrack (is_playing data)
                         (orString (Some (name item)) "Unknown Title")
                         artist album albumArt
                         (orString (JS.chain_opt (external_urls item) spotify)
                            "")
                         (id item)
                         (orString currentlyPlayingType "track")))
            end
        end
  end.

(** [getRecentlyPlayed]; the body is the outcome of [response.json()]. *)
Definition getRecentlyPlayed (response : outcome (Http.Response Recently))
  : outcome (option Spotify.Track) :=
  match response with
  | Throw m => Throw m
  | Ok r =>
      if negb (Http.status r =? 200) then Ok None
      else
        match Http.body r with
        | Throw m => Throw m
        | Ok data =>
            let first := nth_error (items data) 0 in
            match
              match JS.chain_opt first track with
              | Some i => Some i
              | None => JS.chain_opt first episode
              end
            with
            | None => Ok None
            | Some item =>
                let isEpisode :=
                  Spotify.opt_string_eqb (type item) (Some "episode")
                  || negb (JS.is_some (artists item)) in
                Ok (Some
                      (Spotify.mkTrack false
                         (name item)
                         (if isEpisode
                          then orString (JS.chain_opt (show item) show_name)
                                 "Unknown Podcast"
                          else orString
                                 (JS.chain (artists item) joinNames)
                                 "Unknown Artist")
                         (if isEpisode
                          then orString (JS.chain_opt (show item) show_name)
                                 "Unknown Show"
                          else orString
                                 (JS.chain_opt (album item) album_name)
                                 "Unknown Album")
                         (if isEpisode
                          then
                            orString
                              (orElse (firstUrl (images item))
                                 (firstUrl
                                    (JS.chain_opt (show item) show_images)))
                              ""
                          else
                            orString
                              (firstUrl
                                 (JS.chain_opt (album item) album_images))
                              "")
                         (orString (JS.chain_opt (external_urls item) spotify)
                            "")
                         (id item)
                         (orString (type item)
                            (if isEpisode then "episode" else "track"))))
            end
        end
  end.

(** The worker facing a platform and the three responses of Spotify. *)
Definition worker (p : Platform)
           (token : outcome (Http.Response unit))
           (playing : outcome (Http.Response (Text Playing)))
           (recent : outcome (Http.Response Recently)) : Spotify.Env :=
  Spotify.mkEnv p (getAccessToken token) (getNowPlaying playing)
    (getRecentlyPlayed recent).

End SpotifyApi.

(** ** Concrete deployments used as examples *)

Definition GET : Request := mkRequest "GET".

(** Two local files: no [trackId], same playing state, different art. *)
Definition localA : Spotify.Track :=
  Spotify.mkTrack false "Demo" "Me" "Tapes" "https://img/a.jpg" "" None
    "track".

Definition localB : Spotify.Track :=
  Spotify.mkTrack false "Demo" "Me" "Tapes" "https://img/b.jpg" "" None
    "track".

(** Same track and playing state, new album art. *)
Definition trackA : Spotify.Track :=
  Spotify.mkTrack true "Song" "Band" "LP" "https://img/1.jpg" "https://s/T1"
    (Some "T1") "track".

Definition trackB : Spotify.Track :=
  Spotify.mkTrack true "Song" "Band" "LP" "https://img/2.jpg" "https://s/T1"
    (Some "T1") "track".

(** A platform whose store calls succeed, with the two clock readings. *)
Definition calm (read write : Z) : Platform := mkPlatform read write None None.

Definition dune : Goodreads.Book :=
  Goodreads.mkBook "Dune" "Herbert" "https://img/dune-1.jpg" "https://gr/dune".

Definition duneNewCover : Goodreads.Book :=
  Goodreads.mkBook "Dune" "Herbert" "https://img/dune-2.jpg" "https://gr/dune".

(** 2023-11-14T22:13:20Z in epoch milliseconds. *)
Definition t0 : Z := 1700000000000.

Definition duneEntry : Goodreads.Entry :=
  Goodreads.mkEntry (Some (Goodreads.mkBooks (Some dune) None)) t0.

Definition duneInlineEntry : GoodreadsInline.Entry :=
  GoodreadsInline.mkEntry (Some (GoodreadsInline.mkBooks (Some dune))) t0.

Definition trackEntry : Spotify.Entry :=
  Spotify.mkEntry (Some trackA) t0 t0.

(** The entry as the playback worker stores it: it expires 300 s later. *)
Definition trackStore : Store Spotify.Entry :=
  Some (mkStored trackEntry (Some (t0 + 300000))).

(** A tick whose store read, upstream call and store write would each
    throw. *)
Definition stormy : Platform :=
  mkPlatform t0 t0 (Some "KV GET failed") (Some "KV put() limit exceeded").

(** The track changes to [trackC] 100 s after [trackA] was cached. *)
Definition trackC : Spotify.Track :=
  Spotify.mkTrack true "Other" "Band" "LP" "https://img/3.jpg" "https://s/T2"
    (Some "T2") "track".

Definition changeEnv : Spotify.Env :=
  Spotify.mkEnv (calm (t0 + 100000) (t0 + 100002))
    (Ok tt) (Ok (Some trackC)) (Ok None).

Definition changedEntry : Spotify.Entry :=
  Spotify.mkEntry (Some trackC) (t0 + 100002) (t0 + 100002).

Definition changedStore : Store Spotify.Entry :=
  Some (mkStored changedEntry (Some (t0 + 100002 + 300000))).

(** A tick 119.999 s after that write, with Spotify reporting yet another
    state. *)
Definition soonTick : Spotify.Env :=
  Spotify.mkEnv (calm (t0 + 220001) (t0 + 220001))
    (Ok tt) (Ok (Some trackA)) (Ok None).

(** Nothing playing and no recent track, one minute after [trackA] was
    cached. *)
Definition silentEnv : Spotify.Env :=
  Spotify.mkEnv (calm (t0 + 60000) (t0 + 60001)) (Ok tt) (Ok None) (Ok None).

(** An empty shelf, one hour after Dune was cached. *)
Definition emptyShelfEnv : GoodreadsInline.Env :=
  GoodreadsInline.mkEnv (calm (t0 + 3600000) (t0 + 3600001))
    (Ok (GoodreadsInline.mkBooks None)).

Definition duneBooks : Goodreads.Books := Goodreads.mkBooks (Some dune) None.

(** The [k]-th of a series of hourly requests, the feed always listing
    Dune. *)
Definition hourly (k : Z) : Goodreads.Poll :=
  Goodreads.OnDemand GET
    (Goodreads.mkEnv (calm (t0 + k * 3600000) (t0 + k * 3600000))
       (Ok duneBooks)).

(** A reading-list tick at [t0 + ms], the feed listing Dune. *)
Definition duneTick (ms : Z) : Goodreads.Env :=
  Goodreads.mkEnv (calm (t0 + ms) (t0 + ms)) (Ok duneBooks).

(** A playback poll environment at [t0 + ms], [trackA] still playing. *)
Definition sameTrackEnv (ms : Z) : Spotify.Env :=
  Spotify.mkEnv (calm (t0 + ms) (t0 + ms)) (Ok tt) (Ok (Some trackA))
    (Ok None).

(** A reading-list tick at [t0 + ms], the shelf being empty. *)
Definition emptyShelfTick (ms : Z) : Goodreads.Env :=
  Goodreads.mkEnv (calm (t0 + ms) (t0 + ms)) (Ok (Goodreads.mkBooks None None)).

(** One invocation within its budget of operations: at most one cache
    read, at most [maxFetch] upstream calls, at most one put, and a store
    that changes only through a successful put. *)
Definition within_budget {Entry A : Type} (maxFetch : nat) (s : Store Entry)
           (x : outcome A * Store Entry * list (Event Entry)) : Prop :=
  match x with
  | (_, s', t) =>
      (reads t <= 1)%nat
      /\ (fetches t <= maxFetch)%nat
      /\ (puts t <= 1)%nat
      /\ (writes t = 0%nat -> s' = s)
  end.

(** A run of [n] invocations within its budget: at most [n] cache reads,
    [n * maxFetch] upstream calls and [n] puts, and a store that changes
    only if some put succeeded. *)
Definition run_within {Entry : Type} (n maxFetch : nat) (s : Store Entry)
           (x : Store Entry * list (Event Entry)) : Prop :=
  match x with
  | (s', t) =>
      (reads t <= n)%nat
      /\ (fetches t <= n * maxFetch)%nat
      /\ (puts t <= n)%nat
      /\ (writes t = 0%nat -> s' = s)
  end.

(** A playback store whose entry, if any, has [lastRun] equal to
    [timestamp]. *)
Definition stamped (s : Store Spotify.Entry) : Prop :=
  forall st, s = Some st ->
             Spotify.lastRun (value st) = Spotify.timestamp (value st).

(** A reading-list store whose entry, if any, never expires and holds
    data. *)
Definition holdsData (s : Store Goodreads.Entry) : Prop :=
  forall st, s = Some st ->
             expires st = None /\ exists b, Goodreads.data (value st) = Some b.

(** The music is paused: nothing is playing and the most recent track is
    [trackA], not playing. *)
Definition trackAPaused : Spotify.Track :=
  Spotify.mkTrack false "Song" "Band" "LP" "https://img/1.jpg" "https://s/T1"
    (Some "T1") "track".

Definition pausedEnv : Spotify.Env :=
  Spotify.mkEnv (calm (t0 + 120000) (t0 + 120001))
    (Ok tt) (Ok None) (Ok (Some trackAPaused)).

Definition hyperion : Goodreads.Book :=
  Goodreads.mkBook "Hyperion" "Simmons" "https://img/hyperion.jpg"
    "https://gr/hyperion".

(** A request of a run in which the entry [c] is read stale and the feed
    returns [books]. *)
Definition staleRequest (c : GoodreadsInline.Entry)
           (books : GoodreadsInline.Books)
           (re : Request * GoodreadsInline.Env) : Prop :=
  method (fst re) <> "OPTIONS"
  /\ get_error (GoodreadsInline.platform (snd re)) = None
  /\ GoodreadsInline.rss (snd re) = Ok books
  /\ GoodreadsInline.cacheValid
       (clock_read (GoodreadsInline.platform (snd re))) (Some c) = false.

(** *** Vocabulary for statements about the feed *)

(** [p] does not occur in [s]. *)
Definition absent (p s : string) : Prop := String.index 0 p s = None.

(** The first occurrence of [p] in [pre ++ p] is the one at its end:
    [pre] ends before the first [p]. *)
Definition firstAt (p pre : string) : Prop :=
  String.index 0 p (pre ++ p)%string = Some (String.length pre).

(** An item element with the given content. *)
Definition itemOf (content : string) : string :=
  ("<item>" ++ content ++ "</item>")%string.

(** A field in CDATA form and in plain form. *)
Definition cdataOpen (field : string) : string :=
  ("<" ++ field ++ "><![CDATA[")%string.
Definition cdataClose (field : string) : string :=
  ("]]></" ++ field ++ ">")%string.
Definition plainOpen (field : string) : string :=
  ("<" ++ field ++ ">")%string.
Definition plainClose (field : string) : string :=
  ("</" ++ field ++ ">")%string.

(** A feed of one book, as Goodreads serves it, and an error page. *)
Definition duneContent : string :=
  ("<title><![CDATA[ Dune ]]></title>" ++
   "<author_name>Herbert</author_name>" ++
   "<book_large_image_url><![CDATA[https://img/dune-1.jpg]]></book_large_image_url>" ++
   "<link><![CDATA[https://gr/dune]]></link>")%string.

Definition duneFeed : string :=
  ("<rss><channel><title>shelf</title>" ++ itemOf duneContent ++
   "</channel></rss>")%string.

Definition errorPage : string := "<html><body>503</body></html>".

(** *** Vocabulary for statements about the Spotify calls *)

(** The currently-playing endpoint reports nothing: status 204, or 200
    with a blank body or a document without an item. *)
Definition nothingPlaying
           (r : Http.Response (SpotifyApi.Text SpotifyApi.Playing)) : Prop :=
  Http.status r = 204
  \/ (Http.status r = 200
      /\ (Http.body r = Ok SpotifyApi.Blank
          \/ exists data, Http.body r = Ok (SpotifyApi.Json data)
                          /\ SpotifyApi.item data = None)).

(** The token endpoint grants a token. *)
Definition granted (token : Http.Response unit) : Prop :=
  Http.ok token = true /\ Http.body token = Ok tt.

(** [trackA] as the API describes it. *)
Definition songItem : SpotifyApi.Item :=
  SpotifyApi.mkItem "Song" (Some "T1") (Some "track") None None
    (Some [SpotifyApi.mkArtist "Band"])
    (Some (SpotifyApi.mkAlbum (Some "LP")
             (Some [SpotifyApi.mkImage (Some "https://img/1.jpg")])))
    (Some (SpotifyApi.mkExternalUrls (Some "https://s/T1"))).

Definition tokenGranted : outcome (Http.Response unit) :=
  Ok (Http.mkResponse 200 (Ok tt)).

Definition playingSong (playing : bool)
  : Http.Response (SpotifyApi.Text SpotifyApi.Playing) :=
  Http.mkResponse 200
    (Ok (SpotifyApi.Json
           (SpotifyApi.mkPlaying playing (Some "track") (Some songItem)))).

Definition playerIdle : Http.Response (SpotifyApi.Text SpotifyApi.Playing) :=
  Http.mkResponse 204 (Ok SpotifyApi.Blank).

Definition historySong : Http.Response SpotifyApi.Recently :=
  Http.mkResponse 200
    (Ok (SpotifyApi.mkRecently [SpotifyApi.mkHistory (Some songItem) None])).

Definition rateLimited {B : Type} : Http.Response B :=
  Http.mkResponse 429 (Throw "Unexpected token").

(** The store after a request cached the paused song. *)
Definition pausedStore : Store Spotify.Entry :=
  Some (mkStored (Spotify.mkEntry (Some trackAPaused) t0 t0)
          (Some (t0 + 300000))).

Unset Implicit Arguments.

(** * Properties *)

(** ** The equality predicates *)

Section Equality.

Import Goodreads.

Lemma hasBookChanged_current (nc ec : Book) (np ep : option Book) :
  hasBookChanged (Some (mkBooks (Some nc) np)) (Some (mkBooks (Some ec) ep))
  = negb ((title nc =? title ec)%string && (author nc =? author ec)%string).
Proof.
  unfold hasBookChanged; simpl.
  now rewrite negb_andb.
Qed.

Lemma hasBookChanged_false_iff (nc ec : Book) (np ep : option Book) :
  hasBookChanged (Some (mkBooks (Some nc) np)) (Some (mkBooks (Some ec) ep))
  = false
  <-> title nc = title ec /\ author nc = author ec.
Proof.
  rewrite hasBookChanged_current, negb_false_iff, andb_true_iff.
  now rewrite !String.eqb_eq.
Qed.

Lemma strict_neq_false_iff (a b : option string) :
  JS.strict_neq a b = false <-> a = b.
Proof.
  destruct a as [x|], b as [y|]; simpl; try (split; congruence).
  rewrite negb_false_iff, String.eqb_eq.
  split; congruence.
Qed.

Lemma inline_bookChanged_false_iff (nc ec : Book) :
  GoodreadsInline.bookChanged
    (GoodreadsInline.mkBooks (Some nc))
    (Some (GoodreadsInline.mkBooks (Some ec))) = false
  <-> title nc = title ec /\ author nc = author ec.
Proof.
  unfold GoodreadsInline.bookChanged; simpl.
  rewrite orb_false_iff, !negb_false_iff, !String.eqb_eq.
  tauto.
Qed.

End Equality.

Section TrackEquality.

Import Spotify.

Lemma opt_string_eqb_eq (a b : option string) :
  opt_string_eqb a b = true <-> a = b.
Proof.
  unfold opt_string_eqb.
  rewrite negb_true_iff.
  apply strict_neq_false_iff.
Qed.

Lemma json_eqb_eq (t1 t2 : Track) : json_eqb t1 t2 = true <-> t1 = t2.
Proof.
  unfold json_eqb.
  rewrite !andb_true_iff, !String.eqb_eq, opt_string_eqb_eq, Bool.eqb_true_iff.
  split.
  - intros [[[[[[[H1 H2] H3] H4] H5] H6] H7] H8].
    destruct t1, t2; simpl in *; congruence.
  - intros ->; repeat split.
Qed.

Lemma json_eqb_refl (t : Track) : json_eqb t t = true.
Proof. now apply json_eqb_eq. Qed.

Lemma tracksEqual_ids (t1 t2 : Track) :
  JS.truthy_str (trackId t1) = true ->
  JS.truthy_str (trackId t2) = true ->
  (tracksEqual (Some t1) (Some t2) = true
   <-> trackId t1 = trackId t2 /\ isPlaying t1 = isPlaying t2).
Proof.
  intros H1 H2; simpl.
  rewrite H1, H2; simpl.
  now rewrite andb_true_iff, opt_string_eqb_eq, Bool.eqb_true_iff.
Qed.

Lemma tracksEqual_fallback (t1 t2 : Track) :
  JS.truthy_str (trackId t1) && JS.truthy_str (trackId t2) = false ->
  (tracksEqual (Some t1) (Some t2) = true <-> t1 = t2).
Proof.
  intros H; simpl.
  rewrite H.
  apply json_eqb_eq.
Qed.

Lemma tracksEqual_refl (t : option Track) : tracksEqual t t = true.
Proof.
  destruct t as [t|]; simpl; [|reflexivity].
  destruct (JS.truthy_str (trackId t)); simpl.
  - rewrite Bool.eqb_reflx, andb_true_r.
    now apply opt_string_eqb_eq.
  - apply json_eqb_refl.
Qed.

End TrackEquality.

(** ** Running a handler *)

Arguments Spotify.tracksEqual : simpl never.
Arguments Goodreads.hasBookChanged : simpl never.
Arguments GoodreadsInline.bookChanged : simpl never.

Lemma not_options {request : Request} :
  method request <> "OPTIONS" -> (method request =? "OPTIONS")%string = false.
Proof. apply String.eqb_neq. Qed.

Lemma truthy_num_true {n : Z} : n <> 0 -> JS.truthy_num n = true.
Proof.
  intros H; unfold JS.truthy_num.
  apply negb_true_iff, Z.eqb_neq, H.
Qed.

Lemma ltb_true {a b : Z} : a < b -> (a <? b) = true.
Proof. apply Z.ltb_lt. Qed.

(** Unfold the monad of an applied handler. *)
Ltac step_monad :=
  unfold try_catch, bind, kv_get, kv_put, upstream, ret, throw, expiry; simpl.

(** ** The freshness window of the on-demand path *)

(** An entry whose timestamp is 0 or missing is never fresh, and one
    whose lastRun is 0 or missing never throttles. *)
Lemma untimed_entry_not_valid (now : Z) (d : option Goodreads.Books)
      (tr : option Spotify.Track) (ts : Z) :
  Goodreads.cacheValid now (Some (Goodreads.mkEntry d 0)) = false
  /\ Spotify.cacheValid now (Some (Spotify.mkEntry tr 0 ts)) = false
  /\ Spotify.tooSoon now (Some (Spotify.mkEntry tr ts 0)) = false.
Proof. repeat split. Qed.

Section Fresh.

Variable request : Request.
Hypothesis Hquery : method request <> "OPTIONS".

Lemma goodreads_fetch_fresh (env : Goodreads.Env)
      (s : Store Goodreads.Entry) (c : Goodreads.Entry) :
  get_error (Goodreads.platform env) = None ->
  live (clock_read (Goodreads.platform env)) s = Some c ->
  Goodreads.timestamp c <> 0 ->
  clock_read (Goodreads.platform env) - Goodreads.timestamp c < 3600000 ->
  Goodreads.fetch request env s
  = (Ok (Goodreads.json (Goodreads.data c)), s, [EvGet]).
Proof.
  intros Hget Hlive Hts Hage.
  unfold Goodreads.fetch.
  rewrite (not_options Hquery).
  step_monad.
  rewrite Hget, Hlive; simpl.
  unfold Goodreads.CACHE_TTL_MS.
  now rewrite (truthy_num_true Hts), (ltb_true Hage).
Qed.

Lemma inline_fetch_fresh (env : GoodreadsInline.Env)
      (s : Store GoodreadsInline.Entry) (c : GoodreadsInline.Entry) :
  get_error (GoodreadsInline.platform env) = None ->
  live (clock_read (GoodreadsInline.platform env)) s = Some c ->
  GoodreadsInline.timestamp c <> 0 ->
  clock_read (GoodreadsInline.platform env) - GoodreadsInline.timestamp c
  < 3600000 ->
  GoodreadsInline.fetch request env s
  = (Ok (GoodreadsInline.json (GoodreadsInline.data c)), s, [EvGet]).
Proof.
  intros Hget Hlive Hts Hage.
  unfold GoodreadsInline.fetch.
  rewrite (not_options Hquery).
  step_monad.
  rewrite Hget, Hlive; simpl.
  now rewrite (truthy_num_true Hts), (ltb_true Hage).
Qed.

Lemma spotify_fetch_fresh (env : Spotify.Env)
      (s : Store Spotify.Entry) (c : Spotify.Entry) :
  get_error (Spotify.platform env) = None ->
  live (clock_read (Spotify.platform env)) s = Some c ->
  Spotify.timestamp c <> 0 ->
  clock_read (Spotify.platform env) - Spotify.timestamp c < 30000 ->
  Spotify.fetch request env s
  = (Ok (Spotify.json (Spotify.data c)), s, [EvGet]).
Proof.
  intros Hget Hlive Hts Hage.
  unfold Spotify.fetch.
  rewrite (not_options Hquery).
  step_monad.
  rewrite Hget, Hlive; simpl.
  unfold Spotify.FETCH_CACHE_TTL.
  now rewrite (truthy_num_true Hts), (ltb_true Hage).
Qed.

End Fresh.

(** ** Decision tables of the handlers

    Each lemma evaluates a handler once the cache read has succeeded and
    the freshness (or interval) test has been decided, and lists the
    result, the store and the operations for every upstream outcome. *)

Section GoodreadsFacts.

Import Goodreads.

Lemma goodreads_fetch_preflight (request : Request) (env : Env) (s : Store Entry) :
  method request = "OPTIONS" ->
  fetch request env s = (Ok (mkResponse 200 BodyNone), s, []).
Proof.
  intros H; unfold fetch.
  now rewrite H.
Qed.

Lemma goodreads_fetch_get_error (request : Request) (env : Env) (s : Store Entry)
      (m : string) :
  method request <> "OPTIONS" ->
  get_error (platform env) = Some m ->
  fetch request env s = (Ok (failed m), s, [EvGet]).
Proof.
  intros Hq Hget; unfold fetch.
  rewrite (not_options Hq).
  step_monad.
  now rewrite Hget.
Qed.

Lemma goodreads_fetch_valid (request : Request) (env : Env) (s : Store Entry) :
  method request <> "OPTIONS" ->
  get_error (platform env) = None ->
  cacheValid (clock_read (platform env))
    (live (clock_read (platform env)) s) = true ->
  fetch request env s
  = (Ok (json (JS.chain_opt (live (clock_read (platform env)) s) data)),
     s, [EvGet]).
Proof.
  intros Hq Hget Hvalid; unfold fetch.
  rewrite (not_options Hq).
  step_monad.
  rewrite Hget; simpl.
  now rewrite Hvalid.
Qed.

Lemma goodreads_fetch_stale (request : Request) (env : Env) (s : Store Entry) :
  method request <> "OPTIONS" ->
  get_error (platform env) = None ->
  cacheValid (clock_read (platform env))
    (live (clock_read (platform env)) s) = false ->
  let cached := live (clock_read (platform env)) s in
  fetch request env s
  = match rss env with
    | Throw m =>
        match JS.chain_opt cached data with
        | Some d => (Ok (json (Some d)), s, [EvGet; EvFetch GoodreadsRSS])
        | None => (Ok (failed m), s, [EvGet; EvFetch GoodreadsRSS])
        end
    | Ok books =>
        afterPut (platform env) s [EvGet; EvFetch GoodreadsRSS]
          (entryOnDemand env cached books) None
          (json (Some books)) failed
    end.
Proof.
  intros Hq Hget Hstale cached.
  unfold fetch.
  rewrite (not_options Hq).
  step_monad.
  rewrite Hget; simpl.
  fold cached; fold cached in Hstale.
  rewrite Hstale.
  unfold afterPut, entryOnDemand.
  destruct (rss env) as [books|m]; simpl.
  - destruct (hasBookChanged (Some books) (JS.chain_opt cached data));
      [|destruct (JS.is_some cached)]; simpl;
      destruct (put_error (platform env)); reflexivity.
  - destruct (JS.chain_opt cached data); reflexivity.
Qed.

Lemma goodreads_scheduled_get_error (env : Env) (s : Store Entry) (m : string) :
  get_error (platform env) = Some m ->
  scheduled env s = (Ok tt, s, [EvGet]).
Proof.
  intros Hget; unfold scheduled.
  step_monad.
  now rewrite Hget.
Qed.

Lemma goodreads_scheduled_run (env : Env) (s : Store Entry) :
  get_error (platform env) = None ->
  let existingBooks :=
    JS.chain_opt (live (clock_read (platform env)) s) data in
  scheduled env s
  = match rss env with
    | Throw _ => (Ok tt, s, [EvGet; EvFetch GoodreadsRSS])
    | Ok books =>
        if negb (hasBookChanged (Some books) existingBooks)
           && JS.is_some existingBooks
        then (Ok tt, s, [EvGet; EvFetch GoodreadsRSS])
        else
          afterPut (platform env) s [EvGet; EvFetch GoodreadsRSS]
            (mkEntry (Some books) (clock_write (platform env))) None
            tt (fun _ => tt)
    end.
Proof.
  intros Hget existingBooks.
  unfold scheduled.
  step_monad.
  rewrite Hget; simpl.
  fold existingBooks.
  unfold afterPut.
  destruct (rss env) as [books|m]; simpl; [|reflexivity].
  destruct (negb (hasBookChanged (Some books) existingBooks)
            && JS.is_some existingBooks); simpl; [reflexivity|].
  destruct (put_error (platform env)); reflexivity.
Qed.

End GoodreadsFacts.

Section InlineFacts.

Import GoodreadsInline.

Lemma inline_fetch_preflight (request : Request) (env : Env) (s : Store Entry) :
  method request = "OPTIONS" ->
  fetch request env s = (Ok (mkResponse 200 BodyNone), s, []).
Proof.
  intros H; unfold fetch.
  now rewrite H.
Qed.

Lemma inline_fetch_get_error (request : Request) (env : Env) (s : Store Entry)
      (m : string) :
  method request <> "OPTIONS" ->
  get_error (platform env) = Some m ->
  fetch request env s = (Ok (failed m), s, [EvGet]).
Proof.
  intros Hq Hget; unfold fetch.
  rewrite (not_options Hq).
  step_monad.
  now rewrite Hget.
Qed.

Lemma inline_fetch_valid (request : Request) (env : Env) (s : Store Entry) :
  method request <> "OPTIONS" ->
  get_error (platform env) = None ->
  cacheValid (clock_read (platform env))
    (live (clock_read (platform env)) s) = true ->
  fetch request env s
  = (Ok (json (JS.chain_opt (live (clock_read (platform env)) s) data)),
     s, [EvGet]).
Proof.
  intros Hq Hget Hvalid; unfold fetch.
  rewrite (not_options Hq).
  step_monad.
  rewrite Hget; simpl.
  now rewrite Hvalid.
Qed.

Lemma inline_fetch_stale (request : Request) (env : Env) (s : Store Entry) :
  method request <> "OPTIONS" ->
  get_error (platform env) = None ->
  cacheValid (clock_read (platform env))
    (live (clock_read (platform env)) s) = false ->
  let existingBooks :=
    JS.chain_opt (live (clock_read (platform env)) s) data in
  fetch request env s
  = match rss env with
    | Throw m => (Ok (failed m), s, [EvGet; EvFetch GoodreadsRSS])
    | Ok books =>
        if bookChanged books existingBooks
           || negb (JS.is_some existingBooks)
        then
          afterPut (platform env) s [EvGet; EvFetch GoodreadsRSS]
            (mkEntry (Some books) (clock_write (platform env))) None
            (json (Some books)) failed
        else (Ok (json (Some books)), s, [EvGet; EvFetch GoodreadsRSS])
    end.
Proof.
  intros Hq Hget Hstale existingBooks.
  unfold fetch.
  rewrite (not_options Hq).
  step_monad.
  rewrite Hget; simpl.
  rewrite Hstale.
  fold existingBooks.
  unfold afterPut.
  destruct (rss env) as [books|m]; simpl; [|reflexivity].
  destruct (bookChanged books existingBooks
            || negb (JS.is_some existingBooks)); simpl; [|reflexivity].
  destruct (put_error (platform env)); reflexivity.
Qed.

Lemma inline_scheduled_get_error (env : Env) (s : Store Entry) (m : string) :
  get_error (platform env) = Some m ->
  scheduled env s = (Ok tt, s, [EvGet]).
Proof.
  intros Hget; unfold scheduled.
  step_monad.
  now rewrite Hget.
Qed.

Lemma inline_scheduled_run (env : Env) (s : Store Entry) :
  get_error (platform env) = None ->
  let existingBooks :=
    JS.chain_opt (live (clock_read (platform env)) s) data in
  scheduled env s
  = match rss env with
    | Throw _ => (Ok tt, s, [EvGet; EvFetch GoodreadsRSS])
    | Ok books =>
        if negb (bookChanged books existingBooks)
           && JS.is_some existingBooks
        then (Ok tt, s, [EvGet; EvFetch GoodreadsRSS])
        else
          afterPut (platform env) s [EvGet; EvFetch GoodreadsRSS]
            (mkEntry (Some books) (clock_write (platform env))) None
            tt (fun _ => tt)
    end.
Proof.
  intros Hget existingBooks.
  unfold scheduled.
  step_monad.
  rewrite Hget; simpl.
  fold existingBooks.
  unfold afterPut.
  destruct (rss env) as [books|m]; simpl; [|reflexivity].
  destruct (negb (bookChanged books existingBooks)
            && JS.is_some existingBooks); simpl; [reflexivity|].
  destruct (put_error (platform env)); reflexivity.
Qed.

End InlineFacts.

Section SpotifyFacts.

Import Spotify.

Lemma spotify_fetch_preflight (request : Request) (env : Env) (s : Store Entry) :
  method request = "OPTIONS" ->
  fetch request env s = (Ok (mkResponse 200 BodyNone), s, []).
Proof.
  intros H; unfold fetch.
  now rewrite H.
Qed.

Lemma spotify_fetch_get_error (request : Request) (env : Env) (s : Store Entry)
      (m : string) :
  method request <> "OPTIONS" ->
  get_error (platform env) = Some m ->
  fetch request env s = (Ok (failed m), s, [EvGet]).
Proof.
  intros Hq Hget; unfold fetch.
  rewrite (not_options Hq).
  step_monad.
  now rewrite Hget.
Qed.

Lemma spotify_fetch_valid (request : Request) (env : Env) (s : Store Entry) :
  method request <> "OPTIONS" ->
  get_error (platform env) = None ->
  cacheValid (clock_read (platform env))
    (live (clock_read (platform env)) s) = true ->
  fetch request env s
  = (Ok (json (JS.chain_opt (live (clock_read (platform env)) s) data)),
     s, [EvGet]).
Proof.
  intros Hq Hget Hvalid; unfold fetch.
  rewrite (not_options Hq).
  step_monad.
  rewrite Hget; simpl.
  now rewrite Hvalid.
Qed.

Lemma spotify_fetch_stale (request : Request) (env : Env) (s : Store Entry) :
  method request <> "OPTIONS" ->
  get_error (platform env) = None ->
  cacheValid (clock_read (platform env))
    (live (clock_read (platform env)) s) = false ->
  let existingTrack :=
    JS.chain_opt (live (clock_read (platform env)) s) data in
  fetch request env s
  = match fetchLatest env with
    | Throw m => (Ok (failed m), s, EvGet :: calls env)
    | Ok track =>
        if tracksEqual track existingTrack
        then (Ok (json track), s, EvGet :: calls env)
        else
          afterPut (platform env) s (EvGet :: calls env)
            (mkEntry track (clock_write (platform env))
               (clock_write (platform env)))
            (Some KV_TTL) (json track) failed
    end.
Proof.
  intros Hq Hget Hstale existingTrack.
  unfold fetch.
  rewrite (not_options Hq).
  step_monad.
  rewrite Hget; simpl.
  rewrite Hstale.
  fold existingTrack.
  unfold afterPut, fetchLatest, calls, expiry.
  destruct (getAccessToken env) as [[]|m]; simpl; [|reflexivity].
  destruct (getNowPlaying env) as [[t|]|m]; simpl; [| |reflexivity].
  - destruct (tracksEqual (Some t) existingTrack); simpl; [reflexivity|].
    destruct (put_error (platform env)); reflexivity.
  - destruct (getRecentlyPlayed env) as [track|m]; simpl; [|reflexivity].
    destruct (tracksEqual track existingTrack); simpl; [reflexivity|].
    destruct (put_error (platform env)); reflexivity.
Qed.

Lemma spotify_scheduled_get_error (env : Env) (s : Store Entry) (m : string) :
  get_error (platform env) = Some m ->
  scheduled env s = (Ok tt, s, [EvGet]).
Proof.
  intros Hget; unfold scheduled.
  step_monad.
  now rewrite Hget.
Qed.

Lemma spotify_scheduled_skip (env : Env) (s : Store Entry) :
  get_error (platform env) = None ->
  tooSoon (clock_read (platform env))
    (live (clock_read (platform env)) s) = true ->
  scheduled env s = (Ok tt, s, [EvGet]).
Proof.
  intros Hget Hsoon; unfold scheduled.
  step_monad.
  rewrite Hget; simpl.
  now rewrite Hsoon.
Qed.

Lemma spotify_scheduled_run (env : Env) (s : Store Entry) :
  get_error (platform env) = None ->
  tooSoon (clock_read (platform env))
    (live (clock_read (platform env)) s) = false ->
  let existingTrack :=
    JS.chain_opt (live (clock_read (platform env)) s) data in
  scheduled env s
  = match fetchLatest env with
    | Throw _ => (Ok tt, s, EvGet :: calls env)
    | Ok None => (Ok tt, s, EvGet :: calls env)
    | Ok (Some newTrack) =>
        if tracksEqual (Some newTrack) existingTrack
        then (Ok tt, s, EvGet :: calls env)
        else
          afterPut (platform env) s (EvGet :: calls env)
            (mkEntry (Some newTrack) (clock_read (platform env))
               (clock_read (platform env)))
            (Some KV_TTL) tt (fun _ => tt)
    end.
Proof.
  intros Hget Hsoon existingTrack.
  unfold scheduled.
  step_monad.
  rewrite Hget; simpl.
  rewrite Hsoon.
  fold existingTrack.
  unfold afterPut, fetchLatest, calls, expiry.
  destruct (getAccessToken env) as [[]|m]; simpl; [|reflexivity].
  destruct (getNowPlaying env) as [[t|]|m]; simpl; [| |reflexivity].
  - destruct (tracksEqual (Some t) existingTrack); simpl; [reflexivity|].
    destruct (put_error (platform env)); reflexivity.
  - destruct (getRecentlyPlayed env) as [[t|]|m]; simpl;
      [| destruct (JS.is_some existingTrack); reflexivity | reflexivity].
    destruct (tracksEqual (Some t) existingTrack); simpl; [reflexivity|].
    destruct (put_error (platform env)); reflexivity.
Qed.

End SpotifyFacts.

(** ** C7: the freshness window *)

(** C7: an on-demand request (any request but the CORS preflight) that
    reads a cache entry carrying a timestamp with
    now - timestamp < freshness window (1 hour for the reading-list
    workers, 30 seconds for the playback worker) is answered with the
    cached record; the cache read is the only operation performed: no
    upstream fetch, no store write, and the store is unchanged. *)
Theorem C7_fresh_entry_served_without_fetch
        (request : Request) (Hquery : method request <> "OPTIONS") :
  (forall (env : Goodreads.Env) (s : Store Goodreads.Entry)
          (c : Goodreads.Entry),
      get_error (Goodreads.platform env) = None ->
      live (clock_read (Goodreads.platform env)) s = Some c ->
      Goodreads.timestamp c <> 0 ->
      clock_read (Goodreads.platform env) - Goodreads.timestamp c < 3600000 ->
      Goodreads.fetch request env s
      = (Ok (Goodreads.mkResponse 200 (Goodreads.BodyJson (Goodreads.data c))),
         s, [EvGet]))
  /\ (forall (env : GoodreadsInline.Env) (s : Store GoodreadsInline.Entry)
             (c : GoodreadsInline.Entry),
         get_error (GoodreadsInline.platform env) = None ->
         live (clock_read (GoodreadsInline.platform env)) s = Some c ->
         GoodreadsInline.timestamp c <> 0 ->
         clock_read (GoodreadsInline.platform env)
         - GoodreadsInline.timestamp c < 3600000 ->
         GoodreadsInline.fetch request env s
         = (Ok (GoodreadsInline.mkResponse 200
                  (GoodreadsInline.BodyJson (GoodreadsInline.data c))),
            s, [EvGet]))
  /\ (forall (env : Spotify.Env) (s : Store Spotify.Entry)
             (c : Spotify.Entry),
         get_error (Spotify.platform env) = None ->
         live (clock_read (Spotify.platform env)) s = Some c ->
         Spotify.timestamp c <> 0 ->
         clock_read (Spotify.platform env) - Spotify.timestamp c < 30000 ->
         Spotify.fetch request env s
         = (Ok (Spotify.mkResponse 200 (Spotify.BodyJson (Spotify.data c))),
            s, [EvGet])).
Proof.
  split; [|split]; intros env s c Hget Hlive Hts Hage.
  - now apply goodreads_fetch_fresh.
  - now apply inline_fetch_fresh.
  - now apply spotify_fetch_fresh.
Qed.

Lemma C7_fresh_entry_witness :
  Goodreads.fetch GET
    (Goodreads.mkEnv (calm (t0 + 3599999) (t0 + 3599999))
       (Throw "Goodreads RSS returned 503"))
    (Some (mkStored duneEntry None))
  = (Ok (Goodreads.mkResponse 200
           (Goodreads.BodyJson (Goodreads.data duneEntry))),
     Some (mkStored duneEntry None), [EvGet])
  /\ GoodreadsInline.fetch GET
       (GoodreadsInline.mkEnv (calm (t0 + 1800000) (t0 + 1800000))
          (Throw "fetch failed"))
       (Some (mkStored duneInlineEntry None))
     = (Ok (GoodreadsInline.mkResponse 200
              (GoodreadsInline.BodyJson
                 (GoodreadsInline.data duneInlineEntry))),
        Some (mkStored duneInlineEntry None), [EvGet])
  /\ Spotify.fetch GET
       (Spotify.mkEnv (calm (t0 + 29999) (t0 + 29999))
          (Throw "Failed to get access token: 401")
          (Ok None) (Ok None))
       trackStore
     = (Ok (Spotify.mkResponse 200
              (Spotify.BodyJson (Spotify.data trackEntry))),
        trackStore, [EvGet]).
Proof.
  assert (Hq : method GET <> "OPTIONS") by discriminate.
  destruct (@C7_fresh_entry_served_without_fetch GET Hq) as [Hg [Hi Hs]].
  split; [|split].
  - apply Hg; [reflexivity | reflexivity | discriminate | reflexivity].
  - apply Hi; [reflexivity | reflexivity | discriminate | reflexivity].
  - apply Hs; [reflexivity | reflexivity | discriminate | reflexivity].
Defined.

Arguments Spotify.calls : simpl never.

(** ** C4: upstream failure on the on-demand path *)

Lemma calls_no_put (env : Spotify.Env) :
  puts (EvGet :: Spotify.calls env) = 0%nat.
Proof.
  unfold Spotify.calls.
  destruct (Spotify.getAccessToken env); [|reflexivity].
  destruct (Spotify.getNowPlaying env) as [[t|]|m]; reflexivity.
Qed.

(** What each on-demand handler does when the call it awaits throws and
    the cache read found no fresh entry: goodreads-worker.js answers with
    the data of the entry it read, if any, and with the 500 error object
    otherwise; the inline reading-list worker and the playback worker
    answer the 500 error object whether or not an entry was read. *)
Lemma fetch_failure_on_demand
        (request : Request) (Hquery : method request <> "OPTIONS") :
  (forall (env : Goodreads.Env) (s : Store Goodreads.Entry)
          (c : Goodreads.Entry) (d : Goodreads.Books) (m : string),
      get_error (Goodreads.platform env) = None ->
      live (clock_read (Goodreads.platform env)) s = Some c ->
      Goodreads.cacheValid (clock_read (Goodreads.platform env)) (Some c)
      = false ->
      Goodreads.data c = Some d ->
      Goodreads.rss env = Throw m ->
      Goodreads.fetch request env s
      = (Ok (Goodreads.mkResponse 200 (Goodreads.BodyJson (Some d))),
         s, [EvGet; EvFetch GoodreadsRSS]))
  /\ (forall (env : Goodreads.Env) (s : Store Goodreads.Entry) (m : string),
         get_error (Goodreads.platform env) = None ->
         Goodreads.cacheValid (clock_read (Goodreads.platform env))
           (live (clock_read (Goodreads.platform env)) s) = false ->
         JS.chain_opt (live (clock_read (Goodreads.platform env)) s)
           Goodreads.data = None ->
         Goodreads.rss env = Throw m ->
         Goodreads.fetch request env s
         = (Ok (Goodreads.mkResponse 500
                  (Goodreads.BodyError "Failed to fetch Goodreads data" m)),
            s, [EvGet; EvFetch GoodreadsRSS]))
  /\ (forall (env : GoodreadsInline.Env) (s : Store GoodreadsInline.Entry)
             (m : string),
         get_error (GoodreadsInline.platform env) = None ->
         GoodreadsInline.cacheValid
           (clock_read (GoodreadsInline.platform env))
           (live (clock_read (GoodreadsInline.platform env)) s) = false ->
         GoodreadsInline.rss env = Throw m ->
         GoodreadsInline.fetch request env s
         = (Ok (GoodreadsInline.mkResponse 500
                  (GoodreadsInline.BodyError
                     "Failed to fetch Goodreads data" m)),
            s, [EvGet; EvFetch GoodreadsRSS]))
  /\ (forall (env : Spotify.Env) (s : Store Spotify.Entry) (m : string),
         get_error (Spotify.platform env) = None ->
         Spotify.cacheValid (clock_read (Spotify.platform env))
           (live (clock_read (Spotify.platform env)) s) = false ->
         Spotify.fetchLatest env = Throw m ->
         Spotify.fetch request env s
         = (Ok (Spotify.mkResponse 500
                  (Spotify.BodyError "Failed to fetch Spotify data" m)),
            s, EvGet :: Spotify.calls env)
         /\ puts (EvGet :: Spotify.calls env) = 0%nat).
Proof.
  split; [|split; [|split]].
  - intros env s c d m Hget Hlive Hstale Hd Hrss.
    rewrite goodreads_fetch_stale by (rewrite ?Hlive; assumption).
    now rewrite Hrss, Hlive; simpl; rewrite Hd.
  - intros env s m Hget Hstale Hnone Hrss.
    rewrite goodreads_fetch_stale by assumption.
    now rewrite Hrss, Hnone.
  - intros env s m Hget Hstale Hrss.
    rewrite inline_fetch_stale by assumption.
    now rewrite Hrss.
  - intros env s m Hget Hstale Hfail.
    split; [|apply calls_no_put].
    rewrite spotify_fetch_stale by assumption.
    now rewrite Hfail.
Qed.

(** C4 (evaluation at the failing inputs).  The playback worker holds
    [trackA], cached one minute ago, and the inline reading-list worker
    holds Dune, cached two hours ago.
    - Playback, token endpoint answering 503, and currently-playing
      endpoint answering 500: the caller receives the 500 error object,
      not the cached track.
    - Playback, player idle and recently-played endpoint answering 429:
      the caller receives null with status 200 and the cached track is
      overwritten by null.
    - Inline reading-list worker, request to Goodreads rejected: the
      caller receives the 500 error object, not the cached book; Goodreads
      answering 503 with an error page: the caller receives a null book
      with status 200 and the cached book is overwritten.
    - goodreads-worker.js, on the same two failures with Dune cached:
      the caller receives Dune with status 200, nothing is put and the
      store is unchanged; with an empty store the caller receives the 500
      error object, as the claim says. *)
Theorem C4_upstream_failure_with_cached_entry :
  live (t0 + 60000) trackStore = Some trackEntry
  /\ Spotify.fetch GET
       (SpotifyApi.worker (calm (t0 + 60000) (t0 + 60001))
          (Ok (Http.mkResponse 503 (Ok tt))) (Ok (playingSong true))
          (Ok historySong))
       trackStore
     = (Ok (Spotify.mkResponse 500
              (Spotify.BodyError "Failed to fetch Spotify data"
                 "Failed to get access token: 503")),
        trackStore, [EvGet; EvFetch SpotifyToken])
  /\ Spotify.fetch GET
       (SpotifyApi.worker (calm (t0 + 60000) (t0 + 60001))
          tokenGranted (Ok (Http.mkResponse 500 (Ok SpotifyApi.Blank)))
          (Ok historySong))
       trackStore
     = (Ok (Spotify.mkResponse 500
              (Spotify.BodyError "Failed to fetch Spotify data"
                 "Spotify API error: 500")),
        trackStore,
        [EvGet; EvFetch SpotifyToken; EvFetch SpotifyNowPlaying])
  /\ Spotify.fetch GET
       (SpotifyApi.worker (calm (t0 + 60000) (t0 + 60001))
          tokenGranted (Ok playerIdle) (Ok rateLimited))
       trackStore
     = (Ok (Spotify.mkResponse 200 (Spotify.BodyJson None)),
        Some (mkStored (Spotify.mkEntry None (t0 + 60001) (t0 + 60001))
                (Some (t0 + 60001 + 300000))),
        [EvGet; EvFetch SpotifyToken; EvFetch SpotifyNowPlaying;
         EvFetch SpotifyRecentlyPlayed;
         EvPut (Spotify.mkEntry None (t0 + 60001) (t0 + 60001))
           (Some 300) true])
  /\ GoodreadsInline.fetch GET
       (Rss.inlineWorker (calm (t0 + 7200000) (t0 + 7200001))
          (Throw "Network connection lost"))
       (Some (mkStored duneInlineEntry None))
     = (Ok (GoodreadsInline.mkResponse 500
              (GoodreadsInline.BodyError "Failed to fetch Goodreads data"
                 "Network connection lost")),
        Some (mkStored duneInlineEntry None), [EvGet; EvFetch GoodreadsRSS])
  /\ GoodreadsInline.fetch GET
       (Rss.inlineWorker (calm (t0 + 7200000) (t0 + 7200001))
          (Ok (Http.mkResponse 503 (Ok errorPage))))
       (Some (mkStored duneInlineEntry None))
     = (Ok (GoodreadsInline.mkResponse 200
              (GoodreadsInline.BodyJson
                 (Some (GoodreadsInline.mkBooks None)))),
        Some (mkStored
                (GoodreadsInline.mkEntry
                   (Some (GoodreadsInline.mkBooks None)) (t0 + 7200001))
                None),
        [EvGet; EvFetch GoodreadsRSS;
         EvPut (GoodreadsInline.mkEntry
                  (Some (GoodreadsInline.mkBooks None)) (t0 + 7200001))
           None true])
  /\ Goodreads.fetch GET
       (Rss.worker (calm (t0 + 7200000) (t0 + 7200001))
          (Throw "Network connection lost"))
       (Some (mkStored duneEntry None))
     = (Ok (Goodreads.mkResponse 200
              (Goodreads.BodyJson
                 (Some (Goodreads.mkBooks (Some dune) None)))),
        Some (mkStored duneEntry None), [EvGet; EvFetch GoodreadsRSS])
  /\ Goodreads.fetch GET
       (Rss.worker (calm (t0 + 7200000) (t0 + 7200001))
          (Ok (Http.mkResponse 503 (Ok errorPage))))
       (Some (mkStored duneEntry None))
     = (Ok (Goodreads.mkResponse 200
              (Goodreads.BodyJson
                 (Some (Goodreads.mkBooks (Some dune) None)))),
        Some (mkStored duneEntry None), [EvGet; EvFetch GoodreadsRSS])
  /\ Goodreads.fetch GET
       (Rss.worker (calm (t0 + 7200000) (t0 + 7200001))
          (Ok (Http.mkResponse 503 (Ok errorPage))))
       None
     = (Ok (Goodreads.mkResponse 500
              (Goodreads.BodyError "Failed to fetch Goodreads data"
                 "Goodreads RSS returned 503")),
        None, [EvGet; EvFetch GoodreadsRSS]).
Proof.
  assert (Hq : method GET <> "OPTIONS") by discriminate.
  destruct (fetch_failure_on_demand GET Hq)
    as [Hstale [Hnone [Hinline Hspotify]]].
  split; [reflexivity|].
  split; [apply Hspotify; reflexivity|].
  split; [apply Hspotify; reflexivity|].
  split; [reflexivity|].
  split; [apply Hinline; reflexivity|].
  split; [reflexivity|].
  split;
    [apply (Hstale _ _ duneEntry _ "Network connection lost"); reflexivity|].
  split;
    [apply (Hstale _ _ duneEntry _ "Goodreads RSS returned 503");
     reflexivity|].
  apply Hnone; reflexivity.
Qed.

(** ** C6 and C9: cosmetic churn on the on-demand path *)

Lemma hasBookChanged_same (books eb : Goodreads.Books)
      (nc ec : Goodreads.Book) :
  Goodreads.current books = Some nc ->
  Goodreads.current eb = Some ec ->
  Goodreads.title nc = Goodreads.title ec ->
  Goodreads.author nc = Goodreads.author ec ->
  Goodreads.hasBookChanged (Some books) (Some eb) = false.
Proof.
  intros Hn He Ht Ha.
  destruct books as [nb np], eb as [eb' ep]; simpl in *; subst.
  now apply hasBookChanged_false_iff.
Qed.

Lemma inline_bookChanged_same (books eb : GoodreadsInline.Books)
      (nc ec : Goodreads.Book) :
  GoodreadsInline.current books = Some nc ->
  GoodreadsInline.current eb = Some ec ->
  Goodreads.title nc = Goodreads.title ec ->
  Goodreads.author nc = Goodreads.author ec ->
  GoodreadsInline.bookChanged books (Some eb) = false.
Proof.
  intros Hn He Ht Ha.
  destruct books as [nb], eb as [eb']; simpl in *; subst.
  now apply inline_bookChanged_false_iff.
Qed.

(** On the unchanged branch the entry put is the stored data under a new
    timestamp. *)
Lemma entryOnDemand_unchanged (env : Goodreads.Env) (c : Goodreads.Entry)
      (books eb : Goodreads.Books) (nc ec : Goodreads.Book) :
  Goodreads.data c = Some eb ->
  Goodreads.current eb = Some ec ->
  Goodreads.current books = Some nc ->
  Goodreads.title nc = Goodreads.title ec ->
  Goodreads.author nc = Goodreads.author ec ->
  Goodreads.entryOnDemand env (Some c) books
  = Goodreads.mkEntry (Goodreads.data c)
      (clock_write (Goodreads.platform env)).
Proof.
  intros Hd He Hn Ht Ha.
  unfold Goodreads.entryOnDemand; simpl.
  rewrite Hd.
  now rewrite (hasBookChanged_same books eb nc ec Hn He Ht Ha).
Qed.




(** C9: in goodreads-worker.js, an on-demand request (not the preflight)
    that reads a stale entry holding a book and fetches a book with the
    same title and author ends with one put of the entry whose data is the
    stored data and whose timestamp is the current time.  When the put
    succeeds the store holds exactly that entry and the caller receives
    the fetched record; when it throws the store is left as it was and the
    caller receives the 500 error object.  Either way no freshly fetched
    field is persisted. *)
Theorem C9_unchanged_book_rewrites_stored_data
        (request : Request) (env : Goodreads.Env) (s : Store Goodreads.Entry)
        (c : Goodreads.Entry) (books eb : Goodreads.Books)
        (nc ec : Goodreads.Book) :
  method request <> "OPTIONS" ->
  get_error (Goodreads.platform env) = None ->
  live (clock_read (Goodreads.platform env)) s = Some c ->
  Goodreads.cacheValid (clock_read (Goodreads.platform env)) (Some c)
  = false ->
  Goodreads.data c = Some eb ->
  Goodreads.current eb = Some ec ->
  Goodreads.rss env = Ok books ->
  Goodreads.current books = Some nc ->
  Goodreads.title nc = Goodreads.title ec ->
  Goodreads.author nc = Goodreads.author ec ->
  Goodreads.fetch request env s
  = afterPut (Goodreads.platform env) s [EvGet; EvFetch GoodreadsRSS]
      (Goodreads.mkEntry (Some eb) (clock_write (Goodreads.platform env)))
      None (Goodreads.json (Some books)) Goodreads.failed
  /\ (put_error (Goodreads.platform env) = None ->
      Goodreads.fetch request env s
      = (Ok (Goodreads.json (Some books)),
         Some (mkStored
                 (Goodreads.mkEntry (Some eb)
                    (clock_write (Goodreads.platform env))) None),
         [EvGet; EvFetch GoodreadsRSS;
          EvPut (Goodreads.mkEntry (Some eb)
                   (clock_write (Goodreads.platform env))) None true]))
  /\ (forall m : string,
         put_error (Goodreads.platform env) = Some m ->
         Goodreads.fetch request env s
         = (Ok (Goodreads.failed m), s,
            [EvGet; EvFetch GoodreadsRSS;
             EvPut (Goodreads.mkEntry (Some eb)
                      (clock_write (Goodreads.platform env))) None false])).
Proof.
  intros Hq Hget Hlive Hstale Hd He Hrss Hn Ht Ha.
  assert (Hfetch :
            Goodreads.fetch request env s
            = afterPut (Goodreads.platform env) s
                [EvGet; EvFetch GoodreadsRSS]
                (Goodreads.mkEntry (Some eb)
                   (clock_write (Goodreads.platform env)))
                None (Goodreads.json (Some books)) Goodreads.failed).
  { rewrite goodreads_fetch_stale by (rewrite ?Hlive; assumption).
    rewrite Hrss, Hlive.
    rewrite (entryOnDemand_unchanged env c books eb nc ec Hd He Hn Ht Ha).
    now rewrite Hd. }
  split; [exact Hfetch|].
  split.
  - intros Hput.
    rewrite Hfetch.
    unfold afterPut.
    now rewrite Hput.
  - intros m Hput.
    rewrite Hfetch.
    unfold afterPut.
    now rewrite Hput.
Qed.

Lemma C9_unchanged_book_witness :
  Goodreads.fetch GET
    (Goodreads.mkEnv (calm (t0 + 3600000) (t0 + 3600001))
       (Ok (Goodreads.mkBooks (Some duneNewCover) None)))
    (Some (mkStored duneEntry None))
  = (Ok (Goodreads.json (Some (Goodreads.mkBooks (Some duneNewCover) None))),
     Some (mkStored
             (Goodreads.mkEntry (Some (Goodreads.mkBooks (Some dune) None))
                (t0 + 3600001)) None),
     [EvGet; EvFetch GoodreadsRSS;
      EvPut (Goodreads.mkEntry (Some (Goodreads.mkBooks (Some dune) None))
               (t0 + 3600001)) None true]).
Proof.
  assert (Hq : method GET <> "OPTIONS") by discriminate.
  exact (proj1 (proj2
           (C9_unchanged_book_rewrites_stored_data GET
              (Goodreads.mkEnv (calm (t0 + 3600000) (t0 + 3600001))
                 (Ok (Goodreads.mkBooks (Some duneNewCover) None)))
              (Some (mkStored duneEntry None))
              duneEntry
              (Goodreads.mkBooks (Some duneNewCover) None)
              (Goodreads.mkBooks (Some dune) None)
              duneNewCover dune
              Hq eq_refl eq_refl eq_refl eq_refl eq_refl eq_refl eq_refl
              eq_refl eq_refl))
           eq_refl).
Defined.

(** ** C8: the scheduled path contains its errors *)

Lemma goodreads_scheduled_contained (env : Goodreads.Env)
      (s : Store Goodreads.Entry) :
  exists (s' : Store Goodreads.Entry) (t : list (Event Goodreads.Entry)),
    Goodreads.scheduled env s = (Ok tt, s', t)
    /\ (forall m, Goodreads.rss env = Throw m -> s' = s /\ puts t = 0%nat).
Proof.
  destruct (get_error (Goodreads.platform env)) as [m|] eqn:Hget.
  - rewrite (goodreads_scheduled_get_error env s m Hget).
    now eexists _, _.
  - rewrite (goodreads_scheduled_run env s Hget).
    destruct (Goodreads.rss env) as [books|m].
    + destruct (_ && _).
      * eexists _, _; split; [reflexivity | discriminate].
      * unfold afterPut.
        destruct (put_error (Goodreads.platform env));
          eexists _, _; (split; [reflexivity | discriminate]).
    + now eexists _, _.
Qed.

Lemma inline_scheduled_contained (env : GoodreadsInline.Env)
      (s : Store GoodreadsInline.Entry) :
  exists (s' : Store GoodreadsInline.Entry)
         (t : list (Event GoodreadsInline.Entry)),
    GoodreadsInline.scheduled env s = (Ok tt, s', t)
    /\ (forall m, GoodreadsInline.rss env = Throw m ->
                  s' = s /\ puts t = 0%nat).
Proof.
  destruct (get_error (GoodreadsInline.platform env)) as [m|] eqn:Hget.
  - rewrite (inline_scheduled_get_error env s m Hget).
    now eexists _, _.
  - rewrite (inline_scheduled_run env s Hget).
    destruct (GoodreadsInline.rss env) as [books|m].
    + destruct (_ && _).
      * eexists _, _; split; [reflexivity | discriminate].
      * unfold afterPut.
        destruct (put_error (GoodreadsInline.platform env));
          eexists _, _; (split; [reflexivity | discriminate]).
    + now eexists _, _.
Qed.

Lemma spotify_scheduled_contained (env : Spotify.Env)
      (s : Store Spotify.Entry) :
  exists (s' : Store Spotify.Entry) (t : list (Event Spotify.Entry)),
    Spotify.scheduled env s = (Ok tt, s', t)
    /\ (forall m, Spotify.fetchLatest env = Throw m ->
                  s' = s /\ puts t = 0%nat).
Proof.
  destruct (get_error (Spotify.platform env)) as [m|] eqn:Hget.
  - rewrite (spotify_scheduled_get_error env s m Hget).
    now eexists _, _.
  - destruct (Spotify.tooSoon (clock_read (Spotify.platform env))
                (live (clock_read (Spotify.platform env)) s)) eqn:Hsoon.
    + rewrite (spotify_scheduled_skip env s Hget Hsoon).
      now eexists _, _.
    + rewrite (spotify_scheduled_run env s Hget Hsoon).
      destruct (Spotify.fetchLatest env) as [[newTrack|]|m].
      * destruct (Spotify.tracksEqual _ _).
        -- eexists _, _; split; [reflexivity | discriminate].
        -- unfold afterPut.
           destruct (put_error (Spotify.platform env));
             eexists _, _; (split; [reflexivity | discriminate]).
      * eexists _, _; split; [reflexivity | discriminate].
      * eexists _, _; split; [reflexivity|].
        intros _ _; split; [reflexivity | apply calls_no_put].
Qed.

(** C8: every scheduled invocation of each of the three workers completes
    normally, whatever the store and the upstream do (the handler never
    throws); and when the upstream fetch fails, the store after the tick
    is the store before it and no put is attempted. *)
Theorem C8_scheduled_never_throws_nor_writes_on_failure :
  (forall (env : Goodreads.Env) (s : Store Goodreads.Entry),
      exists (s' : Store Goodreads.Entry) (t : list (Event Goodreads.Entry)),
        Goodreads.scheduled env s = (Ok tt, s', t)
        /\ (forall m, Goodreads.rss env = Throw m ->
                      s' = s /\ puts t = 0%nat))
  /\ (forall (env : GoodreadsInline.Env) (s : Store GoodreadsInline.Entry),
         exists (s' : Store GoodreadsInline.Entry)
                (t : list (Event GoodreadsInline.Entry)),
           GoodreadsInline.scheduled env s = (Ok tt, s', t)
           /\ (forall m, GoodreadsInline.rss env = Throw m ->
                         s' = s /\ puts t = 0%nat))
  /\ (forall (env : Spotify.Env) (s : Store Spotify.Entry),
         exists (s' : Store Spotify.Entry) (t : list (Event Spotify.Entry)),
           Spotify.scheduled env s = (Ok tt, s', t)
           /\ (forall m, Spotify.fetchLatest env = Throw m ->
                         s' = s /\ puts t = 0%nat)).
Proof.
  split; [exact goodreads_scheduled_contained|].
  split; [exact inline_scheduled_contained|].
  exact spotify_scheduled_contained.
Qed.

Lemma C8_scheduled_witness :
  (exists (s' : Store Goodreads.Entry) (t : list (Event Goodreads.Entry)),
      Goodreads.scheduled
        (Goodreads.mkEnv (calm t0 t0) (Throw "Goodreads RSS returned 503"))
        (Some (mkStored duneEntry None))
      = (Ok tt, s', t)
      /\ s' = Some (mkStored duneEntry None) /\ puts t = 0%nat)
  /\ (exists (s' : Store GoodreadsInline.Entry)
             (t : list (Event GoodreadsInline.Entry)),
         GoodreadsInline.scheduled
           (GoodreadsInline.mkEnv (calm t0 t0) (Throw "fetch failed"))
           (Some (mkStored duneInlineEntry None))
         = (Ok tt, s', t)
         /\ s' = Some (mkStored duneInlineEntry None) /\ puts t = 0%nat)
  /\ (exists (s' : Store Spotify.Entry) (t : list (Event Spotify.Entry)),
         Spotify.scheduled
           (Spotify.mkEnv stormy (Ok tt) (Throw "Spotify API error: 429")
              (Ok None))
           trackStore
         = (Ok tt, s', t)
         /\ s' = trackStore /\ puts t = 0%nat).
Proof.
  destruct C8_scheduled_never_throws_nor_writes_on_failure as [Hg [Hi Hs]].
  split; [|split].
  - destruct (Hg (Goodreads.mkEnv (calm t0 t0)
                    (Throw "Goodreads RSS returned 503"))
                 (Some (mkStored duneEntry None))) as [s' [t [Hrun Hfail]]].
    exists s', t; split; [exact Hrun|].
    exact (Hfail "Goodreads RSS returned 503" eq_refl).
  - destruct (Hi (GoodreadsInline.mkEnv (calm t0 t0) (Throw "fetch failed"))
                 (Some (mkStored duneInlineEntry None)))
      as [s' [t [Hrun Hfail]]].
    exists s', t; split; [exact Hrun|].
    exact (Hfail "fetch failed" eq_refl).
  - destruct (Hs (Spotify.mkEnv stormy (Ok tt)
                    (Throw "Spotify API error: 429") (Ok None))
                 trackStore) as [s' [t [Hrun Hfail]]].
    exists s', t; split; [exact Hrun|].
    exact (Hfail "Spotify API error: 429" eq_refl).
Defined.

(** ** C10: [lastRun] written by the on-demand path *)

Lemma calls_not_put (env : Spotify.Env) (e : Spotify.Entry)
      (ttl : option Z) (ok : bool) :
  ~ In (EvPut e ttl ok) (EvGet :: Spotify.calls env).
Proof.
  unfold Spotify.calls.
  destruct (Spotify.getAccessToken env); simpl;
    [destruct (Spotify.getNowPlaying env) as [[t|]|m]; simpl|];
    intuition discriminate.
Qed.

(** The puts in the trace of a handler that ends with [afterPut]. *)
Lemma in_afterPut {A : Type} (env : Spotify.Env) (s : Store Spotify.Entry)
      (e e' : Spotify.Entry) (ttl ttl' : option Z) (ok : bool)
      (done : A) (caught : string -> A) :
  In (EvPut e ttl ok)
     (snd (afterPut (Spotify.platform env) s (EvGet :: Spotify.calls env)
             e' ttl' done caught)) ->
  e = e' /\ ttl = ttl'
  /\ ok = match put_error (Spotify.platform env) with
          | None => true
          | Some _ => false
          end.
Proof.
  unfold afterPut.
  destruct (put_error (Spotify.platform env)); cbn [snd]; intros Hin;
    apply in_app_or in Hin; destruct Hin as [Hin|[Hin|[]]];
    try (now apply calls_not_put in Hin);
    now inversion Hin.
Qed.

Lemma spotify_fetch_put_lastRun (request : Request) (env : Spotify.Env)
      (s : Store Spotify.Entry) (e : Spotify.Entry) (ttl : option Z)
      (ok : bool) :
  In (EvPut e ttl ok) (snd (Spotify.fetch request env s)) ->
  Spotify.lastRun e = Spotify.timestamp e
  /\ Spotify.timestamp e = clock_write (Spotify.platform env).
Proof.
  destruct (String.eqb_spec (method request) "OPTIONS") as [Hopt|Hq].
  { now rewrite (spotify_fetch_preflight request env s Hopt). }
  destruct (get_error (Spotify.platform env)) as [m|] eqn:Hget.
  { rewrite (spotify_fetch_get_error request env s m Hq Hget); simpl.
    intuition discriminate. }
  destruct (Spotify.cacheValid (clock_read (Spotify.platform env))
              (live (clock_read (Spotify.platform env)) s)) eqn:Hvalid.
  { rewrite (spotify_fetch_valid request env s Hq Hget Hvalid); simpl.
    intuition discriminate. }
  rewrite (spotify_fetch_stale request env s Hq Hget Hvalid).
  destruct (Spotify.fetchLatest env) as [track|m];
    [destruct (Spotify.tracksEqual _ _)|];
    try (intros Hin; now apply calls_not_put in Hin).
  intros Hin; apply in_afterPut in Hin.
  destruct Hin as [-> _]; split; reflexivity.
Qed.

Lemma spotify_scheduled_throttled (env : Spotify.Env)
      (s : Store Spotify.Entry) (c : Spotify.Entry) :
  get_error (Spotify.platform env) = None ->
  live (clock_read (Spotify.platform env)) s = Some c ->
  Spotify.lastRun c <> 0 ->
  clock_read (Spotify.platform env) - Spotify.lastRun c < 120000 ->
  Spotify.scheduled env s = (Ok tt, s, [EvGet]).
Proof.
  intros Hget Hlive Hrun Hage.
  apply spotify_scheduled_skip; [assumption|].
  rewrite Hlive.
  unfold Spotify.tooSoon, JS.chain, Spotify.SCHEDULE_INTERVAL.
  now rewrite (truthy_num_true Hrun), (ltb_true Hage).
Qed.

Lemma spotify_write_postpones_tick (request : Request) (env tick : Spotify.Env)
      (s s' : Store Spotify.Entry) (r : outcome Spotify.Response)
      (t : list (Event Spotify.Entry)) (e : Spotify.Entry) (ttl : option Z) :
  Spotify.fetch request env s = (r, s', t) ->
  In (EvPut e ttl true) t ->
  clock_write (Spotify.platform env) <> 0 ->
  clock_read (Spotify.platform tick) - clock_write (Spotify.platform env)
  < 120000 ->
  Spotify.scheduled tick s' = (Ok tt, s', [EvGet]).
Proof.
  intros Hrun Hin Hcw Hage.
  assert (Hs' : s' = Some (mkStored e
                   (Some (clock_write (Spotify.platform env) + 300 * 1000)))
                /\ Spotify.lastRun e = clock_write (Spotify.platform env)).
  { destruct (String.eqb_spec (method request) "OPTIONS") as [Hopt|Hq].
    { rewrite (spotify_fetch_preflight request env s Hopt) in Hrun.
      inversion Hrun; subst; contradiction. }
    destruct (get_error (Spotify.platform env)) as [m|] eqn:Hget.
    { rewrite (spotify_fetch_get_error request env s m Hq Hget) in Hrun.
      inversion Hrun; subst; simpl in Hin; intuition discriminate. }
    destruct (Spotify.cacheValid (clock_read (Spotify.platform env))
                (live (clock_read (Spotify.platform env)) s)) eqn:Hvalid.
    { rewrite (spotify_fetch_valid request env s Hq Hget Hvalid) in Hrun.
      inversion Hrun; subst; simpl in Hin; intuition discriminate. }
    rewrite (spotify_fetch_stale request env s Hq Hget Hvalid) in Hrun.
    destruct (Spotify.fetchLatest env) as [track|m];
      [destruct (Spotify.tracksEqual _ _)|];
      try (inversion Hrun; subst; now apply calls_not_put in Hin).
    assert (Hput := f_equal snd Hrun); simpl in Hput.
    rewrite <- Hput in Hin.
    apply in_afterPut in Hin.
    destruct Hin as [-> [_ Hok]].
    unfold afterPut in Hrun.
    destruct (put_error (Spotify.platform env)); [discriminate|].
    inversion Hrun; subst; split; reflexivity. }
  destruct Hs' as [-> Hlast].
  destruct (get_error (Spotify.platform tick)) as [m|] eqn:Hget.
  { now apply spotify_scheduled_get_error with m. }
  apply (spotify_scheduled_throttled tick _ e Hget).
  - simpl.
    now rewrite (proj2 (Z.leb_gt _ _)) by lia.
  - now rewrite Hlast.
  - now rewrite Hlast.
Qed.

(** C10: in the playback worker, (1) every entry the on-demand handler
    puts has lastRun equal to its timestamp (the time of the write);
    (2) a scheduled tick that reads an entry with a lastRun and
    now - lastRun < 120000 ms only reads the cache: no upstream call, no
    put, store unchanged; and so (3) after an on-demand request that wrote
    an entry, every scheduled tick less than 120000 ms after that write
    performs no upstream call and no put. *)
Theorem C10_on_demand_write_postpones_schedule :
  (forall (request : Request) (env : Spotify.Env) (s : Store Spotify.Entry)
          (e : Spotify.Entry) (ttl : option Z) (ok : bool),
      In (EvPut e ttl ok) (snd (Spotify.fetch request env s)) ->
      Spotify.lastRun e = Spotify.timestamp e
      /\ Spotify.timestamp e = clock_write (Spotify.platform env))
  /\ (forall (env : Spotify.Env) (s : Store Spotify.Entry)
             (c : Spotify.Entry),
         get_error (Spotify.platform env) = None ->
         live (clock_read (Spotify.platform env)) s = Some c ->
         Spotify.lastRun c <> 0 ->
         clock_read (Spotify.platform env) - Spotify.lastRun c < 120000 ->
         Spotify.scheduled env s = (Ok tt, s, [EvGet]))
  /\ (forall (request : Request) (env tick : Spotify.Env)
             (s s' : Store Spotify.Entry) (r : outcome Spotify.Response)
             (t : list (Event Spotify.Entry)) (e : Spotify.Entry)
             (ttl : option Z),
         Spotify.fetch request env s = (r, s', t) ->
         In (EvPut e ttl true) t ->
         clock_write (Spotify.platform env) <> 0 ->
         clock_read (Spotify.platform tick)
         - clock_write (Spotify.platform env) < 120000 ->
         Spotify.scheduled tick s' = (Ok tt, s', [EvGet])).
Proof.
  split; [exact spotify_fetch_put_lastRun|].
  split; [exact spotify_scheduled_throttled|].
  exact spotify_write_postpones_tick.
Qed.

Lemma C10_on_demand_write_witness :
  Spotify.fetch GET changeEnv trackStore
  = (Ok (Spotify.json (Some trackC)), changedStore,
     [EvGet; EvFetch SpotifyToken; EvFetch SpotifyNowPlaying;
      EvPut changedEntry (Some 300) true])
  /\ Spotify.lastRun changedEntry = Spotify.timestamp changedEntry
  /\ Spotify.scheduled soonTick changedStore = (Ok tt, changedStore, [EvGet])
  /\ Spotify.scheduled
       (Spotify.mkEnv (calm (t0 + 119999) (t0 + 119999))
          (Ok tt) (Ok (Some trackC)) (Ok None))
       trackStore
     = (Ok tt, trackStore, [EvGet]).
Proof.
  destruct C10_on_demand_write_postpones_schedule as [Hlast [Hskip Hpost]].
  assert (Hrun : Spotify.fetch GET changeEnv trackStore
                 = (Ok (Spotify.json (Some trackC)), changedStore,
                    [EvGet; EvFetch SpotifyToken; EvFetch SpotifyNowPlaying;
                     EvPut changedEntry (Some 300) true]))
    by reflexivity.
  split; [exact Hrun|].
  split; [|split].
  - apply (Hlast GET changeEnv trackStore changedEntry (Some 300) true).
    rewrite Hrun; simpl; auto.
  - apply (Hpost GET changeEnv soonTick trackStore changedStore _ _
             changedEntry (Some 300) Hrun).
    + simpl; auto.
    + discriminate.
    + reflexivity.
  - apply (Hskip _ trackStore trackEntry);
      [reflexivity | reflexivity | discriminate | reflexivity].
Defined.

(** ** C1: a fetched null against a stored record *)

(** goodreads-worker.js honours the guard on both paths: a feed without
    items leaves the stored data in place. *)
Lemma goodreads_null_keeps_record (request : Request) (env : Goodreads.Env)
      (s : Store Goodreads.Entry) (c : Goodreads.Entry)
      (eb books : Goodreads.Books) (ec : Goodreads.Book) :
  get_error (Goodreads.platform env) = None ->
  live (clock_read (Goodreads.platform env)) s = Some c ->
  Goodreads.data c = Some eb ->
  Goodreads.current eb = Some ec ->
  Goodreads.rss env = Ok books ->
  Goodreads.current books = None ->
  JS.chain_opt
    (live (clock_read (Goodreads.platform env))
       (snd (fst (Goodreads.fetch request env s)))) Goodreads.data = Some eb
  /\ Goodreads.scheduled env s = (Ok tt, s, [EvGet; EvFetch GoodreadsRSS]).
Proof.
  intros Hget Hlive Hd He Hrss Hn.
  assert (Hkeep : Goodreads.hasBookChanged (Some books) (Some eb) = false).
  { unfold Goodreads.hasBookChanged; simpl.
    now rewrite He, Hn. }
  split.
  - destruct (String.eqb_spec (method request) "OPTIONS") as [Hopt|Hq].
    { rewrite (goodreads_fetch_preflight request env s Hopt); simpl.
      now rewrite Hlive. }
    destruct (Goodreads.cacheValid (clock_read (Goodreads.platform env))
                (live (clock_read (Goodreads.platform env)) s)) eqn:Hvalid.
    { rewrite (goodreads_fetch_valid request env s Hq Hget Hvalid); simpl.
      now rewrite Hlive. }
    rewrite (goodreads_fetch_stale request env s Hq Hget Hvalid).
    rewrite Hrss, Hlive.
    unfold Goodreads.entryOnDemand, afterPut; simpl.
    rewrite Hd, Hkeep.
    destruct (put_error (Goodreads.platform env)); simpl; [|reflexivity].
    now rewrite Hlive.
  - rewrite (goodreads_scheduled_run env s Hget).
    now rewrite Hrss, Hlive; simpl; rewrite Hd, Hkeep.
Qed.

(** So does the scheduled path of the playback worker. *)
Lemma spotify_scheduled_null_keeps_record (env : Spotify.Env)
      (s : Store Spotify.Entry) :
  Spotify.fetchLatest env = Ok None ->
  exists t : list (Event Spotify.Entry),
    Spotify.scheduled env s = (Ok tt, s, t) /\ puts t = 0%nat.
Proof.
  intros Hnull.
  destruct (get_error (Spotify.platform env)) as [m|] eqn:Hget.
  { rewrite (spotify_scheduled_get_error env s m Hget).
    now eexists. }
  destruct (Spotify.tooSoon (clock_read (Spotify.platform env))
              (live (clock_read (Spotify.platform env)) s)) eqn:Hsoon.
  { rewrite (spotify_scheduled_skip env s Hget Hsoon).
    now eexists. }
  rewrite (spotify_scheduled_run env s Hget Hsoon), Hnull.
  eexists; split; [reflexivity | apply calls_no_put].
Qed.

(** C1 (evaluation at the failing inputs): the on-demand handler of the
    playback worker, reading a cached track and fetching null, overwrites
    the entry with null data, whereas its scheduled handler leaves the
    store alone on the same input; both handlers of the inline
    reading-list worker replace the cached book by the empty record. *)
Theorem C1_fetched_null_overwrites_record :
  Spotify.fetch GET silentEnv trackStore
  = (Ok (Spotify.json None),
     Some (mkStored (Spotify.mkEntry None (t0 + 60001) (t0 + 60001))
             (Some (t0 + 60001 + 300000))),
     [EvGet; EvFetch SpotifyToken; EvFetch SpotifyNowPlaying;
      EvFetch SpotifyRecentlyPlayed;
      EvPut (Spotify.mkEntry None (t0 + 60001) (t0 + 60001)) (Some 300) true])
  /\ Spotify.scheduled
       (Spotify.mkEnv (calm (t0 + 120000) (t0 + 120001))
          (Ok tt) (Ok None) (Ok None))
       trackStore
     = (Ok tt, trackStore,
        [EvGet; EvFetch SpotifyToken; EvFetch SpotifyNowPlaying;
         EvFetch SpotifyRecentlyPlayed])
  /\ GoodreadsInline.fetch GET emptyShelfEnv
       (Some (mkStored duneInlineEntry None))
     = (Ok (GoodreadsInline.json (Some (GoodreadsInline.mkBooks None))),
        Some (mkStored
                (GoodreadsInline.mkEntry
                   (Some (GoodreadsInline.mkBooks None)) (t0 + 3600001))
                None),
        [EvGet; EvFetch GoodreadsRSS;
         EvPut (GoodreadsInline.mkEntry
                  (Some (GoodreadsInline.mkBooks None)) (t0 + 3600001))
           None true])
  /\ GoodreadsInline.scheduled emptyShelfEnv
       (Some (mkStored duneInlineEntry None))
     = (Ok tt,
        Some (mkStored
                (GoodreadsInline.mkEntry
                   (Some (GoodreadsInline.mkBooks None)) (t0 + 3600001))
                None),
        [EvGet; EvFetch GoodreadsRSS;
         EvPut (GoodreadsInline.mkEntry
                  (Some (GoodreadsInline.mkBooks None)) (t0 + 3600001))
           None true]).
Proof. repeat split. Qed.

(** ** C2: store writes over a sequence of polls *)

Lemma writes_app {Entry : Type} (t1 t2 : list (Event Entry)) :
  writes (t1 ++ t2) = (writes t1 + writes t2)%nat.
Proof.
  unfold writes.
  now rewrite filter_app, length_app.
Qed.

(** If polls never write to a settled store, and a poll on any store
    either leaves it alone without writing or writes once and settles it,
    then a run of polls writes at most once. *)
Section AtMostOnce.

Variable Entry : Type.
Variable X : Type.
Variable step : X -> Step Entry.
Variable good : X -> Prop.
Variable settled : Store Entry -> Prop.

Hypothesis settled_quiet :
  forall (x : X) (s : Store Entry),
    good x -> settled s ->
    exists t, step x s = (s, t) /\ writes t = 0%nat.

Hypothesis first_write :
  forall (x : X) (s : Store Entry),
    good x ->
    exists s' t,
      step x s = (s', t)
      /\ ((s' = s /\ writes t = 0%nat) \/ (settled s' /\ writes t = 1%nat)).

Lemma run_settled (xs : list X) (s : Store Entry) :
  Forall good xs -> settled s ->
  writes (snd (run (map step xs) s)) = 0%nat.
Proof.
  intros Hgood Hs.
  induction Hgood as [|x xs Hx Hxs IH]; [reflexivity|].
  simpl.
  destruct (settled_quiet x s Hx Hs) as [t [-> Ht]].
  destruct (run (map step xs) s) as [s2 t2].
  simpl in *.
  now rewrite writes_app, Ht, IH.
Qed.

Lemma run_at_most_once (xs : list X) (s : Store Entry) :
  Forall good xs ->
  (writes (snd (run (map step xs) s)) <= 1)%nat.
Proof.
  intros Hgood; revert s.
  induction Hgood as [|x xs Hx Hxs IH]; intros s;
    [exact (le_S _ _ (le_n 0%nat))|].
  simpl.
  destruct (first_write x s Hx) as [s' [t [-> [[-> Ht]|[Hs' Ht]]]]].
  - specialize (IH s).
    destruct (run (map step xs) s) as [s2 t2].
    simpl in *.
    rewrite writes_app, Ht.
    exact IH.
  - assert (Hrest := run_settled xs s' Hxs Hs').
    destruct (run (map step xs) s') as [s2 t2].
    simpl in *.
    rewrite writes_app, Ht, Hrest.
    lia.
Qed.

End AtMostOnce.

(** *** goodreads-worker.js, scheduled ticks *)

Section GoodreadsTicks.

Import Goodreads.

Variable books : Books.
Variable b : Book.
Hypothesis Hcurrent : current books = Some b.

Lemma hasBookChanged_self :
  hasBookChanged (Some books) (Some books) = false.
Proof. now apply (hasBookChanged_same books books b b). Qed.

Lemma goodreads_tick_settled (env : Env) (s : Store Entry) :
  rss env = Ok books -> settled books s ->
  exists t, poll (Tick env) s = (s, t) /\ writes t = 0%nat.
Proof.
  intros Hrss [ts ->].
  unfold poll, effect.
  destruct (get_error (platform env)) as [m|] eqn:Hget.
  - rewrite (goodreads_scheduled_get_error env _ m Hget).
    now eexists.
  - rewrite (goodreads_scheduled_run env _ Hget), Hrss; simpl.
    rewrite hasBookChanged_self; simpl.
    now eexists.
Qed.

Lemma goodreads_tick_first (env : Env) (s : Store Entry) :
  rss env = Ok books ->
  exists s' t,
    poll (Tick env) s = (s', t)
    /\ ((s' = s /\ writes t = 0%nat)
        \/ (settled books s' /\ writes t = 1%nat)).
Proof.
  intros Hrss.
  unfold poll, effect.
  destruct (get_error (platform env)) as [m|] eqn:Hget.
  - rewrite (goodreads_scheduled_get_error env _ m Hget).
    eexists _, _; split; [reflexivity|now left].
  - rewrite (goodreads_scheduled_run env _ Hget), Hrss.
    destruct (_ && _).
    + eexists _, _; split; [reflexivity|now left].
    + unfold afterPut.
      destruct (put_error (platform env)).
      * eexists _, _; split; [reflexivity|now left].
      * eexists _, _; split; [reflexivity|right].
        split; [now eexists | reflexivity].
Qed.

Lemma goodreads_ticks_write_once (envs : list Env) (s : Store Entry) :
  Forall (fun env => rss env = Ok books) envs ->
  (writes (snd (run (map (fun env => poll (Tick env)) envs) s)) <= 1)%nat.
Proof.
  apply run_at_most_once with (settled := settled books).
  - exact goodreads_tick_settled.
  - exact goodreads_tick_first.
Qed.

End GoodreadsTicks.

(** *** the inline reading-list worker, both paths *)

Section InlinePolls.

Import GoodreadsInline.

Variable books : Books.
Variable b : Book.
Hypothesis Hcurrent : current books = Some b.

Lemma bookChanged_self : bookChanged books (Some books) = false.
Proof. now apply (inline_bookChanged_same books books b b). Qed.

Lemma inline_fetch_first (request : Request) (env : Env) (s : Store Entry) :
  rss env = Ok books ->
  exists s' t,
    effect (fetch request env) s = (s', t)
    /\ ((s' = s /\ writes t = 0%nat)
        \/ (settled books s' /\ writes t = 1%nat)).
Proof.
  intros Hrss.
  unfold effect.
  destruct (String.eqb_spec (method request) "OPTIONS") as [Hopt|Hq].
  { rewrite (inline_fetch_preflight request env s Hopt).
    eexists _, _; split; [reflexivity|now left]. }
  destruct (get_error (platform env)) as [m|] eqn:Hget.
  { rewrite (inline_fetch_get_error request env s m Hq Hget).
    eexists _, _; split; [reflexivity|now left]. }
  destruct (cacheValid (clock_read (platform env))
              (live (clock_read (platform env)) s)) eqn:Hvalid.
  { rewrite (inline_fetch_valid request env s Hq Hget Hvalid).
    eexists _, _; split; [reflexivity|now left]. }
  rewrite (inline_fetch_stale request env s Hq Hget Hvalid), Hrss.
  destruct (_ || _).
  - unfold afterPut.
    destruct (put_error (platform env)).
    + eexists _, _; split; [reflexivity|now left].
    + eexists _, _; split; [reflexivity|right].
      split; [now eexists | reflexivity].
  - eexists _, _; split; [reflexivity|now left].
Qed.

Lemma inline_fetch_settled (request : Request) (env : Env)
      (s : Store Entry) :
  rss env = Ok books -> settled books s ->
  exists t, effect (fetch request env) s = (s, t) /\ writes t = 0%nat.
Proof.
  intros Hrss [ts ->].
  unfold effect.
  destruct (String.eqb_spec (method request) "OPTIONS") as [Hopt|Hq].
  { rewrite (inline_fetch_preflight request env _ Hopt).
    now eexists. }
  destruct (get_error (platform env)) as [m|] eqn:Hget.
  { rewrite (inline_fetch_get_error request env _ m Hq Hget).
    now eexists. }
  destruct (cacheValid (clock_read (platform env))
              (live (clock_read (platform env))
                 (Some (mkStored (mkEntry (Some books) ts) None))))
    eqn:Hvalid.
  { rewrite (inline_fetch_valid request env _ Hq Hget Hvalid).
    now eexists. }
  rewrite (inline_fetch_stale request env _ Hq Hget Hvalid), Hrss; simpl.
  rewrite bookChanged_self; simpl.
  now eexists.
Qed.

Lemma inline_tick_first (env : Env) (s : Store Entry) :
  rss env = Ok books ->
  exists s' t,
    effect (scheduled env) s = (s', t)
    /\ ((s' = s /\ writes t = 0%nat)
        \/ (settled books s' /\ writes t = 1%nat)).
Proof.
  intros Hrss.
  unfold effect.
  destruct (get_error (platform env)) as [m|] eqn:Hget.
  - rewrite (inline_scheduled_get_error env _ m Hget).
    eexists _, _; split; [reflexivity|now left].
  - rewrite (inline_scheduled_run env _ Hget), Hrss.
    destruct (_ && _).
    + eexists _, _; split; [reflexivity|now left].
    + unfold afterPut.
      destruct (put_error (platform env)).
      * eexists _, _; split; [reflexivity|now left].
      * eexists _, _; split; [reflexivity|right].
        split; [now eexists | reflexivity].
Qed.

Lemma inline_tick_settled (env : Env) (s : Store Entry) :
  rss env = Ok books -> settled books s ->
  exists t, effect (scheduled env) s = (s, t) /\ writes t = 0%nat.
Proof.
  intros Hrss [ts ->].
  unfold effect.
  destruct (get_error (platform env)) as [m|] eqn:Hget.
  - rewrite (inline_scheduled_get_error env _ m Hget).
    now eexists.
  - rewrite (inline_scheduled_run env _ Hget), Hrss; simpl.
    rewrite bookChanged_self; simpl.
    now eexists.
Qed.

Lemma inline_polls_write_once (ps : list Poll) (s : Store Entry) :
  Forall (fun p => rss (envOf p) = Ok books) ps ->
  (writes (snd (run (map poll ps) s)) <= 1)%nat.
Proof.
  apply run_at_most_once with (settled := settled books).
  - intros [request env|env] s0; simpl.
    + apply inline_fetch_settled.
    + apply inline_tick_settled.
  - intros [request env|env] s0; simpl.
    + apply inline_fetch_first.
    + apply inline_tick_first.
Qed.

End InlinePolls.

(** *** the playback worker, both paths, within one expiry span *)

Lemma calls_no_write (env : Spotify.Env) :
  writes (EvGet :: Spotify.calls env) = 0%nat.
Proof.
  unfold Spotify.calls.
  destruct (Spotify.getAccessToken env); [|reflexivity].
  destruct (Spotify.getNowPlaying env) as [[t|]|m]; reflexivity.
Qed.

Section SpotifyPolls.

Import Spotify.

Variable track : Track.

(** Every poll of the run writes no earlier than [start] and reads the
    clock before [start] + 300 s. *)
Variable start : Z.

Lemma settled_live (s : Store Entry) (now : Z) :
  settled track start s -> now < start + 300000 ->
  JS.chain_opt (live now s) data = Some track.
Proof.
  intros [ts [lr [x [-> Hx]]]] Hnow; simpl.
  now rewrite (proj2 (Z.leb_gt _ _)) by lia.
Qed.

Lemma spotify_fetch_first (request : Request) (env : Env) (s : Store Entry) :
  sameTrack track start (OnDemand request env) ->
  exists s' t,
    effect (fetch request env) s = (s', t)
    /\ ((s' = s /\ writes t = 0%nat)
        \/ (settled track start s' /\ writes t = 1%nat)).
Proof.
  intros [Hfetch [Hcw Hcr]]; simpl in *.
  unfold effect.
  destruct (String.eqb_spec (method request) "OPTIONS") as [Hopt|Hq].
  { rewrite (spotify_fetch_preflight request env s Hopt).
    eexists _, _; split; [reflexivity|now left]. }
  destruct (get_error (platform env)) as [m|] eqn:Hget.
  { rewrite (spotify_fetch_get_error request env s m Hq Hget).
    eexists _, _; split; [reflexivity|now left]. }
  destruct (cacheValid (clock_read (platform env))
              (live (clock_read (platform env)) s)) eqn:Hvalid.
  { rewrite (spotify_fetch_valid request env s Hq Hget Hvalid).
    eexists _, _; split; [reflexivity|now left]. }
  rewrite (spotify_fetch_stale request env s Hq Hget Hvalid), Hfetch.
  destruct (tracksEqual _ _).
  - eexists _, _; split; [reflexivity|left].
    split; [reflexivity | apply calls_no_write].
  - unfold afterPut.
    destruct (put_error (platform env)).
    + eexists _, _; split; [reflexivity|left].
      split; [reflexivity|].
      now rewrite writes_app, calls_no_write.
    + eexists _, _; split; [reflexivity|right].
      split.
      * eexists _, _, _; split; [reflexivity|].
        unfold KV_TTL; lia.
      * now rewrite writes_app, calls_no_write.
Qed.

Lemma spotify_fetch_settled (request : Request) (env : Env)
      (s : Store Entry) :
  sameTrack track start (OnDemand request env) -> settled track start s ->
  exists t, effect (fetch request env) s = (s, t) /\ writes t = 0%nat.
Proof.
  intros [Hfetch [Hcw Hcr]] Hs; simpl in *.
  unfold effect.
  destruct (String.eqb_spec (method request) "OPTIONS") as [Hopt|Hq].
  { rewrite (spotify_fetch_preflight request env _ Hopt).
    now eexists. }
  destruct (get_error (platform env)) as [m|] eqn:Hget.
  { rewrite (spotify_fetch_get_error request env _ m Hq Hget).
    now eexists. }
  destruct (cacheValid (clock_read (platform env))
              (live (clock_read (platform env)) s)) eqn:Hvalid.
  { rewrite (spotify_fetch_valid request env _ Hq Hget Hvalid).
    now eexists. }
  rewrite (spotify_fetch_stale request env _ Hq Hget Hvalid), Hfetch.
  rewrite (settled_live s _ Hs Hcr), tracksEqual_refl.
  eexists; split; [reflexivity | apply calls_no_write].
Qed.

Lemma spotify_tick_first (env : Env) (s : Store Entry) :
  sameTrack track start (Tick env) ->
  exists s' t,
    effect (scheduled env) s = (s', t)
    /\ ((s' = s /\ writes t = 0%nat)
        \/ (settled track start s' /\ writes t = 1%nat)).
Proof.
  intros [Hfetch [Hcw Hcr]]; simpl in *.
  unfold effect.
  destruct (get_error (platform env)) as [m|] eqn:Hget.
  { rewrite (spotify_scheduled_get_error env s m Hget).
    eexists _, _; split; [reflexivity|now left]. }
  destruct (tooSoon (clock_read (platform env))
              (live (clock_read (platform env)) s)) eqn:Hsoon.
  { rewrite (spotify_scheduled_skip env s Hget Hsoon).
    eexists _, _; split; [reflexivity|now left]. }
  rewrite (spotify_scheduled_run env s Hget Hsoon), Hfetch.
  destruct (tracksEqual _ _).
  - eexists _, _; split; [reflexivity|left].
    split; [reflexivity | apply calls_no_write].
  - unfold afterPut.
    destruct (put_error (platform env)).
    + eexists _, _; split; [reflexivity|left].
      split; [reflexivity|].
      now rewrite writes_app, calls_no_write.
    + eexists _, _; split; [reflexivity|right].
      split.
      * eexists _, _, _; split; [reflexivity|].
        unfold KV_TTL; lia.
      * now rewrite writes_app, calls_no_write.
Qed.

Lemma spotify_tick_settled (env : Env) (s : Store Entry) :
  sameTrack track start (Tick env) -> settled track start s ->
  exists t, effect (scheduled env) s = (s, t) /\ writes t = 0%nat.
Proof.
  intros [Hfetch [Hcw Hcr]] Hs; simpl in *.
  unfold effect.
  destruct (get_error (platform env)) as [m|] eqn:Hget.
  { rewrite (spotify_scheduled_get_error env s m Hget).
    now eexists. }
  destruct (tooSoon (clock_read (platform env))
              (live (clock_read (platform env)) s)) eqn:Hsoon.
  { rewrite (spotify_scheduled_skip env s Hget Hsoon).
    now eexists. }
  rewrite (spotify_scheduled_run env s Hget Hsoon), Hfetch.
  rewrite (settled_live s _ Hs Hcr), tracksEqual_refl.
  eexists; split; [reflexivity | apply calls_no_write].
Qed.

Lemma spotify_polls_write_once (ps : list Poll) (s : Store Entry) :
  Forall (sameTrack track start) ps ->
  (writes (snd (run (map poll ps) s)) <= 1)%nat.
Proof.
  apply run_at_most_once with (settled := settled track start).
  - intros [request env|env] s0; simpl.
    + apply spotify_fetch_settled.
    + apply spotify_tick_settled.
  - intros [request env|env] s0; simpl.
    + apply spotify_fetch_first.
    + apply spotify_tick_first.
Qed.

End SpotifyPolls.

(** *** goodreads-worker.js, on-demand path *)

Lemma goodreads_fetch_always_writes (request : Request) (env : Goodreads.Env)
      (s : Store Goodreads.Entry) (books : Goodreads.Books) :
  method request <> "OPTIONS" ->
  get_error (Goodreads.platform env) = None ->
  put_error (Goodreads.platform env) = None ->
  Goodreads.cacheValid (clock_read (Goodreads.platform env))
    (live (clock_read (Goodreads.platform env)) s) = false ->
  Goodreads.rss env = Ok books ->
  writes (snd (Goodreads.fetch request env s)) = 1%nat.
Proof.
  intros Hq Hget Hput Hstale Hrss.
  rewrite (goodreads_fetch_stale request env s Hq Hget Hstale), Hrss.
  unfold afterPut.
  now rewrite Hput.
Qed.

(** C2, as stated, fails for the on-demand path of goodreads-worker.js:
    four hourly requests that all fetch the same record write the store
    four times.  It also fails for playback ticks six minutes apart (the
    entry written by the first has expired when the second reads the
    store) and for reading-list ticks that find the shelf empty (a stored
    record without a current book always counts as changed). *)
Lemma C2_repeated_writes_counterexample :
  writes
    (snd (run (map Goodreads.poll [hourly 0; hourly 1; hourly 2; hourly 3])
            None)) = 4%nat
  /\ writes
       (snd (run (map Spotify.poll
                    [Spotify.Tick (sameTrackEnv 0);
                     Spotify.Tick (sameTrackEnv 360000)])
               None)) = 2%nat
  /\ writes
       (snd (run (map Goodreads.poll
                    [Goodreads.Tick (emptyShelfTick 0);
                     Goodreads.Tick (emptyShelfTick 1800000)])
               None)) = 2%nat.
Proof. repeat split. Qed.

(** C2 (amended): over any run of polls that all fetch the same non-null
    record, from any store, the store is written at most once when the
    polls are scheduled ticks of goodreads-worker.js, polls of either path
    of the inline reading-list worker, or polls of either path of the
    playback worker that all fall within the span of one 300-second KV
    expiry; the on-demand path of goodreads-worker.js writes once on every
    request that is past the freshness window and whose fetch and put
    succeed. *)
Theorem C2_writes_for_identical_record :
  (forall (books : Goodreads.Books) (b : Goodreads.Book)
          (envs : list Goodreads.Env) (s : Store Goodreads.Entry),
      Goodreads.current books = Some b ->
      Forall (fun env => Goodreads.rss env = Ok books) envs ->
      (writes
         (snd (run (map (fun env => Goodreads.poll (Goodreads.Tick env)) envs)
                 s)) <= 1)%nat)
  /\ (forall (books : GoodreadsInline.Books) (b : GoodreadsInline.Book)
             (ps : list GoodreadsInline.Poll)
             (s : Store GoodreadsInline.Entry),
         GoodreadsInline.current books = Some b ->
         Forall (fun p => GoodreadsInline.rss (GoodreadsInline.envOf p)
                          = Ok books) ps ->
         (writes (snd (run (map GoodreadsInline.poll ps) s)) <= 1)%nat)
  /\ (forall (track : Spotify.Track) (start : Z) (ps : list Spotify.Poll)
             (s : Store Spotify.Entry),
         Forall (Spotify.sameTrack track start) ps ->
         (writes (snd (run (map Spotify.poll ps) s)) <= 1)%nat)
  /\ (forall (request : Request) (env : Goodreads.Env)
             (s : Store Goodreads.Entry) (books : Goodreads.Books),
         method request <> "OPTIONS" ->
         get_error (Goodreads.platform env) = None ->
         put_error (Goodreads.platform env) = None ->
         Goodreads.cacheValid (clock_read (Goodreads.platform env))
           (live (clock_read (Goodreads.platform env)) s) = false ->
         Goodreads.rss env = Ok books ->
         writes (snd (Goodreads.fetch request env s)) = 1%nat).
Proof.
  split; [|split; [|split]].
  - intros books b envs s Hb.
    now apply goodreads_ticks_write_once with b.
  - intros books b ps s Hb.
    now apply inline_polls_write_once with b.
  - exact spotify_polls_write_once.
  - exact goodreads_fetch_always_writes.
Qed.

Lemma C2_writes_witness :
  (writes
     (snd (run (map (fun env => Goodreads.poll (Goodreads.Tick env))
                  [duneTick 0; duneTick 1800000; duneTick 3600000])
             None)) <= 1)%nat
  /\ (writes
        (snd (run (map GoodreadsInline.poll
                     [GoodreadsInline.Tick
                        (GoodreadsInline.mkEnv (calm t0 t0)
                           (Ok (GoodreadsInline.mkBooks (Some dune))));
                      GoodreadsInline.OnDemand GET
                        (GoodreadsInline.mkEnv
                           (calm (t0 + 3600000) (t0 + 3600000))
                           (Ok (GoodreadsInline.mkBooks (Some dune))))])
                None)) <= 1)%nat
  /\ (writes
        (snd (run (map Spotify.poll
                     [Spotify.OnDemand GET (sameTrackEnv 0);
                      Spotify.Tick (sameTrackEnv 120000);
                      Spotify.OnDemand GET (sameTrackEnv 150001);
                      Spotify.Tick (sameTrackEnv 240000)])
                None)) <= 1)%nat
  /\ writes (snd (Goodreads.fetch GET
                    (Goodreads.mkEnv (calm (t0 + 3600000) (t0 + 3600000))
                       (Ok duneBooks))
                    (Some (mkStored duneEntry None)))) = 1%nat.
Proof.
  destruct C2_writes_for_identical_record
    as [Hticks [Hinline [Hspotify Hfetch]]].
  split; [|split; [|split]].
  - apply (Hticks duneBooks dune); [reflexivity|].
    repeat constructor.
  - apply (Hinline (GoodreadsInline.mkBooks (Some dune)) dune);
      [reflexivity|].
    repeat constructor.
  - apply (Hspotify trackA t0).
    repeat (apply Forall_cons;
            [split; [reflexivity|split];
             [apply Z.leb_le | apply Z.ltb_lt]; reflexivity|]).
    apply Forall_nil.
  - apply (Hfetch GET _ _ duneBooks);
      [discriminate | reflexivity | reflexivity | reflexivity | reflexivity].
Defined.

(** ** C3: the self-throttle of the scheduled path *)

Lemma spotify_ticks_throttled (c : Spotify.Entry)
      (envs : list Spotify.Env) (s : Store Spotify.Entry) :
  Spotify.lastRun c <> 0 ->
  Forall (fun env =>
            live (clock_read (Spotify.platform env)) s = Some c
            /\ clock_read (Spotify.platform env) - Spotify.lastRun c < 120000)
         envs ->
  fst (run (map (fun env => Spotify.poll (Spotify.Tick env)) envs) s) = s
  /\ fetches
       (snd (run (map (fun env => Spotify.poll (Spotify.Tick env)) envs) s))
     = 0%nat
  /\ puts
       (snd (run (map (fun env => Spotify.poll (Spotify.Tick env)) envs) s))
     = 0%nat.
Proof.
  intros Hrun Hall.
  induction Hall as [|env envs [Hlive Hage] _ IH]; [now repeat split|].
  assert (Hskip : Spotify.scheduled env s = (Ok tt, s, [EvGet])).
  { destruct (get_error (Spotify.platform env)) as [m|] eqn:Hget.
    - now apply spotify_scheduled_get_error with m.
    - now apply spotify_scheduled_throttled with c. }
  simpl.
  unfold effect at 1 3 5.
  rewrite Hskip.
  destruct (run _ s) as [s2 t2].
  exact IH.
Qed.

Lemma goodreads_tick_fetches (env : Goodreads.Env)
      (s : Store Goodreads.Entry) :
  get_error (Goodreads.platform env) = None ->
  fetches (snd (Goodreads.scheduled env s)) = 1%nat.
Proof.
  intros Hget.
  rewrite (goodreads_scheduled_run env s Hget).
  destruct (Goodreads.rss env) as [books|m]; [|reflexivity].
  destruct (_ && _); [reflexivity|].
  unfold afterPut.
  destruct (put_error (Goodreads.platform env)); reflexivity.
Qed.

Lemma inline_tick_fetches (env : GoodreadsInline.Env)
      (s : Store GoodreadsInline.Entry) :
  get_error (GoodreadsInline.platform env) = None ->
  fetches (snd (GoodreadsInline.scheduled env s)) = 1%nat.
Proof.
  intros Hget.
  rewrite (inline_scheduled_run env s Hget).
  destruct (GoodreadsInline.rss env) as [books|m]; [|reflexivity].
  destruct (_ && _); [reflexivity|].
  unfold afterPut.
  destruct (put_error (GoodreadsInline.platform env)); reflexivity.
Qed.

Lemma spotify_tick_without_write (env : Spotify.Env)
      (s s' : Store Spotify.Entry) (r : outcome unit)
      (t : list (Event Spotify.Entry)) :
  Spotify.scheduled env s = (r, s', t) ->
  writes t = 0%nat ->
  s' = s.
Proof.
  intros Hrun Hw.
  destruct (get_error (Spotify.platform env)) as [m|] eqn:Hget.
  { rewrite (spotify_scheduled_get_error env s m Hget) in Hrun.
    now inversion Hrun. }
  destruct (Spotify.tooSoon (clock_read (Spotify.platform env))
              (live (clock_read (Spotify.platform env)) s)) eqn:Hsoon.
  { rewrite (spotify_scheduled_skip env s Hget Hsoon) in Hrun.
    now inversion Hrun. }
  rewrite (spotify_scheduled_run env s Hget Hsoon) in Hrun.
  destruct (Spotify.fetchLatest env) as [[newTrack|]|m];
    [destruct (Spotify.tracksEqual _ _)| |];
    try (now inversion Hrun).
  unfold afterPut in Hrun.
  destruct (put_error (Spotify.platform env)); [now inversion Hrun|].
  apply (f_equal snd) in Hrun; cbn [snd] in Hrun.
  rewrite <- Hrun, writes_app, calls_no_write in Hw.
  discriminate.
Qed.

(** C3, as stated, fails for both kinds: two reading-list ticks one minute
    apart both fetch the feed, and two playback ticks one second apart,
    the first of them 120 s after the stored lastRun and finding the track
    unchanged, both call Spotify. *)
Lemma C3_ticks_in_one_window_counterexample :
  run (map (fun env => Goodreads.poll (Goodreads.Tick env))
         [duneTick 60000; duneTick 120000])
      (Some (mkStored duneEntry None))
  = (Some (mkStored duneEntry None),
     [EvGet; EvFetch GoodreadsRSS; EvGet; EvFetch GoodreadsRSS])
  /\ run (map (fun env => Spotify.poll (Spotify.Tick env))
            [sameTrackEnv 120000; sameTrackEnv 121000])
         trackStore
     = (trackStore,
        [EvGet; EvFetch SpotifyToken; EvFetch SpotifyNowPlaying;
         EvGet; EvFetch SpotifyToken; EvFetch SpotifyNowPlaying]).
Proof. split; reflexivity. Qed.

(** C3 (amended): in the playback worker a scheduled tick that reads an
    entry with a lastRun and now - lastRun < 120000 ms is a no-op (only
    the cache read; no upstream call, no put, store unchanged), and so is
    every tick of a run of such ticks; a tick that completes without a
    write leaves the store, hence lastRun, as it was.  The reading-list
    workers have no interval test: every scheduled tick whose cache read
    succeeds performs the upstream fetch. *)
Theorem C3_scheduled_throttle :
  (forall (env : Spotify.Env) (s : Store Spotify.Entry) (c : Spotify.Entry),
      get_error (Spotify.platform env) = None ->
      live (clock_read (Spotify.platform env)) s = Some c ->
      Spotify.lastRun c <> 0 ->
      clock_read (Spotify.platform env) - Spotify.lastRun c < 120000 ->
      Spotify.scheduled env s = (Ok tt, s, [EvGet]))
  /\ (forall (c : Spotify.Entry) (envs : list Spotify.Env)
             (s : Store Spotify.Entry),
         Spotify.lastRun c <> 0 ->
         Forall (fun env =>
                   live (clock_read (Spotify.platform env)) s = Some c
                   /\ clock_read (Spotify.platform env) - Spotify.lastRun c
                      < 120000)
                envs ->
         fst (run (map (fun env => Spotify.poll (Spotify.Tick env)) envs) s)
         = s
         /\ fetches
              (snd (run (map (fun env => Spotify.poll (Spotify.Tick env))
                           envs) s)) = 0%nat
         /\ puts
              (snd (run (map (fun env => Spotify.poll (Spotify.Tick env))
                           envs) s)) = 0%nat)
  /\ (forall (env : Spotify.Env) (s s' : Store Spotify.Entry)
             (r : outcome unit) (t : list (Event Spotify.Entry)),
         Spotify.scheduled env s = (r, s', t) ->
         writes t = 0%nat ->
         s' = s)
  /\ (forall (env : Goodreads.Env) (s : Store Goodreads.Entry),
         get_error (Goodreads.platform env) = None ->
         fetches (snd (Goodreads.scheduled env s)) = 1%nat)
  /\ (forall (env : GoodreadsInline.Env) (s : Store GoodreadsInline.Entry),
         get_error (GoodreadsInline.platform env) = None ->
         fetches (snd (GoodreadsInline.scheduled env s)) = 1%nat).
Proof.
  split; [exact spotify_scheduled_throttled|].
  split; [exact spotify_ticks_throttled|].
  split; [exact spotify_tick_without_write|].
  split; [exact goodreads_tick_fetches | exact inline_tick_fetches].
Qed.

Lemma C3_scheduled_throttle_witness :
  Spotify.scheduled (sameTrackEnv 119999) trackStore
  = (Ok tt, trackStore, [EvGet])
  /\ (fst (run (map (fun env => Spotify.poll (Spotify.Tick env))
                  [sameTrackEnv 30000; sameTrackEnv 60000;
                   sameTrackEnv 119999])
             trackStore) = trackStore
      /\ fetches
           (snd (run (map (fun env => Spotify.poll (Spotify.Tick env))
                        [sameTrackEnv 30000; sameTrackEnv 60000;
                         sameTrackEnv 119999])
                   trackStore)) = 0%nat
      /\ puts
           (snd (run (map (fun env => Spotify.poll (Spotify.Tick env))
                        [sameTrackEnv 30000; sameTrackEnv 60000;
                         sameTrackEnv 119999])
                   trackStore)) = 0%nat)
  /\ fst (fst (Spotify.scheduled (sameTrackEnv 120000) trackStore))
     = Ok tt
     /\ snd (fst (Spotify.scheduled (sameTrackEnv 120000) trackStore))
        = trackStore
  /\ fetches (snd (Goodreads.scheduled (duneTick 60000)
                     (Some (mkStored duneEntry None)))) = 1%nat
  /\ fetches (snd (GoodreadsInline.scheduled
                     (GoodreadsInline.mkEnv (calm (t0 + 60000) (t0 + 60000))
                        (Ok (GoodreadsInline.mkBooks (Some dune))))
                     (Some (mkStored duneInlineEntry None)))) = 1%nat.
Proof.
  destruct C3_scheduled_throttle as [Hskip [Hrun [Hkeep [Hgood Hinline]]]].
  split; [|split; [|split; [|split; [|split]]]].
  - apply (Hskip _ trackStore trackEntry);
      [reflexivity | reflexivity | discriminate | reflexivity].
  - apply (Hrun trackEntry); [discriminate|].
    repeat (apply Forall_cons; [split; reflexivity|]).
    apply Forall_nil.
  - reflexivity.
  - apply (Hkeep (sameTrackEnv 120000) trackStore _ (Ok tt)
             [EvGet; EvFetch SpotifyToken; EvFetch SpotifyNowPlaying]);
      reflexivity.
  - apply Hgood; reflexivity.
  - apply Hinline; reflexivity.
Defined.

(** ** C5: the equality predicates and the write they decide *)

(** When [hasBookChanged] reports no change against a stored book, the
    scheduled handler puts nothing and whatever the on-demand handler puts
    carries the stored data. *)
Lemma goodreads_equal_not_written (request : Request) (env : Goodreads.Env)
      (s : Store Goodreads.Entry) (c : Goodreads.Entry)
      (books : Goodreads.Books) :
  live (clock_read (Goodreads.platform env)) s = Some c ->
  Goodreads.rss env = Ok books ->
  Goodreads.hasBookChanged (Some books) (Goodreads.data c) = false ->
  puts (snd (Goodreads.scheduled env s)) = 0%nat
  /\ (forall e ttl ok,
         In (EvPut e ttl ok) (snd (Goodreads.fetch request env s)) ->
         Goodreads.data e = Goodreads.data c).
Proof.
  intros Hlive Hrss Hsame.
  assert (Hd : JS.is_some (Goodreads.data c) = true).
  { destruct (Goodreads.data c); [reflexivity|].
    cbv in Hsame; discriminate. }
  split.
  - destruct (get_error (Goodreads.platform env)) as [m|] eqn:Hget.
    { now rewrite (goodreads_scheduled_get_error env s m Hget). }
    rewrite (goodreads_scheduled_run env s Hget), Hrss, Hlive; simpl.
    now rewrite Hsame, Hd.
  - intros e ttl ok.
    destruct (String.eqb_spec (method request) "OPTIONS") as [Hopt|Hq].
    { now rewrite (goodreads_fetch_preflight request env s Hopt). }
    destruct (get_error (Goodreads.platform env)) as [m|] eqn:Hget.
    { rewrite (goodreads_fetch_get_error request env s m Hq Hget); simpl.
      intuition discriminate. }
    destruct (Goodreads.cacheValid (clock_read (Goodreads.platform env))
                (live (clock_read (Goodreads.platform env)) s)) eqn:Hvalid.
    { rewrite (goodreads_fetch_valid request env s Hq Hget Hvalid); simpl.
      intuition discriminate. }
    rewrite (goodreads_fetch_stale request env s Hq Hget Hvalid), Hrss, Hlive.
    unfold Goodreads.entryOnDemand, afterPut; simpl.
    rewrite Hsame.
    destruct (put_error (Goodreads.platform env)); simpl;
      intros [H|[H|[H|[]]]]; try discriminate; now inversion H.
Qed.

Lemma inline_equal_not_written (request : Request) (env : GoodreadsInline.Env)
      (s : Store GoodreadsInline.Entry) (c : GoodreadsInline.Entry)
      (books : GoodreadsInline.Books) :
  live (clock_read (GoodreadsInline.platform env)) s = Some c ->
  GoodreadsInline.rss env = Ok books ->
  GoodreadsInline.bookChanged books (GoodreadsInline.data c) = false ->
  puts (snd (GoodreadsInline.scheduled env s)) = 0%nat
  /\ puts (snd (GoodreadsInline.fetch request env s)) = 0%nat.
Proof.
  intros Hlive Hrss Hsame.
  assert (Hd : JS.is_some (GoodreadsInline.data c) = true).
  { destruct (GoodreadsInline.data c); [reflexivity|].
    cbv in Hsame; discriminate. }
  split.
  - destruct (get_error (GoodreadsInline.platform env)) as [m|] eqn:Hget.
    { now rewrite (inline_scheduled_get_error env s m Hget). }
    rewrite (inline_scheduled_run env s Hget), Hrss, Hlive; simpl.
    now rewrite Hsame, Hd.
  - destruct (String.eqb_spec (method request) "OPTIONS") as [Hopt|Hq].
    { now rewrite (inline_fetch_preflight request env s Hopt). }
    destruct (get_error (GoodreadsInline.platform env)) as [m|] eqn:Hget.
    { now rewrite (inline_fetch_get_error request env s m Hq Hget). }
    destruct (GoodreadsInline.cacheValid
                (clock_read (GoodreadsInline.platform env))
                (live (clock_read (GoodreadsInline.platform env)) s))
      eqn:Hvalid.
    { now rewrite (inline_fetch_valid request env s Hq Hget Hvalid). }
    rewrite (inline_fetch_stale request env s Hq Hget Hvalid), Hrss, Hlive.
    simpl.
    now rewrite Hsame, Hd.
Qed.

Lemma spotify_equal_not_written (request : Request) (env : Spotify.Env)
      (s : Store Spotify.Entry) (track : option Spotify.Track) :
  Spotify.fetchLatest env = Ok track ->
  Spotify.tracksEqual track
    (JS.chain_opt (live (clock_read (Spotify.platform env)) s) Spotify.data)
  = true ->
  puts (snd (Spotify.scheduled env s)) = 0%nat
  /\ puts (snd (Spotify.fetch request env s)) = 0%nat.
Proof.
  intros Hfetch Hsame.
  split.
  - destruct (get_error (Spotify.platform env)) as [m|] eqn:Hget.
    { now rewrite (spotify_scheduled_get_error env s m Hget). }
    destruct (Spotify.tooSoon (clock_read (Spotify.platform env))
                (live (clock_read (Spotify.platform env)) s)) eqn:Hsoon.
    { now rewrite (spotify_scheduled_skip env s Hget Hsoon). }
    rewrite (spotify_scheduled_run env s Hget Hsoon), Hfetch.
    destruct track as [newTrack|]; [rewrite Hsame|]; apply calls_no_put.
  - destruct (String.eqb_spec (method request) "OPTIONS") as [Hopt|Hq].
    { now rewrite (spotify_fetch_preflight request env s Hopt). }
    destruct (get_error (Spotify.platform env)) as [m|] eqn:Hget.
    { now rewrite (spotify_fetch_get_error request env s m Hq Hget). }
    destruct (Spotify.cacheValid (clock_read (Spotify.platform env))
                (live (clock_read (Spotify.platform env)) s)) eqn:Hvalid.
    { now rewrite (spotify_fetch_valid request env s Hq Hget Hvalid). }
    rewrite (spotify_fetch_stale request env s Hq Hget Hvalid), Hfetch, Hsame.
    apply calls_no_put.
Qed.

(** C5, as stated, fails for the playback kind: two records whose identity
    key (trackId, isPlaying) is the same and which differ only in the album
    art are judged different when the track carries no id. *)
Lemma C5_tracksEqual_display_counterexample :
  Spotify.trackId localA = Spotify.trackId localB
  /\ Spotify.isPlaying localA = Spotify.isPlaying localB
  /\ Spotify.tracksEqual (Some localA) (Some localB) = false.
Proof. repeat split. Qed.

(** C5 (amended): for the reading-list kind two non-null records are equal
    iff title and author are the same strings (both workers); for the
    playback kind, when both records carry a non-empty trackId they are
    equal iff trackId and isPlaying agree, whatever the display fields, and
    when a trackId is missing the predicate compares every field.  A
    fetched record that the predicate judges equal to the stored one is
    never itself written: the scheduled handlers and the on-demand
    handlers of the inline and playback workers put nothing, and whatever
    the on-demand handler of goodreads-worker.js puts carries the stored
    data. *)
Theorem C5_equality_on_identity_keys :
  (forall (nc ec : Goodreads.Book) (np ep : option Goodreads.Book),
      Goodreads.hasBookChanged
        (Some (Goodreads.mkBooks (Some nc) np))
        (Some (Goodreads.mkBooks (Some ec) ep)) = false
      <-> Goodreads.title nc = Goodreads.title ec
          /\ Goodreads.author nc = Goodreads.author ec)
  /\ (forall nc ec : Goodreads.Book,
         GoodreadsInline.bookChanged
           (GoodreadsInline.mkBooks (Some nc))
           (Some (GoodreadsInline.mkBooks (Some ec))) = false
         <-> Goodreads.title nc = Goodreads.title ec
             /\ Goodreads.author nc = Goodreads.author ec)
  /\ (forall t1 t2 : Spotify.Track,
         JS.truthy_str (Spotify.trackId t1) = true ->
         JS.truthy_str (Spotify.trackId t2) = true ->
         (Spotify.tracksEqual (Some t1) (Some t2) = true
          <-> Spotify.trackId t1 = Spotify.trackId t2
              /\ Spotify.isPlaying t1 = Spotify.isPlaying t2))
  /\ (forall t1 t2 : Spotify.Track,
         JS.truthy_str (Spotify.trackId t1)
         && JS.truthy_str (Spotify.trackId t2) = false ->
         (Spotify.tracksEqual (Some t1) (Some t2) = true <-> t1 = t2))
  /\ (forall (request : Request) (env : Goodreads.Env)
             (s : Store Goodreads.Entry) (c : Goodreads.Entry)
             (books : Goodreads.Books),
         live (clock_read (Goodreads.platform env)) s = Some c ->
         Goodreads.rss env = Ok books ->
         Goodreads.hasBookChanged (Some books) (Goodreads.data c) = false ->
         puts (snd (Goodreads.scheduled env s)) = 0%nat
         /\ (forall e ttl ok,
                In (EvPut e ttl ok) (snd (Goodreads.fetch request env s)) ->
                Goodreads.data e = Goodreads.data c))
  /\ (forall (request : Request) (env : GoodreadsInline.Env)
             (s : Store GoodreadsInline.Entry) (c : GoodreadsInline.Entry)
             (books : GoodreadsInline.Books),
         live (clock_read (GoodreadsInline.platform env)) s = Some c ->
         GoodreadsInline.rss env = Ok books ->
         GoodreadsInline.bookChanged books (GoodreadsInline.data c) = false ->
         puts (snd (GoodreadsInline.scheduled env s)) = 0%nat
         /\ puts (snd (GoodreadsInline.fetch request env s)) = 0%nat)
  /\ (forall (request : Request) (env : Spotify.Env)
             (s : Store Spotify.Entry) (track : option Spotify.Track),
         Spotify.fetchLatest env = Ok track ->
         Spotify.tracksEqual track
           (JS.chain_opt (live (clock_read (Spotify.platform env)) s)
              Spotify.data) = true ->
         puts (snd (Spotify.scheduled env s)) = 0%nat
         /\ puts (snd (Spotify.fetch request env s)) = 0%nat).
Proof.
  split; [exact hasBookChanged_false_iff|].
  split; [exact inline_bookChanged_false_iff|].
  split; [exact tracksEqual_ids|].
  split; [exact tracksEqual_fallback|].
  split; [exact goodreads_equal_not_written|].
  split; [exact inline_equal_not_written | exact spotify_equal_not_written].
Qed.

Lemma C5_equality_witness :
  Spotify.tracksEqual (Some trackA) (Some trackB) = true
  /\ (Spotify.tracksEqual (Some localA) (Some localB) = true
      <-> localA = localB)
  /\ puts (snd (Goodreads.scheduled
                  (Goodreads.mkEnv (calm (t0 + 1800000) (t0 + 1800000))
                     (Ok (Goodreads.mkBooks (Some duneNewCover) None)))
                  (Some (mkStored duneEntry None)))) = 0%nat
  /\ puts (snd (GoodreadsInline.fetch GET
                  (GoodreadsInline.mkEnv (calm (t0 + 3600000) (t0 + 3600000))
                     (Ok (GoodreadsInline.mkBooks (Some duneNewCover))))
                  (Some (mkStored duneInlineEntry None)))) = 0%nat
  /\ puts (snd (Spotify.fetch GET
                  (Spotify.mkEnv (calm (t0 + 60000) (t0 + 60000))
                     (Ok tt) (Ok (Some trackB)) (Ok None))
                  trackStore)) = 0%nat.
Proof.
  destruct C5_equality_on_identity_keys
    as [_ [_ [Hid [Hfb [Hgood [Hinline Hspotify]]]]]].
  split; [|split; [|split; [|split]]].
  - apply (proj2 (Hid trackA trackB eq_refl eq_refl)); split; reflexivity.
  - exact (Hfb localA localB eq_refl).
  - apply (Hgood GET _ _ duneEntry
             (Goodreads.mkBooks (Some duneNewCover) None));
      reflexivity.
  - apply (Hinline GET _ _ duneInlineEntry
             (GoodreadsInline.mkBooks (Some duneNewCover)));
      reflexivity.
  - apply (Hspotify GET _ _ (Some trackB)); reflexivity.
Defined.

(** * Further properties of the handlers *)

(** ** Every request is answered *)

Lemma calls_counts (env : Spotify.Env) :
  reads (EvGet :: Spotify.calls env) = 1%nat
  /\ (fetches (EvGet :: Spotify.calls env) <= 3)%nat
  /\ (1 <= fetches (EvGet :: Spotify.calls env))%nat.
Proof.
  unfold Spotify.calls.
  destruct (Spotify.getAccessToken env); [|repeat split; cbv; lia].
  destruct (Spotify.getNowPlaying env) as [[t|]|m]; repeat split; cbv; lia.
Qed.

Lemma goodreads_fetch_answers (request : Request) (env : Goodreads.Env)
      (s : Store Goodreads.Entry) :
  exists (resp : Goodreads.Response) (s' : Store Goodreads.Entry)
         (t : list (Event Goodreads.Entry)),
    Goodreads.fetch request env s = (Ok resp, s', t)
    /\ (Goodreads.status resp = 200
        \/ (s' = s /\ exists m, resp = Goodreads.failed m))
    /\ (get_error (Goodreads.platform env) = None ->
        put_error (Goodreads.platform env) = None ->
        (forall m, Goodreads.rss env <> Throw m) ->
        Goodreads.status resp = 200).
Proof.
  destruct (String.eqb_spec (method request) "OPTIONS") as [Hopt|Hq].
  { rewrite (goodreads_fetch_preflight request env s Hopt).
    eexists _, _, _; split; [reflexivity|]; split; [now left | reflexivity]. }
  destruct (get_error (Goodreads.platform env)) as [m|] eqn:Hget.
  { rewrite (goodreads_fetch_get_error request env s m Hq Hget).
    eexists _, _, _; split; [reflexivity|]; split; [|discriminate].
    right; split; [reflexivity | now exists m]. }
  destruct (Goodreads.cacheValid (clock_read (Goodreads.platform env))
              (live (clock_read (Goodreads.platform env)) s)) eqn:Hvalid.
  { rewrite (goodreads_fetch_valid request env s Hq Hget Hvalid).
    eexists _, _, _; split; [reflexivity|]; split; [now left | reflexivity]. }
  rewrite (goodreads_fetch_stale request env s Hq Hget Hvalid).
  destruct (Goodreads.rss env) as [books|m].
  - unfold afterPut.
    destruct (put_error (Goodreads.platform env)) as [pm|].
    + eexists _, _, _; split; [reflexivity|]; split; [|discriminate].
      right; split; [reflexivity | now exists pm].
    + eexists _, _, _; split; [reflexivity|]; split; [now left | reflexivity].
  - destruct (JS.chain_opt _ _).
    + eexists _, _, _; split; [reflexivity|]; split; [now left | reflexivity].
    + eexists _, _, _; split; [reflexivity|]; split.
      * right; split; [reflexivity | now exists m].
      * intros _ _ Hok; now destruct (Hok m).
Qed.

Lemma inline_fetch_answers (request : Request) (env : GoodreadsInline.Env)
      (s : Store GoodreadsInline.Entry) :
  exists (resp : GoodreadsInline.Response) (s' : Store GoodreadsInline.Entry)
         (t : list (Event GoodreadsInline.Entry)),
    GoodreadsInline.fetch request env s = (Ok resp, s', t)
    /\ (GoodreadsInline.status resp = 200
        \/ (s' = s /\ exists m, resp = GoodreadsInline.failed m))
    /\ (get_error (GoodreadsInline.platform env) = None ->
        put_error (GoodreadsInline.platform env) = None ->
        (forall m, GoodreadsInline.rss env <> Throw m) ->
        GoodreadsInline.status resp = 200).
Proof.
  destruct (String.eqb_spec (method request) "OPTIONS") as [Hopt|Hq].
  { rewrite (inline_fetch_preflight request env s Hopt).
    eexists _, _, _; split; [reflexivity|]; split; [now left | reflexivity]. }
  destruct (get_error (GoodreadsInline.platform env)) as [m|] eqn:Hget.
  { rewrite (inline_fetch_get_error request env s m Hq Hget).
    eexists _, _, _; split; [reflexivity|]; split; [|discriminate].
    right; split; [reflexivity | now exists m]. }
  destruct (GoodreadsInline.cacheValid
              (clock_read (GoodreadsInline.platform env))
              (live (clock_read (GoodreadsInline.platform env)) s))
    eqn:Hvalid.
  { rewrite (inline_fetch_valid request env s Hq Hget Hvalid).
    eexists _, _, _; split; [reflexivity|]; split; [now left | reflexivity]. }
  rewrite (inline_fetch_stale request env s Hq Hget Hvalid).
  destruct (GoodreadsInline.rss env) as [books|m].
  - destruct (_ || _).
    + unfold afterPut.
      destruct (put_error (GoodreadsInline.platform env)) as [pm|].
      * eexists _, _, _; split; [reflexivity|]; split; [|discriminate].
        right; split; [reflexivity | now exists pm].
      * eexists _, _, _; split; [reflexivity|]; split;
          [now left | reflexivity].
    + eexists _, _, _; split; [reflexivity|]; split; [now left | reflexivity].
  - eexists _, _, _; split; [reflexivity|]; split.
    + right; split; [reflexivity | now exists m].
    + intros _ _ Hok; now destruct (Hok m).
Qed.

Lemma spotify_fetch_answers (request : Request) (env : Spotify.Env)
      (s : Store Spotify.Entry) :
  exists (resp : Spotify.Response) (s' : Store Spotify.Entry)
         (t : list (Event Spotify.Entry)),
    Spotify.fetch request env s = (Ok resp, s', t)
    /\ (Spotify.status resp = 200
        \/ (s' = s /\ exists m, resp = Spotify.failed m))
    /\ (get_error (Spotify.platform env) = None ->
        put_error (Spotify.platform env) = None ->
        (forall m, Spotify.fetchLatest env <> Throw m) ->
        Spotify.status resp = 200).
Proof.
  destruct (String.eqb_spec (method request) "OPTIONS") as [Hopt|Hq].
  { rewrite (spotify_fetch_preflight request env s Hopt).
    eexists _, _, _; split; [reflexivity|]; split; [now left | reflexivity]. }
  destruct (get_error (Spotify.platform env)) as [m|] eqn:Hget.
  { rewrite (spotify_fetch_get_error request env s m Hq Hget).
    eexists _, _, _; split; [reflexivity|]; split; [|discriminate].
    right; split; [reflexivity | now exists m]. }
  destruct (Spotify.cacheValid (clock_read (Spotify.platform env))
              (live (clock_read (Spotify.platform env)) s)) eqn:Hvalid.
  { rewrite (spotify_fetch_valid request env s Hq Hget Hvalid).
    eexists _, _, _; split; [reflexivity|]; split; [now left | reflexivity]. }
  rewrite (spotify_fetch_stale request env s Hq Hget Hvalid).
  destruct (Spotify.fetchLatest env) as [track|m].
  - destruct (Spotify.tracksEqual _ _).
    + eexists _, _, _; split; [reflexivity|]; split; [now left | reflexivity].
    + unfold afterPut.
      destruct (put_error (Spotify.platform env)) as [pm|].
      * eexists _, _, _; split; [reflexivity|]; split; [|discriminate].
        right; split; [reflexivity | now exists pm].
      * eexists _, _, _; split; [reflexivity|]; split;
          [now left | reflexivity].
  - eexists _, _, _; split; [reflexivity|]; split.
    + right; split; [reflexivity | now exists m].
    + intros _ _ Hok; now destruct (Hok m).
Qed.

(** X1: an on-demand request is always answered, whatever the store, the
    clock and the upstream do: the handler never throws, and its response
    is either a 200 or the 500 error object.  An error answer leaves the
    store as it was, and when neither the cache read, nor the upstream
    fetch, nor the put throws, the answer is a 200. *)
Theorem X1_on_demand_always_answers :
  (forall (request : Request) (env : Goodreads.Env)
          (s : Store Goodreads.Entry),
      exists (resp : Goodreads.Response) (s' : Store Goodreads.Entry)
             (t : list (Event Goodreads.Entry)),
        Goodreads.fetch request env s = (Ok resp, s', t)
        /\ (Goodreads.status resp = 200
            \/ (s' = s /\ exists m, resp = Goodreads.failed m))
        /\ (get_error (Goodreads.platform env) = None ->
            put_error (Goodreads.platform env) = None ->
            (forall m, Goodreads.rss env <> Throw m) ->
            Goodreads.status resp = 200))
  /\ (forall (request : Request) (env : GoodreadsInline.Env)
             (s : Store GoodreadsInline.Entry),
         exists (resp : GoodreadsInline.Response)
                (s' : Store GoodreadsInline.Entry)
                (t : list (Event GoodreadsInline.Entry)),
           GoodreadsInline.fetch request env s = (Ok resp, s', t)
           /\ (GoodreadsInline.status resp = 200
               \/ (s' = s /\ exists m, resp = GoodreadsInline.failed m))
           /\ (get_error (GoodreadsInline.platform env) = None ->
               put_error (GoodreadsInline.platform env) = None ->
               (forall m, GoodreadsInline.rss env <> Throw m) ->
               GoodreadsInline.status resp = 200))
  /\ (forall (request : Request) (env : Spotify.Env)
             (s : Store Spotify.Entry),
         exists (resp : Spotify.Response) (s' : Store Spotify.Entry)
                (t : list (Event Spotify.Entry)),
           Spotify.fetch request env s = (Ok resp, s', t)
           /\ (Spotify.status resp = 200
               \/ (s' = s /\ exists m, resp = Spotify.failed m))
           /\ (get_error (Spotify.platform env) = None ->
               put_error (Spotify.platform env) = None ->
               (forall m, Spotify.fetchLatest env <> Throw m) ->
               Spotify.status resp = 200)).
Proof.
  split; [exact goodreads_fetch_answers|].
  split; [exact inline_fetch_answers | exact spotify_fetch_answers].
Qed.

Lemma X1_on_demand_answers_witness :
  Goodreads.status
    (match fst (fst (Goodreads.fetch GET (duneTick 0) None)) with
     | Ok resp => resp
     | Throw m => Goodreads.failed m
     end) = 200
  /\ Spotify.status
       (match fst (fst (Spotify.fetch GET (sameTrackEnv 0) None)) with
        | Ok resp => resp
        | Throw m => Spotify.failed m
        end) = 200.
Proof.
  destruct X1_on_demand_always_answers as [Hg [_ Hs]].
  split.
  - destruct (Hg GET (duneTick 0) None) as [resp [s' [t [Hrun [_ Hok]]]]].
    rewrite Hrun; simpl.
    apply Hok; [reflexivity | reflexivity | discriminate].
  - destruct (Hs GET (sameTrackEnv 0) None) as [resp [s' [t [Hrun [_ Hok]]]]].
    rewrite Hrun; simpl.
    apply Hok; [reflexivity | reflexivity | discriminate].
Defined.

(** ** The operations of one invocation *)

Ltac close_budget :=
  unfold within_budget, afterPut;
  repeat match goal with
         | |- context [put_error ?p] => destruct (put_error p)
         end;
  repeat split;
  first [ cbv; lia | reflexivity | intros Hw; cbv in Hw; discriminate Hw ].

Lemma goodreads_budget (request : Request) (env : Goodreads.Env)
      (s : Store Goodreads.Entry) :
  within_budget 1 s (Goodreads.fetch request env s)
  /\ within_budget 1 s (Goodreads.scheduled env s).
Proof.
  split.
  - destruct (String.eqb_spec (method request) "OPTIONS") as [Hopt|Hq].
    { rewrite (goodreads_fetch_preflight request env s Hopt); close_budget. }
    destruct (get_error (Goodreads.platform env)) as [m|] eqn:Hget.
    { rewrite (goodreads_fetch_get_error request env s m Hq Hget).
      close_budget. }
    destruct (Goodreads.cacheValid (clock_read (Goodreads.platform env))
                (live (clock_read (Goodreads.platform env)) s)) eqn:Hvalid.
    { rewrite (goodreads_fetch_valid request env s Hq Hget Hvalid).
      close_budget. }
    rewrite (goodreads_fetch_stale request env s Hq Hget Hvalid).
    destruct (Goodreads.rss env) as [books|m];
      [|destruct (JS.chain_opt _ _)]; close_budget.
  - destruct (get_error (Goodreads.platform env)) as [m|] eqn:Hget.
    { rewrite (goodreads_scheduled_get_error env s m Hget); close_budget. }
    rewrite (goodreads_scheduled_run env s Hget).
    destruct (Goodreads.rss env) as [books|m];
      [destruct (_ && _)|]; close_budget.
Qed.

Lemma inline_budget (request : Request) (env : GoodreadsInline.Env)
      (s : Store GoodreadsInline.Entry) :
  within_budget 1 s (GoodreadsInline.fetch request env s)
  /\ within_budget 1 s (GoodreadsInline.scheduled env s).
Proof.
  split.
  - destruct (String.eqb_spec (method request) "OPTIONS") as [Hopt|Hq].
    { rewrite (inline_fetch_preflight request env s Hopt); close_budget. }
    destruct (get_error (GoodreadsInline.platform env)) as [m|] eqn:Hget.
    { rewrite (inline_fetch_get_error request env s m Hq Hget).
      close_budget. }
    destruct (GoodreadsInline.cacheValid
                (clock_read (GoodreadsInline.platform env))
                (live (clock_read (GoodreadsInline.platform env)) s))
      eqn:Hvalid.
    { rewrite (inline_fetch_valid request env s Hq Hget Hvalid).
      close_budget. }
    rewrite (inline_fetch_stale request env s Hq Hget Hvalid).
    destruct (GoodreadsInline.rss env) as [books|m];
      [destruct (_ || _)|]; close_budget.
  - destruct (get_error (GoodreadsInline.platform env)) as [m|] eqn:Hget.
    { rewrite (inline_scheduled_get_error env s m Hget); close_budget. }
    rewrite (inline_scheduled_run env s Hget).
    destruct (GoodreadsInline.rss env) as [books|m];
      [destruct (_ && _)|]; close_budget.
Qed.

Lemma spotify_budget (request : Request) (env : Spotify.Env)
      (s : Store Spotify.Entry) :
  within_budget 3 s (Spotify.fetch request env s)
  /\ within_budget 3 s (Spotify.scheduled env s).
Proof.
  split.
  - destruct (String.eqb_spec (method request) "OPTIONS") as [Hopt|Hq].
    { rewrite (spotify_fetch_preflight request env s Hopt); close_budget. }
    destruct (get_error (Spotify.platform env)) as [m|] eqn:Hget.
    { rewrite (spotify_fetch_get_error request env s m Hq Hget).
      close_budget. }
    destruct (Spotify.cacheValid (clock_read (Spotify.platform env))
                (live (clock_read (Spotify.platform env)) s)) eqn:Hvalid.
    { rewrite (spotify_fetch_valid request env s Hq Hget Hvalid).
      close_budget. }
    rewrite (spotify_fetch_stale request env s Hq Hget Hvalid).
    unfold Spotify.fetchLatest, Spotify.calls.
    destruct (Spotify.getAccessToken env) as [[]|m]; [|close_budget].
    destruct (Spotify.getNowPlaying env) as [[t|]|m];
      [destruct (Spotify.tracksEqual _ _)
      |destruct (Spotify.getRecentlyPlayed env) as [track|m];
       [destruct (Spotify.tracksEqual _ _)|]
      |]; close_budget.
  - destruct (get_error (Spotify.platform env)) as [m|] eqn:Hget.
    { rewrite (spotify_scheduled_get_error env s m Hget); close_budget. }
    destruct (Spotify.tooSoon (clock_read (Spotify.platform env))
                (live (clock_read (Spotify.platform env)) s)) eqn:Hsoon.
    { rewrite (spotify_scheduled_skip env s Hget Hsoon); close_budget. }
    rewrite (spotify_scheduled_run env s Hget Hsoon).
    unfold Spotify.fetchLatest, Spotify.calls.
    destruct (Spotify.getAccessToken env) as [[]|m]; [|close_budget].
    destruct (Spotify.getNowPlaying env) as [[t|]|m];
      [destruct (Spotify.tracksEqual _ _)
      |destruct (Spotify.getRecentlyPlayed env) as [[t|]|m];
       [destruct (Spotify.tracksEqual _ _)| |]
      |]; close_budget.
Qed.

(** X2: one invocation of any of the six handlers reads the store at
    most once, attempts at most one put and makes at most one upstream
    call (reading-list workers) or three (playback worker: token, current
    track, most recent track); the store after it differs from the store
    before it only if its put succeeded. *)
Theorem X2_operations_per_invocation :
  (forall (request : Request) (env : Goodreads.Env)
          (s : Store Goodreads.Entry),
      within_budget 1 s (Goodreads.fetch request env s)
      /\ within_budget 1 s (Goodreads.scheduled env s))
  /\ (forall (request : Request) (env : GoodreadsInline.Env)
             (s : Store GoodreadsInline.Entry),
         within_budget 1 s (GoodreadsInline.fetch request env s)
         /\ within_budget 1 s (GoodreadsInline.scheduled env s))
  /\ (forall (request : Request) (env : Spotify.Env)
             (s : Store Spotify.Entry),
         within_budget 3 s (Spotify.fetch request env s)
         /\ within_budget 3 s (Spotify.scheduled env s)).
Proof.
  split; [exact goodreads_budget|].
  split; [exact inline_budget | exact spotify_budget].
Qed.

(** ** A put that fails *)

Lemma goodreads_put_failure (request : Request) (env : Goodreads.Env)
      (s : Store Goodreads.Entry) (m : string) :
  put_error (Goodreads.platform env) = Some m ->
  puts (snd (Goodreads.fetch request env s)) = 1%nat ->
  fst (Goodreads.fetch request env s) = (Ok (Goodreads.failed m), s).
Proof.
  intros Hput.
  destruct (String.eqb_spec (method request) "OPTIONS") as [Hopt|Hq].
  { rewrite (goodreads_fetch_preflight request env s Hopt); discriminate. }
  destruct (get_error (Goodreads.platform env)) as [gm|] eqn:Hget.
  { rewrite (goodreads_fetch_get_error request env s gm Hq Hget).
    discriminate. }
  destruct (Goodreads.cacheValid (clock_read (Goodreads.platform env))
              (live (clock_read (Goodreads.platform env)) s)) eqn:Hvalid.
  { rewrite (goodreads_fetch_valid request env s Hq Hget Hvalid).
    discriminate. }
  rewrite (goodreads_fetch_stale request env s Hq Hget Hvalid).
  destruct (Goodreads.rss env) as [books|fm];
    [|destruct (JS.chain_opt _ _); discriminate].
  unfold afterPut.
  now rewrite Hput.
Qed.

Lemma inline_put_failure (request : Request) (env : GoodreadsInline.Env)
      (s : Store GoodreadsInline.Entry) (m : string) :
  put_error (GoodreadsInline.platform env) = Some m ->
  puts (snd (GoodreadsInline.fetch request env s)) = 1%nat ->
  fst (GoodreadsInline.fetch request env s)
  = (Ok (GoodreadsInline.failed m), s).
Proof.
  intros Hput.
  destruct (String.eqb_spec (method request) "OPTIONS") as [Hopt|Hq].
  { rewrite (inline_fetch_preflight request env s Hopt); discriminate. }
  destruct (get_error (GoodreadsInline.platform env)) as [gm|] eqn:Hget.
  { rewrite (inline_fetch_get_error request env s gm Hq Hget).
    discriminate. }
  destruct (GoodreadsInline.cacheValid
              (clock_read (GoodreadsInline.platform env))
              (live (clock_read (GoodreadsInline.platform env)) s))
    eqn:Hvalid.
  { rewrite (inline_fetch_valid request env s Hq Hget Hvalid).
    discriminate. }
  rewrite (inline_fetch_stale request env s Hq Hget Hvalid).
  destruct (GoodreadsInline.rss env) as [books|fm]; [|discriminate].
  destruct (_ || _); [|discriminate].
  unfold afterPut.
  now rewrite Hput.
Qed.

Lemma spotify_put_failure (request : Request) (env : Spotify.Env)
      (s : Store Spotify.Entry) (m : string) :
  put_error (Spotify.platform env) = Some m ->
  puts (snd (Spotify.fetch request env s)) = 1%nat ->
  fst (Spotify.fetch request env s) = (Ok (Spotify.failed m), s).
Proof.
  intros Hput.
  destruct (String.eqb_spec (method request) "OPTIONS") as [Hopt|Hq].
  { rewrite (spotify_fetch_preflight request env s Hopt); discriminate. }
  destruct (get_error (Spotify.platform env)) as [gm|] eqn:Hget.
  { rewrite (spotify_fetch_get_error request env s gm Hq Hget).
    discriminate. }
  destruct (Spotify.cacheValid (clock_read (Spotify.platform env))
              (live (clock_read (Spotify.platform env)) s)) eqn:Hvalid.
  { rewrite (spotify_fetch_valid request env s Hq Hget Hvalid).
    discriminate. }
  rewrite (spotify_fetch_stale request env s Hq Hget Hvalid).
  destruct (Spotify.fetchLatest env) as [track|fm];
    [destruct (Spotify.tracksEqual _ _)|];
    try (cbn [snd]; rewrite calls_no_put; discriminate).
  unfold afterPut.
  now rewrite Hput.
Qed.

(** X3: when the put of an on-demand request throws, the caller receives
    the 500 error object carrying the store's message, although the
    upstream fetch had succeeded, and the store is left as it was. *)
Theorem X3_failed_put_answers_500 :
  (forall (request : Request) (env : Goodreads.Env)
          (s : Store Goodreads.Entry) (m : string),
      put_error (Goodreads.platform env) = Some m ->
      puts (snd (Goodreads.fetch request env s)) = 1%nat ->
      fst (Goodreads.fetch request env s) = (Ok (Goodreads.failed m), s))
  /\ (forall (request : Request) (env : GoodreadsInline.Env)
             (s : Store GoodreadsInline.Entry) (m : string),
         put_error (GoodreadsInline.platform env) = Some m ->
         puts (snd (GoodreadsInline.fetch request env s)) = 1%nat ->
         fst (GoodreadsInline.fetch request env s)
         = (Ok (GoodreadsInline.failed m), s))
  /\ (forall (request : Request) (env : Spotify.Env)
             (s : Store Spotify.Entry) (m : string),
         put_error (Spotify.platform env) = Some m ->
         puts (snd (Spotify.fetch request env s)) = 1%nat ->
         fst (Spotify.fetch request env s) = (Ok (Spotify.failed m), s)).
Proof.
  split; [exact goodreads_put_failure|].
  split; [exact inline_put_failure | exact spotify_put_failure].
Qed.

Lemma X3_failed_put_witness :
  fst (Goodreads.fetch GET
         (Goodreads.mkEnv
            (mkPlatform t0 t0 None (Some "KV put() limit exceeded"))
            (Ok duneBooks))
         None)
  = (Ok (Goodreads.failed "KV put() limit exceeded"), None)
  /\ fst (GoodreadsInline.fetch GET
            (GoodreadsInline.mkEnv
               (mkPlatform t0 t0 None (Some "KV put() limit exceeded"))
               (Ok (GoodreadsInline.mkBooks (Some dune))))
            None)
     = (Ok (GoodreadsInline.failed "KV put() limit exceeded"), None)
  /\ fst (Spotify.fetch GET
            (Spotify.mkEnv
               (mkPlatform t0 t0 None (Some "KV put() limit exceeded"))
               (Ok tt) (Ok (Some trackA)) (Ok None))
            None)
     = (Ok (Spotify.failed "KV put() limit exceeded"), None).
Proof.
  destruct X3_failed_put_answers_500 as [Hg [Hi Hs]].
  split; [|split].
  - apply Hg; reflexivity.
  - apply Hi; reflexivity.
  - apply Hs; reflexivity.
Defined.

(** ** Invariants of the store over runs of polls *)

Lemma run_preserves {Entry X : Type} (step : X -> Step Entry)
      (P : Store Entry -> Prop) :
  (forall x s, P s -> P (fst (step x s))) ->
  forall xs s, P s -> P (fst (run (map step xs) s)).
Proof.
  intros Hstep xs.
  induction xs as [|x xs IH]; intros s Hs; [exact Hs|].
  simpl.
  specialize (Hstep x s Hs).
  destruct (step x s) as [s1 t1].
  specialize (IH s1 Hstep).
  now destruct (run (map step xs) s1).
Qed.

Lemma stamped_put (track : option Spotify.Track) (ts : Z) (x : option Z) :
  stamped (Some (mkStored (Spotify.mkEntry track ts ts) x)).
Proof. now intros st [= <-]. Qed.

Lemma spotify_poll_stamped (p : Spotify.Poll) (s : Store Spotify.Entry) :
  stamped s -> stamped (fst (Spotify.poll p s)).
Proof.
  intros Hs.
  destruct p as [request env|env]; unfold Spotify.poll, effect.
  - destruct (String.eqb_spec (method request) "OPTIONS") as [Hopt|Hq].
    { now rewrite (spotify_fetch_preflight request env s Hopt). }
    destruct (get_error (Spotify.platform env)) as [m|] eqn:Hget.
    { now rewrite (spotify_fetch_get_error request env s m Hq Hget). }
    destruct (Spotify.cacheValid (clock_read (Spotify.platform env))
                (live (clock_read (Spotify.platform env)) s)) eqn:Hvalid.
    { now rewrite (spotify_fetch_valid request env s Hq Hget Hvalid). }
    rewrite (spotify_fetch_stale request env s Hq Hget Hvalid).
    destruct (Spotify.fetchLatest env) as [track|m];
      [destruct (Spotify.tracksEqual _ _)|]; try exact Hs.
    unfold afterPut.
    destruct (put_error (Spotify.platform env)); [exact Hs|].
    apply stamped_put.
  - destruct (get_error (Spotify.platform env)) as [m|] eqn:Hget.
    { now rewrite (spotify_scheduled_get_error env s m Hget). }
    destruct (Spotify.tooSoon (clock_read (Spotify.platform env))
                (live (clock_read (Spotify.platform env)) s)) eqn:Hsoon.
    { now rewrite (spotify_scheduled_skip env s Hget Hsoon). }
    rewrite (spotify_scheduled_run env s Hget Hsoon).
    destruct (Spotify.fetchLatest env) as [[newTrack|]|m];
      [destruct (Spotify.tracksEqual _ _)| |]; try exact Hs.
    unfold afterPut.
    destruct (put_error (Spotify.platform env)); [exact Hs|].
    apply stamped_put.
Qed.

(** X4: over any run of requests and ticks of the playback worker, a
    store whose entry has lastRun equal to timestamp (the empty store in
    particular) keeps that property: both handlers stamp the two fields
    with the same clock reading, so the freshness window served to callers
    and the interval of the scheduler are always measured from the same
    instant. *)
Theorem X4_lastRun_equals_timestamp (ps : list Spotify.Poll)
        (s : Store Spotify.Entry) :
  stamped s -> stamped (fst (run (map Spotify.poll ps) s)).
Proof.
  apply run_preserves.
  exact spotify_poll_stamped.
Qed.

Lemma X4_lastRun_witness :
  stamped
    (fst (run (map Spotify.poll
                 [Spotify.Tick (sameTrackEnv 0);
                  Spotify.OnDemand GET changeEnv;
                  Spotify.Tick (sameTrackEnv 360000)])
            None)).
Proof.
  apply X4_lastRun_equals_timestamp.
  intros st H; discriminate H.
Defined.

Lemma holdsData_put (books : Goodreads.Books) (ts : Z) :
  holdsData (Some (mkStored (Goodreads.mkEntry (Some books) ts) None)).
Proof.
  intros st [= <-]; split; [reflexivity | now exists books].
Qed.

Lemma goodreads_poll_holdsData (p : Goodreads.Poll)
      (s : Store Goodreads.Entry) :
  holdsData s -> holdsData (fst (Goodreads.poll p s)).
Proof.
  intros Hs.
  destruct p as [request env|env]; unfold Goodreads.poll, effect.
  - destruct (String.eqb_spec (method request) "OPTIONS") as [Hopt|Hq].
    { now rewrite (goodreads_fetch_preflight request env s Hopt). }
    destruct (get_error (Goodreads.platform env)) as [m|] eqn:Hget.
    { now rewrite (goodreads_fetch_get_error request env s m Hq Hget). }
    destruct (Goodreads.cacheValid (clock_read (Goodreads.platform env))
                (live (clock_read (Goodreads.platform env)) s)) eqn:Hvalid.
    { now rewrite (goodreads_fetch_valid request env s Hq Hget Hvalid). }
    rewrite (goodreads_fetch_stale request env s Hq Hget Hvalid).
    destruct (Goodreads.rss env) as [books|m];
      [|now destruct (JS.chain_opt _ _)].
    unfold afterPut.
    destruct (put_error (Goodreads.platform env)); [exact Hs|].
    unfold Goodreads.entryOnDemand; simpl.
    destruct (Goodreads.hasBookChanged _ _) eqn:Hchanged;
      [apply holdsData_put|].
    destruct (live (clock_read (Goodreads.platform env)) s) as [c|];
      [|apply holdsData_put].
    simpl in *.
    destruct (Goodreads.data c) as [eb|].
    + apply holdsData_put.
    + cbv in Hchanged; discriminate.
  - destruct (get_error (Goodreads.platform env)) as [m|] eqn:Hget.
    { now rewrite (goodreads_scheduled_get_error env s m Hget). }
    rewrite (goodreads_scheduled_run env s Hget).
    destruct (Goodreads.rss env) as [books|m]; [|exact Hs].
    destruct (_ && _); [exact Hs|].
    unfold afterPut.
    destruct (put_error (Goodreads.platform env)); [exact Hs|].
    apply holdsData_put.
Qed.

Lemma goodreads_run_holdsData (ps : list Goodreads.Poll) :
  holdsData (fst (run (map Goodreads.poll ps) None)).
Proof.
  apply run_preserves; [exact goodreads_poll_holdsData|].
  intros st H; discriminate H.
Qed.

(** X5: once requests and ticks of goodreads-worker.js, starting from an
    empty store, have cached anything, an upstream failure is never shown
    to a caller whose cache read succeeds: the store holds an entry with
    data, the request is answered 200 with the data of that entry, the
    store is unchanged and the only operations are the cache read and,
    past the freshness window, the failed fetch; nothing is put.  (Every
    entry the worker itself writes holds data and never expires, which is
    what its stale-serving test looks at.) *)
Theorem X5_own_entries_always_served_stale
        (ps : list Goodreads.Poll) (request : Request)
        (env : Goodreads.Env) (m : string) :
  fst (run (map Goodreads.poll ps) None) <> None ->
  method request <> "OPTIONS" ->
  get_error (Goodreads.platform env) = None ->
  Goodreads.rss env = Throw m ->
  exists (st : Stored Goodreads.Entry) (d : Goodreads.Books),
    fst (run (map Goodreads.poll ps) None) = Some st
    /\ Goodreads.data (value st) = Some d
    /\ Goodreads.fetch request env (Some st)
       = (Ok (Goodreads.json (Some d)), Some st,
          if Goodreads.cacheValid (clock_read (Goodreads.platform env))
               (Some (value st))
          then [EvGet]
          else [EvGet; EvFetch GoodreadsRSS]).
Proof.
  intros Hsome Hq Hget Hrss.
  assert (Hdata := goodreads_run_holdsData ps).
  destruct (fst (run (map Goodreads.poll ps) None)) as [st|];
    [|now destruct Hsome].
  destruct (Hdata st eq_refl) as [Hexp [b Hb]].
  assert (Hlive : live (clock_read (Goodreads.platform env)) (Some st)
                  = Some (value st)).
  { simpl; now rewrite Hexp. }
  exists st, b.
  split; [reflexivity|].
  split; [exact Hb|].
  destruct (Goodreads.cacheValid (clock_read (Goodreads.platform env))
              (Some (value st))) eqn:Hvalid.
  - rewrite <- Hlive in Hvalid.
    rewrite (goodreads_fetch_valid request env _ Hq Hget Hvalid).
    now rewrite Hlive; simpl; rewrite Hb.
  - rewrite <- Hlive in Hvalid.
    rewrite (goodreads_fetch_stale request env _ Hq Hget Hvalid).
    now rewrite Hrss, Hlive; simpl; rewrite Hb.
Qed.

Lemma X5_own_entries_witness :
  exists (st : Stored Goodreads.Entry) (d : Goodreads.Books),
    fst (run (map Goodreads.poll
                [Goodreads.Tick (emptyShelfTick 0); hourly 1])
           None) = Some st
    /\ Goodreads.data (value st) = Some d
    /\ Goodreads.fetch GET
         (Goodreads.mkEnv (calm (t0 + 7200000) (t0 + 7200000))
            (Throw "Goodreads RSS returned 503"))
         (Some st)
       = (Ok (Goodreads.json (Some d)), Some st,
          if Goodreads.cacheValid (t0 + 7200000) (Some (value st))
          then [EvGet]
          else [EvGet; EvFetch GoodreadsRSS]).
Proof.
  apply (X5_own_entries_always_served_stale
           [Goodreads.Tick (emptyShelfTick 0); hourly 1] GET
           (Goodreads.mkEnv (calm (t0 + 7200000) (t0 + 7200000))
              (Throw "Goodreads RSS returned 503"))
           "Goodreads RSS returned 503");
    first [discriminate | reflexivity].
Defined.

(** ** Material changes are stored *)

Lemma tracksEqual_material (new old : Spotify.Track) :
  JS.truthy_str (Spotify.trackId new) = true ->
  JS.truthy_str (Spotify.trackId old) = true ->
  Spotify.trackId new <> Spotify.trackId old
  \/ Spotify.isPlaying new <> Spotify.isPlaying old ->
  Spotify.tracksEqual (Some new) (Some old) = false.
Proof.
  intros Hn Ho Hdiff.
  destruct (Spotify.tracksEqual (Some new) (Some old)) eqn:Heq;
    [|reflexivity].
  apply (tracksEqual_ids new old Hn Ho) in Heq.
  destruct Heq as [Hid Hplay].
  now destruct Hdiff.
Qed.

(** X6: in the playback worker, when the cached track and the fetched
    track both carry an id and differ in id or in playing state (a skip, a
    pause, a resume), a request past the freshness window and a tick past
    the interval each store the fetched track, stamped with the current
    time and expiring 300 s later, with exactly one put; the request is
    answered with the fetched track. *)
Theorem X6_pause_or_skip_is_stored
        (request : Request) (env : Spotify.Env) (s : Store Spotify.Entry)
        (c : Spotify.Entry) (new old : Spotify.Track) :
  get_error (Spotify.platform env) = None ->
  put_error (Spotify.platform env) = None ->
  live (clock_read (Spotify.platform env)) s = Some c ->
  Spotify.data c = Some old ->
  Spotify.fetchLatest env = Ok (Some new) ->
  JS.truthy_str (Spotify.trackId new) = true ->
  JS.truthy_str (Spotify.trackId old) = true ->
  Spotify.trackId new <> Spotify.trackId old
  \/ Spotify.isPlaying new <> Spotify.isPlaying old ->
  (method request <> "OPTIONS" ->
   Spotify.cacheValid (clock_read (Spotify.platform env)) (Some c) = false ->
   Spotify.fetch request env s
   = (Ok (Spotify.json (Some new)),
      Some (mkStored
              (Spotify.mkEntry (Some new)
                 (clock_write (Spotify.platform env))
                 (clock_write (Spotify.platform env)))
              (Some (clock_write (Spotify.platform env) + 300 * 1000))),
      (EvGet :: Spotify.calls env)
      ++ [EvPut (Spotify.mkEntry (Some new)
                   (clock_write (Spotify.platform env))
                   (clock_write (Spotify.platform env)))
            (Some 300) true]))
  /\ (Spotify.tooSoon (clock_read (Spotify.platform env)) (Some c) = false ->
      Spotify.scheduled env s
      = (Ok tt,
         Some (mkStored
                 (Spotify.mkEntry (Some new)
                    (clock_read (Spotify.platform env))
                    (clock_read (Spotify.platform env)))
                 (Some (clock_write (Spotify.platform env) + 300 * 1000))),
         (EvGet :: Spotify.calls env)
         ++ [EvPut (Spotify.mkEntry (Some new)
                      (clock_read (Spotify.platform env))
                      (clock_read (Spotify.platform env)))
               (Some 300) true])).
Proof.
  intros Hget Hput Hlive Hd Hfetch Hn Ho Hdiff.
  assert (Hneq := tracksEqual_material new old Hn Ho Hdiff).
  split.
  - intros Hq Hstale.
    rewrite (spotify_fetch_stale request env s Hq Hget)
      by (now rewrite Hlive).
    rewrite Hfetch, Hlive; simpl.
    rewrite Hd, Hneq.
    unfold afterPut.
    now rewrite Hput.
  - intros Hsoon.
    rewrite (spotify_scheduled_run env s Hget) by (now rewrite Hlive).
    rewrite Hfetch, Hlive; simpl.
    rewrite Hd, Hneq.
    unfold afterPut.
    now rewrite Hput.
Qed.

Lemma X6_pause_witness :
  Spotify.fetch GET pausedEnv trackStore
  = (Ok (Spotify.json (Some trackAPaused)),
     Some (mkStored
             (Spotify.mkEntry (Some trackAPaused) (t0 + 120001)
                (t0 + 120001))
             (Some (t0 + 120001 + 300 * 1000))),
     [EvGet; EvFetch SpotifyToken; EvFetch SpotifyNowPlaying;
      EvFetch SpotifyRecentlyPlayed;
      EvPut (Spotify.mkEntry (Some trackAPaused) (t0 + 120001)
               (t0 + 120001)) (Some 300) true])
  /\ Spotify.scheduled pausedEnv trackStore
     = (Ok tt,
        Some (mkStored
                (Spotify.mkEntry (Some trackAPaused) (t0 + 120000)
                   (t0 + 120000))
                (Some (t0 + 120001 + 300 * 1000))),
        [EvGet; EvFetch SpotifyToken; EvFetch SpotifyNowPlaying;
         EvFetch SpotifyRecentlyPlayed;
         EvPut (Spotify.mkEntry (Some trackAPaused) (t0 + 120000)
                  (t0 + 120000)) (Some 300) true]).
Proof.
  assert (H : Spotify.trackId trackAPaused <> Spotify.trackId trackA
              \/ Spotify.isPlaying trackAPaused <> Spotify.isPlaying trackA)
    by (right; discriminate).
  destruct (X6_pause_or_skip_is_stored GET pausedEnv trackStore trackEntry
              trackAPaused trackA eq_refl eq_refl eq_refl eq_refl eq_refl
              eq_refl eq_refl H) as [Hfetch Hsched].
  split.
  - apply Hfetch; [discriminate | reflexivity].
  - apply Hsched; reflexivity.
Defined.

Lemma hasBookChanged_differs (books eb : Goodreads.Books)
      (nc ec : Goodreads.Book) :
  Goodreads.current books = Some nc ->
  Goodreads.current eb = Some ec ->
  Goodreads.title nc <> Goodreads.title ec
  \/ Goodreads.author nc <> Goodreads.author ec ->
  Goodreads.hasBookChanged (Some books) (Some eb) = true.
Proof.
  intros Hn He Hdiff.
  destruct (Goodreads.hasBookChanged (Some books) (Some eb)) eqn:Hc;
    [reflexivity|].
  destruct books as [nb np], eb as [eb' ep]; simpl in *; subst.
  apply hasBookChanged_false_iff in Hc.
  destruct Hc; now destruct Hdiff.
Qed.

Lemma inline_bookChanged_differs (books eb : GoodreadsInline.Books)
      (nc ec : Goodreads.Book) :
  GoodreadsInline.current books = Some nc ->
  GoodreadsInline.current eb = Some ec ->
  Goodreads.title nc <> Goodreads.title ec
  \/ Goodreads.author nc <> Goodreads.author ec ->
  GoodreadsInline.bookChanged books (Some eb) = true.
Proof.
  intros Hn He Hdiff.
  destruct (GoodreadsInline.bookChanged books (Some eb)) eqn:Hc;
    [reflexivity|].
  destruct books as [nb], eb as [eb']; simpl in *; subst.
  apply inline_bookChanged_false_iff in Hc.
  destruct Hc; now destruct Hdiff.
Qed.

(** X7: in both reading-list workers, when the fetched book differs from
    the cached one in title or in author, a request past the freshness
    window and a scheduled tick each replace the stored record by the
    fetched one under the current time, with exactly one put; the request
    is answered with the fetched record. *)
Theorem X7_new_book_is_stored :
  (forall (request : Request) (env : Goodreads.Env)
          (s : Store Goodreads.Entry) (c : Goodreads.Entry)
          (books eb : Goodreads.Books) (nc ec : Goodreads.Book),
      get_error (Goodreads.platform env) = None ->
      put_error (Goodreads.platform env) = None ->
      live (clock_read (Goodreads.platform env)) s = Some c ->
      Goodreads.data c = Some eb ->
      Goodreads.current eb = Some ec ->
      Goodreads.rss env = Ok books ->
      Goodreads.current books = Some nc ->
      Goodreads.title nc <> Goodreads.title ec
      \/ Goodreads.author nc <> Goodreads.author ec ->
      (method request <> "OPTIONS" ->
       Goodreads.cacheValid (clock_read (Goodreads.platform env)) (Some c)
       = false ->
       Goodreads.fetch request env s
       = (Ok (Goodreads.json (Some books)),
          Some (mkStored
                  (Goodreads.mkEntry (Some books)
                     (clock_write (Goodreads.platform env))) None),
          [EvGet; EvFetch GoodreadsRSS;
           EvPut (Goodreads.mkEntry (Some books)
                    (clock_write (Goodreads.platform env))) None true]))
      /\ Goodreads.scheduled env s
         = (Ok tt,
            Some (mkStored
                    (Goodreads.mkEntry (Some books)
                       (clock_write (Goodreads.platform env))) None),
            [EvGet; EvFetch GoodreadsRSS;
             EvPut (Goodreads.mkEntry (Some books)
                      (clock_write (Goodreads.platform env))) None true]))
  /\ (forall (request : Request) (env : GoodreadsInline.Env)
             (s : Store GoodreadsInline.Entry) (c : GoodreadsInline.Entry)
             (books eb : GoodreadsInline.Books) (nc ec : Goodreads.Book),
         get_error (GoodreadsInline.platform env) = None ->
         put_error (GoodreadsInline.platform env) = None ->
         live (clock_read (GoodreadsInline.platform env)) s = Some c ->
         GoodreadsInline.data c = Some eb ->
         GoodreadsInline.current eb = Some ec ->
         GoodreadsInline.rss env = Ok books ->
         GoodreadsInline.current books = Some nc ->
         Goodreads.title nc <> Goodreads.title ec
         \/ Goodreads.author nc <> Goodreads.author ec ->
         (method request <> "OPTIONS" ->
          GoodreadsInline.cacheValid
            (clock_read (GoodreadsInline.platform env)) (Some c) = false ->
          GoodreadsInline.fetch request env s
          = (Ok (GoodreadsInline.json (Some books)),
             Some (mkStored
                     (GoodreadsInline.mkEntry (Some books)
                        (clock_write (GoodreadsInline.platform env))) None),
             [EvGet; EvFetch GoodreadsRSS;
              EvPut (GoodreadsInline.mkEntry (Some books)
                       (clock_write (GoodreadsInline.platform env)))
                None true]))
         /\ GoodreadsInline.scheduled env s
            = (Ok tt,
               Some (mkStored
                       (GoodreadsInline.mkEntry (Some books)
                          (clock_write (GoodreadsInline.platform env)))
                       None),
               [EvGet; EvFetch GoodreadsRSS;
                EvPut (GoodreadsInline.mkEntry (Some books)
                         (clock_write (GoodreadsInline.platform env)))
                  None true])).
Proof.
  split.
  - intros request env s c books eb nc ec Hget Hput Hlive Hd He Hrss Hn Hdiff.
    assert (Hc := hasBookChanged_differs books eb nc ec Hn He Hdiff).
    split.
    + intros Hq Hstale.
      rewrite (goodreads_fetch_stale request env s Hq Hget)
        by (now rewrite Hlive).
      rewrite Hrss, Hlive.
      unfold Goodreads.entryOnDemand, afterPut; simpl.
      now rewrite Hd, Hc, Hput.
    + rewrite (goodreads_scheduled_run env s Hget), Hrss, Hlive; simpl.
      rewrite Hd, Hc; simpl.
      unfold afterPut.
      now rewrite Hput.
  - intros request env s c books eb nc ec Hget Hput Hlive Hd He Hrss Hn Hdiff.
    assert (Hc := inline_bookChanged_differs books eb nc ec Hn He Hdiff).
    split.
    + intros Hq Hstale.
      rewrite (inline_fetch_stale request env s Hq Hget)
        by (now rewrite Hlive).
      rewrite Hrss, Hlive; simpl.
      rewrite Hd, Hc; simpl.
      unfold afterPut.
      now rewrite Hput.
    + rewrite (inline_scheduled_run env s Hget), Hrss, Hlive; simpl.
      rewrite Hd, Hc; simpl.
      unfold afterPut.
      now rewrite Hput.
Qed.

Lemma X7_new_book_witness :
  Goodreads.scheduled
    (Goodreads.mkEnv (calm (t0 + 1800000) (t0 + 1800001))
       (Ok (Goodreads.mkBooks (Some hyperion) (Some dune))))
    (Some (mkStored duneEntry None))
  = (Ok tt,
     Some (mkStored
             (Goodreads.mkEntry
                (Some (Goodreads.mkBooks (Some hyperion) (Some dune)))
                (t0 + 1800001)) None),
     [EvGet; EvFetch GoodreadsRSS;
      EvPut (Goodreads.mkEntry
               (Some (Goodreads.mkBooks (Some hyperion) (Some dune)))
               (t0 + 1800001)) None true])
  /\ GoodreadsInline.fetch GET
       (GoodreadsInline.mkEnv (calm (t0 + 3600000) (t0 + 3600001))
          (Ok (GoodreadsInline.mkBooks (Some hyperion))))
       (Some (mkStored duneInlineEntry None))
     = (Ok (GoodreadsInline.json
              (Some (GoodreadsInline.mkBooks (Some hyperion)))),
        Some (mkStored
                (GoodreadsInline.mkEntry
                   (Some (GoodreadsInline.mkBooks (Some hyperion)))
                   (t0 + 3600001)) None),
        [EvGet; EvFetch GoodreadsRSS;
         EvPut (GoodreadsInline.mkEntry
                  (Some (GoodreadsInline.mkBooks (Some hyperion)))
                  (t0 + 3600001)) None true]).
Proof.
  assert (H : Goodreads.title hyperion <> Goodreads.title dune
              \/ Goodreads.author hyperion <> Goodreads.author dune)
    by (left; discriminate).
  destruct X7_new_book_is_stored as [Hg Hi].
  split.
  - apply (Hg GET
             (Goodreads.mkEnv (calm (t0 + 1800000) (t0 + 1800001))
                (Ok (Goodreads.mkBooks (Some hyperion) (Some dune))))
             (Some (mkStored duneEntry None)) duneEntry
             (Goodreads.mkBooks (Some hyperion) (Some dune))
             (Goodreads.mkBooks (Some dune) None) hyperion dune
             eq_refl eq_refl eq_refl eq_refl eq_refl eq_refl eq_refl H).
  - apply (Hi GET
             (GoodreadsInline.mkEnv (calm (t0 + 3600000) (t0 + 3600001))
                (Ok (GoodreadsInline.mkBooks (Some hyperion))))
             (Some (mkStored duneInlineEntry None)) duneInlineEntry
             (GoodreadsInline.mkBooks (Some hyperion))
             (GoodreadsInline.mkBooks (Some dune)) hyperion dune
             eq_refl eq_refl eq_refl eq_refl eq_refl eq_refl eq_refl H);
      [discriminate | reflexivity].
Defined.

(** ** The first poll on an empty store *)

(** X8: on an empty store, a request (not the preflight) or a tick of
    either reading-list worker stores whatever the feed returned, an empty
    shelf included, and the request is answered with it; the playback
    worker stores a fetched track but, when Spotify has nothing to
    report, puts nothing, leaves the store empty and answers null. *)
Theorem X8_first_poll_on_empty_store :
  (forall (request : Request) (env : Goodreads.Env)
          (s : Store Goodreads.Entry) (books : Goodreads.Books),
      get_error (Goodreads.platform env) = None ->
      put_error (Goodreads.platform env) = None ->
      live (clock_read (Goodreads.platform env)) s = None ->
      Goodreads.rss env = Ok books ->
      (method request <> "OPTIONS" ->
       Goodreads.fetch request env s
       = (Ok (Goodreads.json (Some books)),
          Some (mkStored
                  (Goodreads.mkEntry (Some books)
                     (clock_write (Goodreads.platform env))) None),
          [EvGet; EvFetch GoodreadsRSS;
           EvPut (Goodreads.mkEntry (Some books)
                    (clock_write (Goodreads.platform env))) None true]))
      /\ Goodreads.scheduled env s
         = (Ok tt,
            Some (mkStored
                    (Goodreads.mkEntry (Some books)
                       (clock_write (Goodreads.platform env))) None),
            [EvGet; EvFetch GoodreadsRSS;
             EvPut (Goodreads.mkEntry (Some books)
                      (clock_write (Goodreads.platform env))) None true]))
  /\ (forall (request : Request) (env : GoodreadsInline.Env)
             (s : Store GoodreadsInline.Entry)
             (books : GoodreadsInline.Books),
         get_error (GoodreadsInline.platform env) = None ->
         put_error (GoodreadsInline.platform env) = None ->
         live (clock_read (GoodreadsInline.platform env)) s = None ->
         GoodreadsInline.rss env = Ok books ->
         (method request <> "OPTIONS" ->
          GoodreadsInline.fetch request env s
          = (Ok (GoodreadsInline.json (Some books)),
             Some (mkStored
                     (GoodreadsInline.mkEntry (Some books)
                        (clock_write (GoodreadsInline.platform env))) None),
             [EvGet; EvFetch GoodreadsRSS;
              EvPut (GoodreadsInline.mkEntry (Some books)
                       (clock_write (GoodreadsInline.platform env)))
                None true]))
         /\ GoodreadsInline.scheduled env s
            = (Ok tt,
               Some (mkStored
                       (GoodreadsInline.mkEntry (Some books)
                          (clock_write (GoodreadsInline.platform env)))
                       None),
               [EvGet; EvFetch GoodreadsRSS;
                EvPut (GoodreadsInline.mkEntry (Some books)
                         (clock_write (GoodreadsInline.platform env)))
                  None true]))
  /\ (forall (request : Request) (env : Spotify.Env)
             (s : Store Spotify.Entry),
         get_error (Spotify.platform env) = None ->
         live (clock_read (Spotify.platform env)) s = None ->
         Spotify.fetchLatest env = Ok None ->
         (method request <> "OPTIONS" ->
          Spotify.fetch request env s
          = (Ok (Spotify.json None), s, EvGet :: Spotify.calls env))
         /\ Spotify.scheduled env s = (Ok tt, s, EvGet :: Spotify.calls env))
  /\ (forall (request : Request) (env : Spotify.Env)
             (s : Store Spotify.Entry) (track : Spotify.Track),
         get_error (Spotify.platform env) = None ->
         put_error (Spotify.platform env) = None ->
         live (clock_read (Spotify.platform env)) s = None ->
         Spotify.fetchLatest env = Ok (Some track) ->
         (method request <> "OPTIONS" ->
          snd (fst (Spotify.fetch request env s))
          = Some (mkStored
                    (Spotify.mkEntry (Some track)
                       (clock_write (Spotify.platform env))
                       (clock_write (Spotify.platform env)))
                    (Some (clock_write (Spotify.platform env) + 300 * 1000))))
         /\ snd (fst (Spotify.scheduled env s))
            = Some (mkStored
                      (Spotify.mkEntry (Some track)
                         (clock_read (Spotify.platform env))
                         (clock_read (Spotify.platform env)))
                      (Some (clock_write (Spotify.platform env)
                             + 300 * 1000)))).
Proof.
  split; [|split; [|split]].
  - intros request env s books Hget Hput Hlive Hrss.
    split.
    + intros Hq.
      rewrite (goodreads_fetch_stale request env s Hq Hget)
        by (now rewrite Hlive).
      rewrite Hrss, Hlive.
      unfold afterPut.
      now rewrite Hput.
    + rewrite (goodreads_scheduled_run env s Hget), Hrss, Hlive.
      unfold afterPut.
      now rewrite Hput.
  - intros request env s books Hget Hput Hlive Hrss.
    split.
    + intros Hq.
      rewrite (inline_fetch_stale request env s Hq Hget)
        by (now rewrite Hlive).
      rewrite Hrss, Hlive.
      unfold afterPut.
      now rewrite Hput.
    + rewrite (inline_scheduled_run env s Hget), Hrss, Hlive.
      unfold afterPut.
      now rewrite Hput.
  - intros request env s Hget Hlive Hfetch.
    split.
    + intros Hq.
      rewrite (spotify_fetch_stale request env s Hq Hget)
        by (now rewrite Hlive).
      now rewrite Hfetch, Hlive.
    + rewrite (spotify_scheduled_run env s Hget) by (now rewrite Hlive).
      now rewrite Hfetch.
  - intros request env s track Hget Hput Hlive Hfetch.
    split.
    + intros Hq.
      rewrite (spotify_fetch_stale request env s Hq Hget)
        by (now rewrite Hlive).
      rewrite Hfetch, Hlive.
      unfold afterPut.
      now rewrite Hput.
    + rewrite (spotify_scheduled_run env s Hget) by (now rewrite Hlive).
      rewrite Hfetch, Hlive.
      unfold afterPut.
      now rewrite Hput.
Qed.

Lemma X8_first_poll_witness :
  Goodreads.scheduled (emptyShelfTick 0) None
  = (Ok tt,
     Some (mkStored
             (Goodreads.mkEntry (Some (Goodreads.mkBooks None None)) (t0 + 0))
             None),
     [EvGet; EvFetch GoodreadsRSS;
      EvPut (Goodreads.mkEntry (Some (Goodreads.mkBooks None None)) (t0 + 0))
        None true])
  /\ GoodreadsInline.fetch GET emptyShelfEnv None
     = (Ok (GoodreadsInline.json (Some (GoodreadsInline.mkBooks None))),
        Some (mkStored
                (GoodreadsInline.mkEntry
                   (Some (GoodreadsInline.mkBooks None)) (t0 + 3600001))
                None),
        [EvGet; EvFetch GoodreadsRSS;
         EvPut (GoodreadsInline.mkEntry
                  (Some (GoodreadsInline.mkBooks None)) (t0 + 3600001))
           None true])
  /\ Spotify.fetch GET silentEnv None
     = (Ok (Spotify.json None), None,
        [EvGet; EvFetch SpotifyToken; EvFetch SpotifyNowPlaying;
         EvFetch SpotifyRecentlyPlayed])
  /\ snd (fst (Spotify.scheduled (sameTrackEnv 0) None))
     = Some (mkStored (Spotify.mkEntry (Some trackA) (t0 + 0) (t0 + 0))
               (Some (t0 + 0 + 300 * 1000))).
Proof.
  destruct X8_first_poll_on_empty_store as [Hg [Hi [Hnull Htrack]]].
  split; [|split; [|split]].
  - apply (Hg GET (emptyShelfTick 0) None (Goodreads.mkBooks None None));
      reflexivity.
  - apply (Hi GET emptyShelfEnv None (GoodreadsInline.mkBooks None));
      first [discriminate | reflexivity].
  - apply (Hnull GET silentEnv None); first [discriminate | reflexivity].
  - apply (Htrack GET (sameTrackEnv 0) None trackA); reflexivity.
Defined.

(** ** What later requests see *)

(** X9: in goodreads-worker.js, after a request that fetched the same
    book with changed display fields, the caller of that request has
    received the fresh record, but every request in the hour that follows
    is served from the cache the record that was stored before, without
    any upstream fetch: the refresh extended the life of the old data. *)
Theorem X9_fresh_answer_then_old_record
        (request1 request2 : Request) (env1 env2 : Goodreads.Env)
        (s : Store Goodreads.Entry) (c : Goodreads.Entry)
        (books eb : Goodreads.Books) (nc ec : Goodreads.Book) :
  method request1 <> "OPTIONS" ->
  get_error (Goodreads.platform env1) = None ->
  put_error (Goodreads.platform env1) = None ->
  live (clock_read (Goodreads.platform env1)) s = Some c ->
  Goodreads.cacheValid (clock_read (Goodreads.platform env1)) (Some c)
  = false ->
  Goodreads.data c = Some eb ->
  Goodreads.current eb = Some ec ->
  Goodreads.rss env1 = Ok books ->
  Goodreads.current books = Some nc ->
  Goodreads.title nc = Goodreads.title ec ->
  Goodreads.author nc = Goodreads.author ec ->
  method request2 <> "OPTIONS" ->
  get_error (Goodreads.platform env2) = None ->
  clock_write (Goodreads.platform env1) <> 0 ->
  clock_read (Goodreads.platform env2)
  - clock_write (Goodreads.platform env1) < 3600000 ->
  fst (fst (Goodreads.fetch request1 env1 s))
  = Ok (Goodreads.json (Some books))
  /\ Goodreads.fetch request2 env2
       (snd (fst (Goodreads.fetch request1 env1 s)))
     = (Ok (Goodreads.json (Some eb)),
        snd (fst (Goodreads.fetch request1 env1 s)), [EvGet]).
Proof.
  intros Hq1 Hget1 Hput1 Hlive Hstale Hd He Hrss Hn Ht Ha Hq2 Hget2 Hcw Hage.
  rewrite (goodreads_fetch_stale request1 env1 s Hq1 Hget1)
    by (now rewrite Hlive).
  rewrite Hrss, Hlive.
  rewrite (entryOnDemand_unchanged env1 c books eb nc ec Hd He Hn Ht Ha).
  unfold afterPut.
  rewrite Hput1, Hd.
  split; [reflexivity|].
  cbn [fst snd].
  apply (goodreads_fetch_fresh request2 Hq2 env2 _
           (Goodreads.mkEntry (Some eb)
              (clock_write (Goodreads.platform env1))));
    [assumption | reflexivity | assumption | assumption].
Qed.

Lemma X9_fresh_then_old_witness :
  fst (fst (Goodreads.fetch GET
              (Goodreads.mkEnv (calm (t0 + 3600000) (t0 + 3600001))
                 (Ok (Goodreads.mkBooks (Some duneNewCover) None)))
              (Some (mkStored duneEntry None))))
  = Ok (Goodreads.json (Some (Goodreads.mkBooks (Some duneNewCover) None)))
  /\ Goodreads.fetch GET
       (Goodreads.mkEnv (calm (t0 + 7200000) (t0 + 7200000))
          (Ok (Goodreads.mkBooks (Some duneNewCover) None)))
       (snd (fst (Goodreads.fetch GET
                    (Goodreads.mkEnv (calm (t0 + 3600000) (t0 + 3600001))
                       (Ok (Goodreads.mkBooks (Some duneNewCover) None)))
                    (Some (mkStored duneEntry None)))))
     = (Ok (Goodreads.json (Some (Goodreads.mkBooks (Some dune) None))),
        snd (fst (Goodreads.fetch GET
                    (Goodreads.mkEnv (calm (t0 + 3600000) (t0 + 3600001))
                       (Ok (Goodreads.mkBooks (Some duneNewCover) None)))
                    (Some (mkStored duneEntry None)))),
        [EvGet]).
Proof.
  apply (X9_fresh_answer_then_old_record GET GET
           (Goodreads.mkEnv (calm (t0 + 3600000) (t0 + 3600001))
              (Ok (Goodreads.mkBooks (Some duneNewCover) None)))
           (Goodreads.mkEnv (calm (t0 + 7200000) (t0 + 7200000))
              (Ok (Goodreads.mkBooks (Some duneNewCover) None)))
           (Some (mkStored duneEntry None)) duneEntry
           (Goodreads.mkBooks (Some duneNewCover) None)
           (Goodreads.mkBooks (Some dune) None) duneNewCover dune);
    first [discriminate | reflexivity].
Defined.

(** X10: in the inline reading-list worker an entry that has outlived the
    freshness window never becomes fresh again while the book stays the
    same: every request of a run of such requests goes to the feed, none
    writes, and the store is left as it was. *)
Theorem X10_stale_entry_keeps_fetching
        (c : GoodreadsInline.Entry) (books : GoodreadsInline.Books)
        (reqs : list (Request * GoodreadsInline.Env)) :
  GoodreadsInline.bookChanged books (GoodreadsInline.data c) = false ->
  Forall (staleRequest c books) reqs ->
  run (map (fun re => GoodreadsInline.poll
                        (GoodreadsInline.OnDemand (fst re) (snd re))) reqs)
      (Some (mkStored c None))
  = (Some (mkStored c None),
     concat (map (fun _ => [EvGet; EvFetch GoodreadsRSS]) reqs)).
Proof.
  intros Hsame Hall.
  assert (Hd : JS.is_some (GoodreadsInline.data c) = true).
  { destruct (GoodreadsInline.data c); [reflexivity|].
    cbv in Hsame; discriminate. }
  induction Hall as [|[request env] reqs [Hq [Hget [Hrss Hstale]]] _ IH];
    [reflexivity|].
  simpl in *.
  unfold effect at 1.
  rewrite (inline_fetch_stale request env _ Hq Hget) by exact Hstale.
  rewrite Hrss; simpl.
  rewrite Hsame, Hd; simpl.
  now rewrite IH.
Qed.

Lemma X10_stale_entry_witness :
  run (map (fun re => GoodreadsInline.poll
                        (GoodreadsInline.OnDemand (fst re) (snd re)))
         [(GET, GoodreadsInline.mkEnv (calm (t0 + 3600000) (t0 + 3600000))
                  (Ok (GoodreadsInline.mkBooks (Some duneNewCover))));
          (GET, GoodreadsInline.mkEnv (calm (t0 + 3600500) (t0 + 3600500))
                  (Ok (GoodreadsInline.mkBooks (Some duneNewCover))))])
      (Some (mkStored duneInlineEntry None))
  = (Some (mkStored duneInlineEntry None),
     [EvGet; EvFetch GoodreadsRSS; EvGet; EvFetch GoodreadsRSS]).
Proof.
  apply (X10_stale_entry_keeps_fetching duneInlineEntry
           (GoodreadsInline.mkBooks (Some duneNewCover))); [reflexivity|].
  repeat (apply Forall_cons;
          [split; [discriminate | repeat split]|]).
  apply Forall_nil.
Defined.

(** * The feed parser and the network layer of the reading-list workers *)

Section Parser.

Local Open Scope string_scope.

(** ** Prefixes, occurrences and the three scans *)

Lemma prefix_empty (s : string) : String.prefix "" s = true.
Proof. now destruct s. Qed.

Lemma prefix_app_long (p x r : string) :
  (String.length p <= String.length x)%nat ->
  String.prefix p (x ++ r) = String.prefix p x.
Proof.
  revert x.
  induction p as [|a p IH]; intros x Hlen; [now rewrite !prefix_empty|].
  destruct x as [|b x]; simpl in *; [lia|].
  destruct (ascii_dec a b); [|reflexivity].
  apply IH; lia.
Qed.

Lemma prefix_self_app (p r : string) : String.prefix p (p ++ r) = true.
Proof.
  induction p as [|a p IH]; simpl; [apply prefix_empty|].
  now destruct (ascii_dec a a).
Qed.

Lemma index_none_prefix (p s : string) :
  String.index 0 p s = None -> String.prefix p s = false.
Proof.
  destruct s as [|c s]; cbn [String.index].
  - now destruct p.
  - now destruct (String.prefix p (String c s)).
Qed.

Lemma index_none_tail (p : string) (c : ascii) (s : string) :
  String.index 0 p (String c s) = None -> String.index 0 p s = None.
Proof.
  cbn [String.index].
  destruct (String.prefix p (String c s)); [discriminate|].
  now destruct (String.index 0 p s).
Qed.

Lemma index_none_drop (p s : string) (n : nat) :
  p <> "" -> String.index 0 p s = None ->
  String.index 0 p (Rss.drop n s) = None.
Proof.
  intros Hp.
  revert s.
  induction n as [|n IH]; intros s Hs; [exact Hs|].
  destruct s as [|c s]; simpl.
  - now destruct p.
  - apply IH.
    now apply index_none_tail with c.
Qed.

Lemma matchItems_none (xml : string) (skip : nat) :
  String.index 0 "<item>" xml = None \/ String.index 0 "</item>" xml = None ->
  Rss.matchItems skip xml = [].
Proof.
  revert skip.
  induction xml as [|c xml IH]; intros skip Hnone; [reflexivity|].
  assert (Htail : String.index 0 "<item>" xml = None
                  \/ String.index 0 "</item>" xml = None).
  { destruct Hnone as [H|H]; [left|right]; now apply index_none_tail with c. }
  cbn [Rss.matchItems].
  destruct skip as [|k]; [|now apply IH].
  destruct Hnone as [Hopen|Hclose].
  - rewrite (index_none_prefix _ _ Hopen).
    now apply IH.
  - destruct (String.prefix "<item>" (String c xml)); [|now apply IH].
    rewrite (index_none_drop "</item>" (String c xml) 6) by
        (assumption || discriminate).
    now apply IH.
Qed.

Lemma str_length_app (a b : string) :
  String.length (a ++ b) = (String.length a + String.length b)%nat.
Proof. induction a as [|c a IH]; simpl; [reflexivity | now rewrite IH]. Qed.

Lemma str_app_assoc (a b c : string) : (a ++ b) ++ c = a ++ b ++ c.
Proof. induction a as [|x a IH]; simpl; [reflexivity | now rewrite IH]. Qed.

Lemma drop_app (x r : string) : Rss.drop (String.length x) (x ++ r) = r.
Proof. induction x as [|c x IH]; simpl; [reflexivity | exact IH]. Qed.

Lemma substring_app (v r : string) :
  String.substring 0 (String.length v) (v ++ r) = v.
Proof.
  induction v as [|c v IH]; simpl; [now destruct r | now rewrite IH].
Qed.

Lemma index_first_prefix (p : string) (c : ascii) (a r : string) :
  String.index 0 p (String c a ++ p) = Some (String.length (String c a)) ->
  String.prefix p (String c (a ++ p ++ r)) = false
  /\ String.index 0 p (a ++ p) = Some (String.length a).
Proof.
  cbn [String.append String.index String.length].
  intros H.
  destruct (String.prefix p (String c (a ++ p))) eqn:Hp; [discriminate|].
  split.
  - change (String c (a ++ p ++ r)) with (String c a ++ p ++ r).
    rewrite <- str_app_assoc, prefix_app_long; [exact Hp|].
    rewrite str_length_app; lia.
  - destruct (String.index 0 p (a ++ p)) as [n|]; [|discriminate].
    now injection H as ->.
Qed.

Lemma index_found_app (p a r : string) :
  String.index 0 p (a ++ p) = Some (String.length a) ->
  String.index 0 p (a ++ p ++ r) = Some (String.length a).
Proof.
  induction a as [|c a IH]; intros H.
  - simpl.
    destruct (p ++ r) as [|x y] eqn:E; cbn [String.index].
    + destruct p; [reflexivity | discriminate E].
    + now rewrite <- E, prefix_self_app.
  - destruct (index_first_prefix p c a r H) as [Hp Hrest].
    cbn [String.append String.index String.length].
    now rewrite Hp, (IH Hrest).
Qed.

Lemma matchLazy_found (open close pre v post : string) :
  open <> "" ->
  String.index 0 open (pre ++ open) = Some (String.length pre) ->
  String.index 0 close (v ++ close) = Some (String.length v) ->
  Rss.matchLazy open close (pre ++ open ++ v ++ close ++ post) = Some v.
Proof.
  intros Hopen Hpre Hv.
  induction pre as [|c pre IH].
  - destruct open as [|a o]; [now destruct Hopen|].
    cbn [String.append Rss.matchLazy].
    change (String a (o ++ v ++ close ++ post))
      with (String a o ++ v ++ close ++ post).
    rewrite prefix_self_app, drop_app, (index_found_app _ _ _ Hv).
    now rewrite substring_app.
  - destruct (index_first_prefix open c pre (v ++ close ++ post) Hpre)
      as [Hp Hrest].
    cbn [String.append Rss.matchLazy].
    rewrite Hp.
    now apply IH.
Qed.

Lemma substring_app_more (v w : string) (n : nat) :
  String.substring 0 (String.length v + n) (v ++ w)
  = v ++ String.substring 0 n w.
Proof.
  induction v as [|c v IH]; simpl; [reflexivity | now rewrite IH].
Qed.

Lemma substring_zero (s : string) : String.substring 0 0 s = "".
Proof. now destruct s. Qed.

Lemma matchItems_skip (x rest : string) (k : nat) :
  Rss.matchItems (String.length x + k) (x ++ rest) = Rss.matchItems k rest.
Proof.
  induction x as [|c x IH]; [reflexivity|].
  exact IH.
Qed.

Lemma matchItems_step (c : ascii) (rest : string) :
  Rss.matchItems 0 (String c rest)
  = if String.prefix "<item>" (String c rest)
    then
      match String.index 0 "</item>" (Rss.drop 6 (String c rest)) with
      | Some n =>
          String.substring 0 (6 + n + 7) (String c rest)
          :: Rss.matchItems (6 + n + 6) rest
      | None => Rss.matchItems 0 rest
      end
    else Rss.matchItems 0 rest.
Proof. reflexivity. Qed.

Lemma str_app_assoc3 (a b c r : string) : a ++ b ++ c ++ r = (a ++ b ++ c) ++ r.
Proof. now rewrite !str_app_assoc. Qed.

Lemma matchItems_here (body rest : string) :
  String.index 0 "</item>" (body ++ "</item>") = Some (String.length body) ->
  Rss.matchItems 0 ("<item>" ++ body ++ "</item>" ++ rest)
  = ("<item>" ++ body ++ "</item>") :: Rss.matchItems 0 rest.
Proof.
  intros Hbody.
  remember (body ++ "</item>" ++ rest) as after eqn:Hafter.
  change ("<item>" ++ after) with (String "<" ("item>" ++ after)).
  rewrite matchItems_step.
  change (String "<" ("item>" ++ after)) with ("<item>" ++ after).
  rewrite prefix_self_app.
  change 6%nat with (String.length "<item>") at 1.
  rewrite drop_app.
  subst after.
  rewrite (index_found_app _ _ _ Hbody).
  f_equal.
  - rewrite str_app_assoc3.
    replace (6 + String.length body + 7)%nat
      with (String.length ("<item>" ++ body ++ "</item>"))
      by (rewrite !str_length_app; simpl; lia).
    apply substring_app.
  - rewrite str_app_assoc3.
    replace (6 + String.length body + 6)%nat
      with (String.length ("item>" ++ body ++ "</item>") + 0)%nat
      by (rewrite !str_length_app; simpl; lia).
    apply matchItems_skip.
Qed.

Lemma matchItems_found (pre body rest : string) :
  String.index 0 "<item>" (pre ++ "<item>") = Some (String.length pre) ->
  String.index 0 "</item>" (body ++ "</item>") = Some (String.length body) ->
  Rss.matchItems 0 (pre ++ "<item>" ++ body ++ "</item>" ++ rest)
  = ("<item>" ++ body ++ "</item>") :: Rss.matchItems 0 rest.
Proof.
  intros Hpre Hbody.
  induction pre as [|c pre IH].
  - now apply matchItems_here.
  - destruct (index_first_prefix "<item>" c pre (body ++ "</item>" ++ rest)
                Hpre) as [Hp Hrest].
    change ((String c pre) ++ "<item>" ++ body ++ "</item>" ++ rest)
      with (String c (pre ++ "<item>" ++ body ++ "</item>" ++ rest)).
    rewrite matchItems_step, Hp.
    now apply IH.
Qed.

Lemma matchLazy_none (open close s : string) :
  String.index 0 open s = None -> Rss.matchLazy open close s = None.
Proof.
  induction s as [|c s IH]; intros H; [reflexivity|].
  cbn [Rss.matchLazy].
  rewrite (index_none_prefix _ _ H).
  apply IH.
  now apply index_none_tail with c.
Qed.

Lemma matchPlain_none (open close s : string) :
  String.index 0 open s = None -> Rss.matchPlain open close s = None.
Proof.
  induction s as [|c s IH]; intros H; [reflexivity|].
  cbn [Rss.matchPlain].
  rewrite (index_none_prefix _ _ H).
  apply IH.
  now apply index_none_tail with c.
Qed.

Lemma prefix_app_left (a b s : string) :
  String.prefix a s = false -> String.prefix (a ++ b) s = false.
Proof.
  revert s.
  induction a as [|x a IH]; intros s H; [now rewrite prefix_empty in H|].
  destruct s as [|y s]; [reflexivity|].
  simpl in *.
  destruct (ascii_dec x y); [now apply IH | reflexivity].
Qed.

Lemma index_none_longer (a b s : string) :
  a <> "" ->
  String.index 0 a s = None -> String.index 0 (a ++ b) s = None.
Proof.
  intros Ha.
  induction s as [|c s IH]; intros H.
  - destruct a; [now destruct Ha | reflexivity].
  - cbn [String.index].
    rewrite (prefix_app_left _ b _ (index_none_prefix _ _ H)).
    now rewrite (IH (index_none_tail _ _ _ H)).
Qed.

Lemma untilTag_app (v w : string) :
  Rss.untilTag v = v -> Rss.untilTag (v ++ String "<"%char w) = v.
Proof.
  intros Hv.
  induction v as [|c v IH]; [reflexivity|].
  cbn [String.append Rss.untilTag] in *.
  destruct (Ascii.eqb c "<"); [discriminate|].
  injection Hv as Hv.
  now rewrite (IH Hv).
Qed.

Lemma matchPlain_found (open close pre v post : string) :
  open <> "" ->
  String.index 0 open (pre ++ open) = Some (String.length pre) ->
  Rss.untilTag v = v ->
  Rss.matchPlain open (String "<"%char close)
    (pre ++ open ++ v ++ String "<"%char close ++ post) = Some v.
Proof.
  intros Hopen Hpre Hv.
  assert (Hrun : Rss.untilTag (v ++ String "<"%char close ++ post) = v).
  { change (String "<"%char close ++ post) with (String "<"%char (close ++ post)).
    now apply untilTag_app. }
  induction pre as [|c pre IH].
  - destruct open as [|a o]; [now destruct Hopen|].
    cbn [String.append Rss.matchPlain].
    change (String a (o ++ v ++ String "<"%char (close ++ post)))
      with (String a o ++ v ++ String "<"%char close ++ post).
    rewrite prefix_self_app, drop_app, Hrun, drop_app.
    now rewrite prefix_self_app.
  - destruct (index_first_prefix open c pre (v ++ String "<"%char close ++ post) Hpre)
      as [Hp Hrest].
    cbn [String.append Rss.matchPlain].
    cbn [String.append] in Hp.
    rewrite Hp.
    now apply IH.
Qed.

(** *** Trimming *)

Lemma trimEnd_step (c : ascii) (s : string) :
  Rss.trimEnd (String c s)
  = match Rss.trimEnd s with
    | EmptyString => if Rss.isSpace c then EmptyString else String c EmptyString
    | kept => String c kept
    end.
Proof. reflexivity. Qed.

Lemma trimEnd_idem (s : string) : Rss.trimEnd (Rss.trimEnd s) = Rss.trimEnd s.
Proof.
  induction s as [|c s IH]; [reflexivity|].
  rewrite (trimEnd_step c s).
  destruct (Rss.trimEnd s) as [|d k] eqn:E.
  - destruct (Rss.isSpace c) eqn:Hc; [reflexivity|].
    now rewrite trimEnd_step, Hc.
  - now rewrite trimEnd_step, IH.
Qed.

Lemma trimStart_fixed (c : ascii) (s : string) :
  Rss.isSpace c = false -> Rss.trimStart (String c s) = String c s.
Proof. intros H; simpl; now rewrite H. Qed.

Lemma trimStart_head (s : string) :
  match Rss.trimStart s with
  | EmptyString => True
  | String c _ => Rss.isSpace c = false
  end.
Proof.
  induction s as [|c s IH]; [exact I|].
  simpl.
  destruct (Rss.isSpace c) eqn:Hc; [exact IH | exact Hc].
Qed.

Lemma trimEnd_head (c : ascii) (s : string) :
  Rss.isSpace c = false ->
  exists k, Rss.trimEnd (String c s) = String c k.
Proof.
  intros Hc; simpl.
  destruct (Rss.trimEnd s); [rewrite Hc|]; now eexists.
Qed.

Lemma trim_idem (s : string) : Rss.trim (Rss.trim s) = Rss.trim s.
Proof.
  unfold Rss.trim.
  assert (Hhead := trimStart_head s).
  destruct (Rss.trimStart s) as [|c k]; [reflexivity|].
  destruct (trimEnd_head c k Hhead) as [k' Hk].
  rewrite Hk, (trimStart_fixed c k' Hhead), <- Hk.
  apply trimEnd_idem.
Qed.

Lemma getField_trimmed (item field : string) :
  Rss.trim (Rss.getField item field) = Rss.getField item field.
Proof.
  unfold Rss.getField.
  destruct (Rss.matchLazy _ _ item); [apply trim_idem|].
  destruct (Rss.matchPlain _ _ item); [apply trim_idem | reflexivity].
Qed.

Lemma untilTag_all (v : string) :
  String.index 0 "<" v = None -> Rss.untilTag v = v.
Proof.
  induction v as [|c v IH]; intros H; [reflexivity|].
  cbn [Rss.untilTag].
  assert (Hp := index_none_prefix _ _ H).
  destruct (Ascii.eqb_spec c "<") as [->|_].
  - simpl in Hp. now rewrite prefix_empty in Hp.
  - now rewrite (IH (index_none_tail _ _ _ H)).
Qed.

Lemma cdata_open (field : string) :
  "<" ++ field ++ "><![CDATA[" = ("<" ++ field ++ ">") ++ "<![CDATA[".
Proof.
  change ("><![CDATA[") with (">" ++ "<![CDATA[").
  now rewrite <- !str_app_assoc.
Qed.

Lemma getField_plain (field pre v post : string) :
  let open := "<" ++ field ++ ">" in
  let close := "</" ++ field ++ ">" in
  let item := pre ++ open ++ v ++ close ++ post in
  String.index 0 ("<" ++ field ++ "><![CDATA[") item = None ->
  String.index 0 open (pre ++ open) = Some (String.length pre) ->
  String.index 0 "<" v = None ->
  Rss.getField item field = Rss.trim v.
Proof.
  intros open close item Hcdata Hpre Hv.
  unfold Rss.getField.
  rewrite (matchLazy_none _ _ _ Hcdata).
  fold open.
  change ("</" ++ field ++ ">") with (String "<"%char ("/" ++ field ++ ">")).
  unfold item, close.
  change ("</" ++ field ++ ">") with (String "<"%char ("/" ++ field ++ ">")).
  rewrite (matchPlain_found open ("/" ++ field ++ ">") pre v post);
    [reflexivity | discriminate | exact Hpre | now apply untilTag_all].
Qed.

Lemma getField_missing (item field : string) :
  String.index 0 ("<" ++ field ++ ">") item = None ->
  Rss.getField item field = "".
Proof.
  intros H.
  unfold Rss.getField.
  rewrite matchLazy_none, (matchPlain_none _ _ _ H); [reflexivity|].
  rewrite cdata_open.
  apply index_none_longer; [discriminate | exact H].
Qed.

Lemma parsed_current_is_item (xml : string) (b : Goodreads.Book) :
  Goodreads.current (Rss.parseGoodreadsRSS xml) = Some b
  \/ Goodreads.previous (Rss.parseGoodreadsRSS xml) = Some b
  \/ GoodreadsInline.current (Rss.parseFirst xml) = Some b ->
  exists item, b = Rss.toBook item.
Proof.
  unfold Rss.parseGoodreadsRSS, Rss.parseFirst.
  destruct (List.length (Rss.matchItems 0 xml) =? 0)%nat;
    cbn [Goodreads.current Goodreads.previous GoodreadsInline.current];
    intros [H | [H | H]]; try discriminate;
    apply nth_error_In, in_map_iff in H;
    destruct H as [item [Hb _]]; now exists item.
Qed.

(** ** The items of a feed *)

(** X11: a body without an opening item tag, or without a closing one,
    is an empty shelf for both parsers: no current book (and no previous
    one). *)
Theorem X11_feed_without_item_is_empty_shelf (xml : string) :
  absent "<item>" xml \/ absent "</item>" xml ->
  Rss.parseGoodreadsRSS xml = Goodreads.mkBooks None None
  /\ Rss.parseFirst xml = GoodreadsInline.mkBooks None.
Proof.
  unfold absent.
  intros H.
  unfold Rss.parseGoodreadsRSS, Rss.parseFirst.
  now rewrite (matchItems_none xml 0 H).
Qed.

Lemma X11_empty_shelf_witness :
  Rss.parseGoodreadsRSS errorPage = Goodreads.mkBooks None None
  /\ Rss.parseFirst errorPage = GoodreadsInline.mkBooks None.
Proof.
  apply (X11_feed_without_item_is_empty_shelf errorPage).
  left; reflexivity.
Defined.

(** X12: the first item of the feed is the current book of both parsers,
    whatever follows it, and the previous book of goodreads-worker.js is
    what the remainder of the feed would give as its current book. *)
Theorem X12_first_item_is_current (pre content rest : string) :
  firstAt "<item>" pre ->
  firstAt "</item>" content ->
  let xml := pre ++ itemOf content ++ rest in
  Goodreads.current (Rss.parseGoodreadsRSS xml)
  = Some (Rss.toBook (itemOf content))
  /\ Goodreads.previous (Rss.parseGoodreadsRSS xml)
     = Goodreads.current (Rss.parseGoodreadsRSS rest)
  /\ Rss.parseFirst xml
     = GoodreadsInline.mkBooks (Some (Rss.toBook (itemOf content))).
Proof.
  unfold firstAt, itemOf.
  intros Hpre Hbody.
  cbv zeta.
  unfold Rss.parseGoodreadsRSS, Rss.parseFirst.
  replace (pre ++ ("<item>" ++ content ++ "</item>") ++ rest)
    with (pre ++ "<item>" ++ content ++ "</item>" ++ rest)
    by now rewrite !str_app_assoc.
  rewrite (matchItems_found pre content rest Hpre Hbody).
  cbn [List.length Nat.eqb map nth_error Goodreads.current Goodreads.previous].
  repeat split.
  destruct (Rss.matchItems 0 rest); reflexivity.
Qed.

Lemma X12_first_item_witness :
  Goodreads.current (Rss.parseGoodreadsRSS duneFeed) = Some dune
  /\ Goodreads.previous (Rss.parseGoodreadsRSS duneFeed) = None
  /\ Rss.parseFirst duneFeed = GoodreadsInline.mkBooks (Some dune).
Proof.
  exact (X12_first_item_is_current "<rss><channel><title>shelf</title>"
           duneContent "</channel></rss>" eq_refl eq_refl).
Defined.

(** ** The fields of an item *)

(** X13: each of the four fields the parser reads, when given in CDATA
    form, is read as the trimmed text between the first opening of that
    form and the first closing after it, whatever else the item holds. *)
Theorem X13_cdata_field (field pre v post : string) :
  In field Rss.fields ->
  firstAt (cdataOpen field) pre ->
  firstAt (cdataClose field) v ->
  Rss.getField (pre ++ cdataOpen field ++ v ++ cdataClose field ++ post) field
  = Rss.trim v.
Proof.
  unfold firstAt.
  intros _ Hpre Hv.
  unfold Rss.getField.
  fold (cdataOpen field); fold (cdataClose field).
  rewrite (matchLazy_found (cdataOpen field) (cdataClose field) pre v post);
    [reflexivity | discriminate | exact Hpre | exact Hv].
Qed.

Lemma X13_cdata_field_witness :
  Rss.getField
    ("<guid>1</guid>" ++ cdataOpen "title" ++ " Dune " ++ cdataClose "title"
     ++ "<link>https://gr/dune</link>") "title"
  = "Dune".
Proof.
  exact (X13_cdata_field "title" "<guid>1</guid>" " Dune "
           "<link>https://gr/dune</link>" (or_introl eq_refl) eq_refl eq_refl).
Defined.

(** X14: when the item holds no CDATA opening of one of the four fields,
    the field is read from its plain form: the trimmed text between the
    first opening tag and the closing tag, provided that text holds no
    ['<']. *)
Theorem X14_plain_field (field pre v post : string) :
  In field Rss.fields ->
  absent (cdataOpen field)
    (pre ++ plainOpen field ++ v ++ plainClose field ++ post) ->
  firstAt (plainOpen field) pre ->
  absent "<" v ->
  Rss.getField (pre ++ plainOpen field ++ v ++ plainClose field ++ post) field
  = Rss.trim v.
Proof.
  unfold firstAt, absent.
  intros _ Hcdata Hpre Hv.
  unfold Rss.getField.
  fold (cdataOpen field); fold (cdataClose field).
  rewrite (matchLazy_none _ _ _ Hcdata).
  fold (plainOpen field).
  unfold plainClose.
  change ("</" ++ field ++ ">") with (String "<"%char ("/" ++ field ++ ">")).
  rewrite (matchPlain_found (plainOpen field) ("/" ++ field ++ ">") pre v post);
    [reflexivity | discriminate | exact Hpre | now apply untilTag_all].
Qed.

Lemma X14_plain_field_witness :
  Rss.getField
    ("<guid>1</guid>" ++ plainOpen "author_name" ++ " Herbert" ++
     plainClose "author_name" ++ "<title>Dune</title>") "author_name"
  = "Herbert".
Proof.
  exact (X14_plain_field "author_name" "<guid>1</guid>" " Herbert"
           "<title>Dune</title>" (or_intror (or_introl eq_refl))
           eq_refl eq_refl eq_refl).
Defined.

(** X15: one of the four fields whose opening tag does not occur in the
    item is read as the empty string. *)
Theorem X15_missing_field (item field : string) :
  In field Rss.fields ->
  absent (plainOpen field) item ->
  Rss.getField item field = "".
Proof.
  unfold absent, plainOpen.
  intros _ H.
  unfold Rss.getField.
  rewrite matchLazy_none, (matchPlain_none _ _ _ H); [reflexivity|].
  rewrite cdata_open.
  apply index_none_longer; [discriminate | exact H].
Qed.

Lemma X15_missing_field_witness :
  Rss.getField (itemOf "<title>Dune</title>") "link" = "".
Proof.
  exact (X15_missing_field (itemOf "<title>Dune</title>") "link"
           (or_intror (or_intror (or_intror (or_introl eq_refl)))) eq_refl).
Defined.

(** X16: every field of every book the parsers return is free of leading
    and trailing white space: trimming it again changes nothing. *)
Theorem X16_parsed_fields_are_trimmed (xml : string) (b : Goodreads.Book) :
  Goodreads.current (Rss.parseGoodreadsRSS xml) = Some b
  \/ Goodreads.previous (Rss.parseGoodreadsRSS xml) = Some b
  \/ GoodreadsInline.current (Rss.parseFirst xml) = Some b ->
  Rss.trim (Goodreads.title b) = Goodreads.title b
  /\ Rss.trim (Goodreads.author b) = Goodreads.author b
  /\ Rss.trim (Goodreads.cover b) = Goodreads.cover b
  /\ Rss.trim (Goodreads.link b) = Goodreads.link b.
Proof.
  intros H.
  destruct (parsed_current_is_item xml b H) as [item ->].
  cbn [Rss.toBook Goodreads.title Goodreads.author Goodreads.cover
       Goodreads.link].
  repeat split; apply getField_trimmed.
Qed.

Lemma X16_trimmed_witness :
  Rss.trim (Goodreads.title dune) = Goodreads.title dune
  /\ Rss.trim (Goodreads.author dune) = Goodreads.author dune
  /\ Rss.trim (Goodreads.cover dune) = Goodreads.cover dune
  /\ Rss.trim (Goodreads.link dune) = Goodreads.link dune.
Proof.
  exact (X16_parsed_fields_are_trimmed duneFeed dune (or_introl eq_refl)).
Defined.

End Parser.

(** ** The two parsers side by side *)

(** X26: on every body the two parsers report the same current book, and
    the parser of goodreads-worker.js reports a previous book only
    together with a current one. *)
Theorem X26_parsers_agree_on_current (xml : string) :
  GoodreadsInline.current (Rss.parseFirst xml)
  = Goodreads.current (Rss.parseGoodreadsRSS xml)
  /\ (Goodreads.current (Rss.parseGoodreadsRSS xml) = None ->
      Goodreads.previous (Rss.parseGoodreadsRSS xml) = None).
Proof.
  unfold Rss.parseFirst, Rss.parseGoodreadsRSS.
  destruct (Rss.matchItems 0 xml) as [|first rest]; cbn; [now split|].
  split; [reflexivity | discriminate].
Qed.

Lemma X26_parsers_agree_witness :
  GoodreadsInline.current (Rss.parseFirst errorPage)
  = Goodreads.current (Rss.parseGoodreadsRSS errorPage)
  /\ Goodreads.previous (Rss.parseGoodreadsRSS errorPage) = None.
Proof.
  destruct (X26_parsers_agree_on_current errorPage) as [Hsame Hprev].
  split; [exact Hsame | exact (Hprev eq_refl)].
Defined.

(** ** The response of Goodreads, through the handlers *)

Section Network.

Lemma feed_error_status (r : Http.Response string) :
  Http.ok r = false ->
  Rss.feed (Ok r)
  = Throw ("Goodreads RSS returned " ++ Http.showStatus (Http.status r))%string.
Proof.
  intros Hok.
  unfold Rss.feed, Rss.fetchGoodreadsRSS.
  now rewrite Hok.
Qed.

Lemma inline_bookChanged_null (existingBooks : option GoodreadsInline.Books) :
  GoodreadsInline.bookChanged (GoodreadsInline.mkBooks None) existingBooks
  = true.
Proof.
  unfold GoodreadsInline.bookChanged.
  destruct existingBooks as [[[ec|]]|]; reflexivity.
Qed.

(** X17: goodreads-worker.js, when Goodreads answers with a status outside
    200..299.  Neither handler puts anything and the store is left as it
    was, whatever the store, the clock and the request; an on-demand
    request that finds no fresh entry is answered with the data of the
    entry it read, or, without such data, with the 500 error object
    carrying the status. *)
Theorem X17_error_status_keeps_store (p : Platform) (r : Http.Response string)
        (request : Request) (s : Store Goodreads.Entry) :
  Http.ok r = false ->
  (snd (fst (Goodreads.fetch request (Rss.worker p (Ok r)) s)) = s
   /\ puts (snd (Goodreads.fetch request (Rss.worker p (Ok r)) s)) = 0%nat)
  /\ (snd (fst (Goodreads.scheduled (Rss.worker p (Ok r)) s)) = s
      /\ puts (snd (Goodreads.scheduled (Rss.worker p (Ok r)) s)) = 0%nat)
  /\ (method request <> "OPTIONS" ->
      get_error p = None ->
      Goodreads.cacheValid (clock_read p) (live (clock_read p) s) = false ->
      fst (fst (Goodreads.fetch request (Rss.worker p (Ok r)) s))
      = Ok match JS.chain_opt (live (clock_read p) s) Goodreads.data with
           | Some d => Goodreads.json (Some d)
           | None =>
               Goodreads.failed
                 ("Goodreads RSS returned "
                  ++ Http.showStatus (Http.status r))%string
           end).
Proof.
  intros Hok.
  assert (Hrss : Goodreads.rss (Rss.worker p (Ok r))
                 = Throw ("Goodreads RSS returned "
                          ++ Http.showStatus (Http.status r))%string)
    by exact (feed_error_status r Hok).
  assert (Hstale :
            method request <> "OPTIONS" ->
            get_error p = None ->
            Goodreads.cacheValid (clock_read p) (live (clock_read p) s)
            = false ->
            Goodreads.fetch request (Rss.worker p (Ok r)) s
            = match JS.chain_opt (live (clock_read p) s) Goodreads.data with
              | Some d =>
                  (Ok (Goodreads.json (Some d)), s,
                   [EvGet; EvFetch GoodreadsRSS])
              | None =>
                  (Ok (Goodreads.failed
                         ("Goodreads RSS returned "
                          ++ Http.showStatus (Http.status r))%string), s,
                   [EvGet; EvFetch GoodreadsRSS])
              end).
  { intros Hq Hget Hst.
    rewrite (goodreads_fetch_stale request (Rss.worker p (Ok r)) s Hq Hget Hst).
    now rewrite Hrss. }
  split; [|split].
  - destruct (string_dec (method request) "OPTIONS") as [Hq|Hq].
    + now rewrite (goodreads_fetch_preflight request _ s Hq).
    + destruct (get_error p) as [m|] eqn:Hget.
      * now rewrite (goodreads_fetch_get_error request
                       (Rss.worker p (Ok r)) s m Hq Hget).
      * destruct (Goodreads.cacheValid (clock_read p)
                    (live (clock_read p) s)) eqn:Hv.
        -- now rewrite (goodreads_fetch_valid request
                          (Rss.worker p (Ok r)) s Hq Hget Hv).
        -- rewrite (Hstale Hq eq_refl eq_refl).
           now destruct (JS.chain_opt (live (clock_read p) s) Goodreads.data).
  - destruct (get_error p) as [m|] eqn:Hget.
    + now rewrite (goodreads_scheduled_get_error (Rss.worker p (Ok r)) s m Hget).
    + rewrite (goodreads_scheduled_run (Rss.worker p (Ok r)) s Hget).
      now rewrite Hrss.
  - intros Hq Hget Hst.
    rewrite (Hstale Hq Hget Hst).
    now destruct (JS.chain_opt (live (clock_read p) s) Goodreads.data).
Qed.

Lemma X17_error_status_witness :
  let env := Rss.worker (calm (t0 + 7200000) (t0 + 7200001))
               (Ok (Http.mkResponse 503 (Ok errorPage))) in
  let s := Some (mkStored duneEntry None) in
  (snd (fst (Goodreads.fetch GET env s)) = s
   /\ puts (snd (Goodreads.fetch GET env s)) = 0%nat)
  /\ fst (fst (Goodreads.fetch GET env s))
     = Ok (Goodreads.json (Goodreads.data duneEntry)).
Proof.
  intros env s.
  destruct (X17_error_status_keeps_store
              (calm (t0 + 7200000) (t0 + 7200001))
              (Http.mkResponse 503 (Ok errorPage)) GET
              (Some (mkStored duneEntry None)) eq_refl) as [H1 [_ H3]].
  split; [exact H1|].
  apply H3; [discriminate | reflexivity | reflexivity].
Defined.

(** X18: the inline reading-list worker does not look at the status.  A
    response whose body holds no item (an error page, say) parses to a
    null current book, which always counts as a change: an on-demand
    request past the freshness window and every scheduled tick put
    [{current: null}] in place of whatever entry was stored, and the
    request is answered with that null record and status 200. *)
Theorem X18_inline_error_page_replaces_entry (p : Platform)
        (r : Http.Response string) (xml : string) (request : Request)
        (s : Store GoodreadsInline.Entry) :
  Http.body r = Ok xml ->
  absent "<item>" xml \/ absent "</item>" xml ->
  get_error p = None ->
  put_error p = None ->
  let entry :=
    GoodreadsInline.mkEntry (Some (GoodreadsInline.mkBooks None))
      (clock_write p) in
  (method request <> "OPTIONS" ->
   GoodreadsInline.cacheValid (clock_read p) (live (clock_read p) s) = false ->
   GoodreadsInline.fetch request (Rss.inlineWorker p (Ok r)) s
   = (Ok (GoodreadsInline.json (Some (GoodreadsInline.mkBooks None))),
      Some (mkStored entry None),
      [EvGet; EvFetch GoodreadsRSS; EvPut entry None true]))
  /\ GoodreadsInline.scheduled (Rss.inlineWorker p (Ok r)) s
     = (Ok tt, Some (mkStored entry None),
        [EvGet; EvFetch GoodreadsRSS; EvPut entry None true]).
Proof.
  intros Htext Hitems Hget Hput entry.
  assert (Hrss : GoodreadsInline.rss (Rss.inlineWorker p (Ok r))
                 = Ok (GoodreadsInline.mkBooks None)).
  { unfold Rss.inlineWorker, Rss.feedInline; cbn [GoodreadsInline.rss].
    rewrite Htext.
    unfold absent in Hitems.
    unfold Rss.parseFirst.
    now rewrite (matchItems_none xml 0 Hitems). }
  split.
  - intros Hq Hst.
    rewrite (inline_fetch_stale request (Rss.inlineWorker p (Ok r)) s
               Hq Hget Hst).
    rewrite Hrss, inline_bookChanged_null.
    cbn [orb].
    unfold afterPut.
    cbn [GoodreadsInline.platform Rss.inlineWorker].
    now rewrite Hput.
  - rewrite (inline_scheduled_run (Rss.inlineWorker p (Ok r)) s Hget).
    rewrite Hrss, inline_bookChanged_null.
    cbn [negb andb].
    unfold afterPut.
    cbn [GoodreadsInline.platform Rss.inlineWorker].
    now rewrite Hput.
Qed.

Lemma X18_inline_error_page_witness :
  GoodreadsInline.scheduled
    (Rss.inlineWorker (calm (t0 + 60000) (t0 + 60001))
       (Ok (Http.mkResponse 503 (Ok errorPage))))
    (Some (mkStored duneInlineEntry None))
  = (Ok tt,
     Some (mkStored
             (GoodreadsInline.mkEntry (Some (GoodreadsInline.mkBooks None))
                (t0 + 60001)) None),
     [EvGet; EvFetch GoodreadsRSS;
      EvPut (GoodreadsInline.mkEntry (Some (GoodreadsInline.mkBooks None))
               (t0 + 60001)) None true]).
Proof.
  exact (proj2 (X18_inline_error_page_replaces_entry
                  (calm (t0 + 60000) (t0 + 60001))
                  (Http.mkResponse 503 (Ok errorPage)) errorPage GET
                  (Some (mkStored duneInlineEntry None))
                  eq_refl (or_introl eq_refl) eq_refl eq_refl)).
Defined.

End Network.

(** * The Spotify calls of the playback worker *)

Section Api.

Import SpotifyApi.

Lemma orString_nonempty (a : option string) (b : string) :
  b <> "" -> orString a b <> "".
Proof.
  intros Hb.
  destruct a as [x|]; cbn [orString]; [|exact Hb].
  destruct (String.eqb_spec x ""); [exact Hb | assumption].
Qed.

Lemma getNowPlaying_null_iff (r : Http.Response (Text Playing)) :
  getNowPlaying (Ok r) = Ok None <-> nothingPlaying r.
Proof.
  unfold getNowPlaying, nothingPlaying.
  destruct (Z.eqb_spec (Http.status r) 204) as [H204|H204].
  - split; [now left | reflexivity].
  - destruct (Z.eqb_spec (Http.status r) 200) as [H200|H200]; cbn [negb].
    + destruct (Http.body r) as [[| |data]|m].
      * split; [intros _; right; split; [exact H200 | now left] | reflexivity].
      * split; [discriminate|].
        intros [H|[_ [H|[d [H _]]]]]; [contradiction | discriminate | discriminate].
      * destruct (item data) as [i|] eqn:Hitem.
        -- split; [discriminate|].
           intros [H|[_ [H|[d [H Hd]]]]];
             [contradiction | discriminate |].
           injection H as <-. congruence.
        -- split; [|reflexivity].
           intros _; right; split; [exact H200|].
           right; now exists data.
      * split; [discriminate|].
        intros [H|[_ [H|[d [H _]]]]]; [contradiction | discriminate | discriminate].
    + split; [discriminate|].
      intros [H|[H _]]; contradiction.
Qed.

Lemma getAccessToken_granted (token : Http.Response unit) :
  granted token -> getAccessToken (Ok token) = Ok tt.
Proof.
  intros [Hok Hbody].
  unfold getAccessToken.
  now rewrite Hok, Hbody.
Qed.

Lemma getRecentlyPlayed_refused (r : Http.Response Recently) :
  Http.status r <> 200 -> getRecentlyPlayed (Ok r) = Ok None.
Proof.
  intros H.
  unfold getRecentlyPlayed.
  now destruct (Z.eqb_spec (Http.status r) 200).
Qed.

(** X19: when the token endpoint answers with a status outside 200..299,
    a request that finds no fresh entry is answered with the 500 error
    object carrying that status, whatever track the cache holds, and a
    tick past the interval ends without effect; in both cases the token
    call is the only upstream call and the store is left as it was. *)
Theorem X19_refused_token (p : Platform) (token : Http.Response unit)
        (playing : outcome (Http.Response (Text Playing)))
        (recent : outcome (Http.Response Recently))
        (request : Request) (s : Store Spotify.Entry) :
  Http.ok token = false ->
  get_error p = None ->
  (method request <> "OPTIONS" ->
   Spotify.cacheValid (clock_read p) (live (clock_read p) s) = false ->
   Spotify.fetch request (worker p (Ok token) playing recent) s
   = (Ok (Spotify.failed
            ("Failed to get access token: "
             ++ Http.showStatus (Http.status token))%string),
      s, [EvGet; EvFetch SpotifyToken]))
  /\ (Spotify.tooSoon (clock_read p) (live (clock_read p) s) = false ->
      Spotify.scheduled (worker p (Ok token) playing recent) s
      = (Ok tt, s, [EvGet; EvFetch SpotifyToken])).
Proof.
  intros Hok Hget.
  assert (Htoken : Spotify.getAccessToken (worker p (Ok token) playing recent)
                   = Throw ("Failed to get access token: "
                            ++ Http.showStatus (Http.status token))%string).
  { cbn [worker Spotify.getAccessToken]. unfold getAccessToken.
    now rewrite Hok. }
  split.
  - intros Hq Hst.
    rewrite (spotify_fetch_stale request
               (worker p (Ok token) playing recent) s Hq Hget Hst).
    unfold Spotify.fetchLatest, Spotify.calls.
    now rewrite Htoken.
  - intros Hsoon.
    rewrite (spotify_scheduled_run
               (worker p (Ok token) playing recent) s Hget Hsoon).
    unfold Spotify.fetchLatest, Spotify.calls.
    now rewrite Htoken.
Qed.

Lemma X19_refused_token_witness :
  Spotify.fetch GET
    (SpotifyApi.worker (calm (t0 + 60000) (t0 + 60001))
       (Ok (Http.mkResponse 401 (Ok tt))) (Ok (playingSong true))
       (Ok historySong))
    trackStore
  = (Ok (Spotify.failed "Failed to get access token: 401"), trackStore,
     [EvGet; EvFetch SpotifyToken]).
Proof.
  apply (X19_refused_token (calm (t0 + 60000) (t0 + 60001))
           (Http.mkResponse 401 (Ok tt)) (Ok (playingSong true))
           (Ok historySong) GET trackStore eq_refl eq_refl);
    [discriminate | reflexivity].
Defined.

(** X20: when the currently-playing endpoint answers with a status
    other than 200 and 204, [getNowPlaying] throws: the request is
    answered with the 500 error object carrying the status, the tick ends
    without effect, the recently-played endpoint is not consulted and the
    store is left as it was. *)
Theorem X20_player_error_status (p : Platform) (token : Http.Response unit)
        (playing : Http.Response (Text Playing))
        (recent : outcome (Http.Response Recently))
        (request : Request) (s : Store Spotify.Entry) :
  granted token ->
  Http.status playing <> 200 ->
  Http.status playing <> 204 ->
  get_error p = None ->
  (method request <> "OPTIONS" ->
   Spotify.cacheValid (clock_read p) (live (clock_read p) s) = false ->
   Spotify.fetch request (worker p (Ok token) (Ok playing) recent) s
   = (Ok (Spotify.failed
            ("Spotify API error: "
             ++ Http.showStatus (Http.status playing))%string),
      s, [EvGet; EvFetch SpotifyToken; EvFetch SpotifyNowPlaying]))
  /\ (Spotify.tooSoon (clock_read p) (live (clock_read p) s) = false ->
      Spotify.scheduled (worker p (Ok token) (Ok playing) recent) s
      = (Ok tt, s, [EvGet; EvFetch SpotifyToken; EvFetch SpotifyNowPlaying])).
Proof.
  intros Htok H200 H204 Hget.
  assert (Hnow : Spotify.getNowPlaying
                   (worker p (Ok token) (Ok playing) recent)
                 = Throw ("Spotify API error: "
                          ++ Http.showStatus (Http.status playing))%string).
  { cbn [worker Spotify.getNowPlaying]. unfold getNowPlaying.
    destruct (Z.eqb_spec (Http.status playing) 204); [contradiction|].
    now destruct (Z.eqb_spec (Http.status playing) 200). }
  assert (Htoken : Spotify.getAccessToken
                     (worker p (Ok token) (Ok playing) recent) = Ok tt)
    by exact (getAccessToken_granted token Htok).
  split.
  - intros Hq Hst.
    rewrite (spotify_fetch_stale request
               (worker p (Ok token) (Ok playing) recent) s Hq Hget Hst).
    unfold Spotify.fetchLatest, Spotify.calls.
    now rewrite Htoken, Hnow.
  - intros Hsoon.
    rewrite (spotify_scheduled_run
               (worker p (Ok token) (Ok playing) recent) s Hget Hsoon).
    unfold Spotify.fetchLatest, Spotify.calls.
    now rewrite Htoken, Hnow.
Qed.

Lemma X20_player_error_witness :
  Spotify.fetch GET
    (SpotifyApi.worker (calm (t0 + 60000) (t0 + 60001))
       tokenGranted (Ok rateLimited) (Ok historySong))
    trackStore
  = (Ok (Spotify.failed "Spotify API error: 429"), trackStore,
     [EvGet; EvFetch SpotifyToken; EvFetch SpotifyNowPlaying]).
Proof.
  apply (X20_player_error_status (calm (t0 + 60000) (t0 + 60001))
           (Http.mkResponse 200 (Ok tt)) rateLimited (Ok historySong)
           GET trackStore (conj eq_refl eq_refl));
    [discriminate | discriminate | reflexivity | discriminate | reflexivity].
Defined.

(** X21: [getRecentlyPlayed] turns every status other than 200 into
    null instead of throwing.  So when nothing is playing and the
    recently-played endpoint refuses the call, a request past the
    freshness window replaces the cached track by null (one put, expiring
    300 s later) and answers null with status 200, while a tick past the
    interval leaves the store as it was. *)
Theorem X21_refused_history_reads_as_silence (p : Platform)
        (token : Http.Response unit)
        (playing : Http.Response (Text Playing))
        (recent : Http.Response Recently)
        (request : Request) (s : Store Spotify.Entry)
        (c : Spotify.Entry) (old : Spotify.Track) :
  granted token ->
  nothingPlaying playing ->
  Http.status recent <> 200 ->
  get_error p = None ->
  put_error p = None ->
  live (clock_read p) s = Some c ->
  Spotify.data c = Some old ->
  let env := worker p (Ok token) (Ok playing) (Ok recent) in
  let polled := [EvGet; EvFetch SpotifyToken; EvFetch SpotifyNowPlaying;
                 EvFetch SpotifyRecentlyPlayed] in
  let entry := Spotify.mkEntry None (clock_write p) (clock_write p) in
  (method request <> "OPTIONS" ->
   Spotify.cacheValid (clock_read p) (Some c) = false ->
   Spotify.fetch request env s
   = (Ok (Spotify.json None),
      Some (mkStored entry (Some (clock_write p + 300 * 1000))),
      polled ++ [EvPut entry (Some 300) true]))
  /\ (Spotify.tooSoon (clock_read p) (Some c) = false ->
      Spotify.scheduled env s = (Ok tt, s, polled)).
Proof.
  intros Htok Hnone Hrec Hget Hput Hlive Hdata env polled entry.
  assert (Htoken : Spotify.getAccessToken env = Ok tt)
    by exact (getAccessToken_granted token Htok).
  assert (Hnow : Spotify.getNowPlaying env = Ok None)
    by exact (proj2 (getNowPlaying_null_iff playing) Hnone).
  assert (Hrecent : Spotify.getRecentlyPlayed env = Ok None)
    by exact (getRecentlyPlayed_refused recent Hrec).
  split.
  - intros Hq Hst.
    rewrite <- Hlive in Hst.
    rewrite (spotify_fetch_stale request env s Hq Hget Hst).
    unfold Spotify.fetchLatest, Spotify.calls.
    rewrite Htoken, Hnow, Hrecent.
    change (Spotify.platform env) with p.
    rewrite Hlive; cbn [JS.chain_opt]; rewrite Hdata.
    change (Spotify.tracksEqual None (Some old)) with false.
    cbn iota.
    unfold afterPut.
    now rewrite Hput.
  - intros Hsoon.
    rewrite <- Hlive in Hsoon.
    rewrite (spotify_scheduled_run env s Hget Hsoon).
    unfold Spotify.fetchLatest, Spotify.calls.
    now rewrite Htoken, Hnow, Hrecent.
Qed.

Lemma X21_refused_history_witness :
  Spotify.fetch GET
    (SpotifyApi.worker (calm (t0 + 60000) (t0 + 60001))
       tokenGranted (Ok playerIdle) (Ok rateLimited))
    trackStore
  = (Ok (Spotify.json None),
     Some (mkStored (Spotify.mkEntry None (t0 + 60001) (t0 + 60001))
             (Some (t0 + 60001 + 300 * 1000))),
     [EvGet; EvFetch SpotifyToken; EvFetch SpotifyNowPlaying;
      EvFetch SpotifyRecentlyPlayed;
      EvPut (Spotify.mkEntry None (t0 + 60001) (t0 + 60001)) (Some 300) true]).
Proof.
  apply (X21_refused_history_reads_as_silence
           (calm (t0 + 60000) (t0 + 60001))
           (Http.mkResponse 200 (Ok tt)) playerIdle rateLimited GET
           trackStore trackEntry trackA (conj eq_refl eq_refl)
           (or_introl eq_refl));
    first [discriminate | reflexivity].
Defined.

(** X22: the fallbacks of the two builders.  A track built by
    [getNowPlaying] never has an empty title, album or type; a track built
    by [getRecentlyPlayed] is never playing and never has an empty artist,
    album or type. *)
Theorem X22_fields_never_empty :
  (forall (response : outcome (Http.Response (Text Playing)))
          (t : Spotify.Track),
      getNowPlaying response = Ok (Some t) ->
      Spotify.title t <> "" /\ Spotify.album t <> "" /\ Spotify.type t <> "")
  /\ (forall (response : outcome (Http.Response Recently))
             (t : Spotify.Track),
         getRecentlyPlayed response = Ok (Some t) ->
         Spotify.isPlaying t = false
         /\ Spotify.artist t <> "" /\ Spotify.album t <> ""
         /\ Spotify.type t <> "").
Proof.
  split.
  - intros [r|m] t; [|discriminate].
    unfold getNowPlaying.
    destruct (Http.status r =? 204); [discriminate|].
    destruct (negb (Http.status r =? 200)); [discriminate|].
    destruct (Http.body r) as [[| |data]|m]; try discriminate.
    destruct (item data) as [i|]; [|discriminate].
    cbv zeta.
    intros H; injection H as <-.
    cbn [Spotify.title Spotify.album Spotify.type].
    repeat split.
    + apply (orString_nonempty (Some (name i))); discriminate.
    + destruct (Spotify.opt_string_eqb _ _);
        apply orString_nonempty; discriminate.
    + apply orString_nonempty; discriminate.
  - intros [r|m] t; [|discriminate].
    unfold getRecentlyPlayed.
    destruct (negb (Http.status r =? 200)); [discriminate|].
    destruct (Http.body r) as [data|m]; [|discriminate].
    cbv zeta.
    destruct (match JS.chain_opt (nth_error (items data) 0) track with
              | Some i => Some i
              | None => JS.chain_opt (nth_error (items data) 0) episode
              end) as [i|]; [|discriminate].
    intros H; injection H as <-.
    cbn [Spotify.isPlaying Spotify.artist Spotify.album Spotify.type].
    repeat split.
    + destruct (_ || _); apply orString_nonempty; discriminate.
    + destruct (_ || _); apply orString_nonempty; discriminate.
    + destruct (_ || _); apply orString_nonempty; discriminate.
Qed.

Lemma X22_fields_witness :
  Spotify.title trackA <> "" /\ Spotify.album trackA <> ""
  /\ Spotify.type trackA <> "".
Proof.
  exact (proj1 X22_fields_never_empty (Ok (playingSong true)) trackA eq_refl).
Defined.

Lemma getNowPlaying_item (data : Playing) (i : Item) :
  item data = Some i ->
  exists shown,
    getNowPlaying (Ok (Http.mkResponse 200 (Ok (Json data)))) = Ok (Some shown)
    /\ Spotify.trackId shown = id i
    /\ Spotify.isPlaying shown = is_playing data.
Proof.
  intros Hitem.
  unfold getNowPlaying.
  cbn [Http.status Http.body Z.eqb Pos.eqb negb].
  rewrite Hitem.
  cbv zeta.
  eexists; split; [reflexivity|].
  split; reflexivity.
Qed.

Lemma getRecentlyPlayed_item (h : History) (rest : list History) (j : Item) :
  track h = Some j \/ (track h = None /\ episode h = Some j) ->
  exists latest,
    getRecentlyPlayed
      (Ok (Http.mkResponse 200 (Ok (mkRecently (h :: rest))))) = Ok (Some latest)
    /\ Spotify.trackId latest = id j
    /\ Spotify.isPlaying latest = false.
Proof.
  intros Hfirst.
  unfold getRecentlyPlayed.
  cbn [Http.status Http.body Z.eqb Pos.eqb negb items nth_error JS.chain_opt].
  assert (Hitem : match track h with
                  | Some i => Some i
                  | None => episode h
                  end = Some j).
  { destruct Hfirst as [-> | [-> ->]]; reflexivity. }
  rewrite Hitem.
  cbv zeta.
  eexists; split; [reflexivity|].
  split; reflexivity.
Qed.

(** X23: both builders carry the id of the item through as trackId.
    When the currently-playing endpoint shows an item and the
    recently-played endpoint later lists an item with the same non-empty
    id first, the two tracks are judged equal exactly when the item was
    shown paused; in that case, once the player has gone idle, a request
    past the freshness window and a tick past the interval put nothing and
    leave the store as it was, the request being answered with the track
    from the history. *)
Theorem X23_paused_item_then_history (p : Platform)
        (token : Http.Response unit) (idle : Http.Response (Text Playing))
        (data : Playing) (i j : Item) (h : History) (rest : list History)
        (request : Request) (s : Store Spotify.Entry) (c : Spotify.Entry) :
  item data = Some i ->
  track h = Some j \/ (track h = None /\ episode h = Some j) ->
  id j = id i ->
  JS.truthy_str (id i) = true ->
  let history := Http.mkResponse 200 (Ok (mkRecently (h :: rest))) in
  let polled := [EvGet; EvFetch SpotifyToken; EvFetch SpotifyNowPlaying;
                 EvFetch SpotifyRecentlyPlayed] in
  exists shown latest : Spotify.Track,
    getNowPlaying (Ok (Http.mkResponse 200 (Ok (Json data)))) = Ok (Some shown)
    /\ getRecentlyPlayed (Ok history) = Ok (Some latest)
    /\ Spotify.tracksEqual (Some latest) (Some shown)
       = negb (is_playing data)
    /\ (is_playing data = false ->
        granted token ->
        nothingPlaying idle ->
        get_error p = None ->
        live (clock_read p) s = Some c ->
        Spotify.data c = Some shown ->
        (method request <> "OPTIONS" ->
         Spotify.cacheValid (clock_read p) (Some c) = false ->
         Spotify.fetch request
           (worker p (Ok token) (Ok idle) (Ok history)) s
         = (Ok (Spotify.json (Some latest)), s, polled))
        /\ (Spotify.tooSoon (clock_read p) (Some c) = false ->
            Spotify.scheduled
              (worker p (Ok token) (Ok idle) (Ok history)) s
            = (Ok tt, s, polled))).
Proof.
  intros Hitem Hfirst Hid Htruthy history polled.
  destruct (getNowPlaying_item data i Hitem) as [shown [Hshown [Hsid Hsp]]].
  destruct (getRecentlyPlayed_item h rest j Hfirst)
    as [latest [Hlatest [Hlid Hlp]]].
  exists shown, latest.
  assert (Heq : Spotify.tracksEqual (Some latest) (Some shown)
                = negb (is_playing data)).
  { unfold Spotify.tracksEqual.
    rewrite Hlid, Hsid, Hid, Htruthy, Hlp, Hsp.
    cbn [andb].
    replace (Spotify.opt_string_eqb (id i) (id i)) with true
      by (symmetry; now apply opt_string_eqb_eq).
    now destruct (is_playing data). }
  split; [exact Hshown|].
  split; [exact Hlatest|].
  split; [exact Heq|].
  intros Hpaused Htok Hnone Hget Hlive Hdata.
  assert (Htoken : Spotify.getAccessToken
                     (worker p (Ok token) (Ok idle) (Ok history)) = Ok tt)
    by exact (getAccessToken_granted token Htok).
  assert (Hnow : Spotify.getNowPlaying
                   (worker p (Ok token) (Ok idle) (Ok history)) = Ok None)
    by exact (proj2 (getNowPlaying_null_iff idle) Hnone).
  assert (Hrecent : Spotify.getRecentlyPlayed
                      (worker p (Ok token) (Ok idle) (Ok history))
                    = Ok (Some latest)) by exact Hlatest.
  split.
  - intros Hq Hst.
    rewrite <- Hlive in Hst.
    rewrite (spotify_fetch_stale request
               (worker p (Ok token) (Ok idle) (Ok history)) s Hq Hget Hst).
    unfold Spotify.fetchLatest, Spotify.calls.
    rewrite Htoken, Hnow, Hrecent.
    change (Spotify.platform (worker p (Ok token) (Ok idle) (Ok history)))
      with p.
    rewrite Hlive; cbn [JS.chain_opt]; rewrite Hdata, Heq, Hpaused.
    reflexivity.
  - intros Hsoon.
    rewrite <- Hlive in Hsoon.
    rewrite (spotify_scheduled_run
               (worker p (Ok token) (Ok idle) (Ok history)) s Hget Hsoon).
    unfold Spotify.fetchLatest, Spotify.calls.
    rewrite Htoken, Hnow, Hrecent.
    change (Spotify.platform (worker p (Ok token) (Ok idle) (Ok history)))
      with p.
    rewrite Hlive; cbn [JS.chain_opt]; rewrite Hdata, Heq, Hpaused.
    reflexivity.
Qed.

Lemma X23_paused_item_witness :
  Spotify.fetch GET
    (SpotifyApi.worker (calm (t0 + 60000) (t0 + 60001))
       tokenGranted (Ok playerIdle) (Ok historySong))
    pausedStore
  = (Ok (Spotify.json (Some trackAPaused)), pausedStore,
     [EvGet; EvFetch SpotifyToken; EvFetch SpotifyNowPlaying;
      EvFetch SpotifyRecentlyPlayed]).
Proof.
  destruct (X23_paused_item_then_history
              (calm (t0 + 60000) (t0 + 60001))
              (Http.mkResponse 200 (Ok tt)) playerIdle
              (SpotifyApi.mkPlaying false (Some "track") (Some songItem))
              songItem songItem
              (SpotifyApi.mkHistory (Some songItem) None) [] GET pausedStore
              (Spotify.mkEntry (Some trackAPaused) t0 t0)
              eq_refl (or_introl eq_refl) eq_refl eq_refl)
    as [shown [latest [Hshown [Hlatest [_ Hquiet]]]]].
  injection Hshown as <-.
  injection Hlatest as <-.
  apply Hquiet;
    first [discriminate | reflexivity | exact (conj eq_refl eq_refl)
           | exact (or_introl eq_refl)].
Defined.

End Api.

(** * The track comparison as a relation *)

Section TrackRelation.

Import Spotify.

Lemma tracksEqual_sym (a b : option Track) :
  tracksEqual a b = tracksEqual b a.
Proof.
  destruct a as [t1|], b as [t2|]; try reflexivity.
  unfold tracksEqual.
  rewrite (andb_comm (JS.truthy_str (trackId t2))).
  destruct (JS.truthy_str (trackId t1) && JS.truthy_str (trackId t2)).
  - f_equal.
    + apply eq_true_iff_eq.
      rewrite !opt_string_eqb_eq.
      split; intros H; now symmetry.
    + now destruct (isPlaying t1), (isPlaying t2).
  - apply eq_true_iff_eq.
    rewrite !json_eqb_eq.
    split; intros H; now symmetry.
Qed.

Lemma tracksEqual_trans (a b c : option Track) :
  tracksEqual a b = true -> tracksEqual b c = true ->
  tracksEqual a c = true.
Proof.
  destruct a as [t1|], b as [t2|], c as [t3|]; try discriminate; try easy.
  intros H12 H23.
  destruct (JS.truthy_str (trackId t1) && JS.truthy_str (trackId t2)) eqn:E12.
  - destruct (JS.truthy_str (trackId t2) && JS.truthy_str (trackId t3))
      eqn:E23.
    + apply andb_true_iff in E12, E23.
      destruct E12 as [T1 T2], E23 as [_ T3].
      apply (tracksEqual_ids t1 t2 T1 T2) in H12.
      apply (tracksEqual_ids t2 t3 T2 T3) in H23.
      apply (tracksEqual_ids t1 t3 T1 T3).
      destruct H12 as [-> ->], H23 as [-> ->].
      now split.
    + apply (tracksEqual_fallback t2 t3 E23) in H23.
      now subst t3.
  - apply (tracksEqual_fallback t1 t2 E12) in H12.
    now subst t2.
Qed.

(** X24: [tracksEqual] is an equivalence on track-or-null values:
    reflexive, symmetric and transitive, although it compares by id and
    playing state where both ids are present and by every field
    otherwise. *)
Theorem X24_tracksEqual_is_equivalence :
  (forall a : option Track, tracksEqual a a = true)
  /\ (forall a b : option Track, tracksEqual a b = tracksEqual b a)
  /\ (forall a b c : option Track,
         tracksEqual a b = true -> tracksEqual b c = true ->
         tracksEqual a c = true).
Proof.
  split; [exact tracksEqual_refl|].
  split; [exact tracksEqual_sym | exact tracksEqual_trans].
Qed.

Lemma X24_equivalence_witness :
  tracksEqual (Some trackB) (Some trackB) = true
  /\ tracksEqual (Some localA) (Some trackB)
     = tracksEqual (Some trackB) (Some localA)
  /\ tracksEqual (Some trackA) (Some trackA) = true.
Proof.
  destruct X24_tracksEqual_is_equivalence as [Hrefl [Hsym Htrans]].
  split; [exact (Hrefl (Some trackB))|].
  split; [exact (Hsym (Some localA) (Some trackB))|].
  exact (Htrans (Some trackA) (Some trackB) (Some trackA) eq_refl eq_refl).
Defined.

End TrackRelation.

(** * The operations of a run of polls *)

Section RunBudget.

Lemma count_app {Entry : Type} (f : Event Entry -> bool)
      (t1 t2 : list (Event Entry)) :
  length (filter f (t1 ++ t2))
  = (length (filter f t1) + length (filter f t2))%nat.
Proof. now rewrite filter_app, length_app. Qed.

Lemma effect_within {Entry A : Type} (k : nat) (m : M Entry A)
      (s : Store Entry) :
  within_budget k s (m s) -> run_within 1 k s (effect m s).
Proof.
  unfold within_budget, run_within, effect.
  destruct (m s) as [[r s1] t1].
  now rewrite Nat.mul_1_l.
Qed.

Lemma run_budget {Entry X : Type} (step : X -> Step Entry) (k : nat) :
  (forall x s, run_within 1 k s (step x s)) ->
  forall xs s, run_within (length xs) k s (run (map step xs) s).
Proof.
  intros Hstep xs.
  induction xs as [|x xs IH]; intros s.
  - cbn. repeat split; cbv; lia.
  - cbn [map run length].
    specialize (Hstep x s).
    destruct (step x s) as [s1 t1].
    specialize (IH s1).
    destruct (run (map step xs) s1) as [s2 t2].
    unfold run_within in *.
    destruct Hstep as [Hr1 [Hf1 [Hp1 Hs1]]].
    destruct IH as [Hr2 [Hf2 [Hp2 Hs2]]].
    unfold reads, fetches, puts in *.
    rewrite !count_app, writes_app.
    repeat split; try lia.
    intros Hw.
    rewrite Hs2, Hs1 by lia.
    reflexivity.
Qed.

(** X25: a run of n requests and ticks of a worker, from any store,
    reads the store at most n times, attempts at most n puts and makes at
    most n upstream calls (reading-list workers) or 3n (playback worker);
    the store at its end differs from the store at its start only if some
    put succeeded. *)
Theorem X25_operations_per_run :
  (forall (ps : list Goodreads.Poll) (s : Store Goodreads.Entry),
      run_within (length ps) 1 s (run (map Goodreads.poll ps) s))
  /\ (forall (ps : list GoodreadsInline.Poll)
             (s : Store GoodreadsInline.Entry),
         run_within (length ps) 1 s (run (map GoodreadsInline.poll ps) s))
  /\ (forall (ps : list Spotify.Poll) (s : Store Spotify.Entry),
         run_within (length ps) 3 s (run (map Spotify.poll ps) s)).
Proof.
  split; [|split]; intros ps s.
  - apply run_budget.
    intros [request env|env] s0; apply effect_within.
    + exact (proj1 (goodreads_budget request env s0)).
    + exact (proj2 (goodreads_budget GET env s0)).
  - apply run_budget.
    intros [request env|env] s0; apply effect_within.
    + exact (proj1 (inline_budget request env s0)).
    + exact (proj2 (inline_budget GET env s0)).
  - apply run_budget.
    intros [request env|env] s0; apply effect_within.
    + exact (proj1 (spotify_budget request env s0)).
    + exact (proj2 (spotify_budget GET env s0)).
Qed.

End RunBudget.
